(** * Verification of the task orchestrator's core

    A shallow embedding of the state store ([RedisStateManager]), the metrics
    collector, the load balancer, the execution engine, the orchestrator's
    task handling, the worker base class and, of the workers, the heartbeat
    loop, the circuit breaker of the API caller and the alert handling,
    followed by the properties of the specification that were checked
    against them and by further properties of the code.

    Conventions of the embedding.
    - Python floats (timestamps, durations, samples) are exact rationals [Q].
    - Stateful code is written in a state-and-exception monad [M S]; a Python
      [try ... except Exception] is [try_except].
    - The Redis server is the record [world]: one finite map per key prefix
      ([task:], [agent:], [agent:type:], [queue:], [lock:], [metrics:]), the
      list of published messages, the clock, and a fault schedule saying
      which of the coming backend calls raise.  JSON text stored under a key
      is kept as the record it encodes.  The maps are apart: no worker id
      begins with [type:], which would make its key [agent:<id>] an index
      key. *)

From Stdlib Require Import ZArith QArith Lqa Lia Bool List Ascii String.
From stdpp Require Import base option gmap strings list fin_maps sorting.

Close Scope Q_scope.
Local Open Scope Z_scope.
Local Open Scope string_scope.

(* ===================================================================== *)
(** ** Python values *)
(* ===================================================================== *)

(** Dynamically typed payloads ([Dict[str, Any]], [Any]). *)
#[local] Unset Elimination Schemes.
Inductive json : Type :=
| JNull
| JBool (b : bool)
| JInt (z : Z)
| JNum (q : Q)
| JStr (s : string)
| JList (l : list json)
| JDict (kv : list (string * json)).
#[local] Set Elimination Schemes.

(** Python truthiness, as used by [if error:], [if output:], [if r.output]. *)
Definition truthy (v : json) : bool :=
  match v with
  | JNull => false
  | JBool b => b
  | JInt z => negb (z =? 0)%Z
  | JNum q => negb (Qeq_bool q 0)
  | JStr s => negb (String.eqb s "")
  | JList l => match l with [] => false | _ => true end
  | JDict kv => match kv with [] => false | _ => true end
  end.

Definition opt_truthy (o : option json) : bool :=
  match o with Some v => truthy v | None => false end.

(** [d.get(k, default)] and [d[k] = v] on a dict kept as an association
    list in insertion order. *)
Fixpoint dict_get (k : string) (kv : list (string * json)) : option json :=
  match kv with
  | [] => None
  | (k', v) :: rest => if String.eqb k k' then Some v else dict_get k rest
  end.

Fixpoint dict_set (k : string) (v : json) (kv : list (string * json))
  : list (string * json) :=
  match kv with
  | [] => [(k, v)]
  | (k', v') :: rest =>
      if String.eqb k k' then (k, v) :: rest else (k', v') :: dict_set k v rest
  end.

Definition dict_get_default (k : string) (d : json) (kv : list (string * json)) : json :=
  match dict_get k kv with Some v => v | None => d end.

(** [d.get(k, default)] on a value that is a dict. *)
Definition json_get_default (k : string) (d : json) (v : json) : json :=
  match v with
  | JDict kv => dict_get_default k d kv
  | _ => d
  end.

(* ===================================================================== *)
(** ** Exceptions and the monad *)
(* ===================================================================== *)

(** The exception classes the code raises or can receive from the client
    library; all of them derive from [Exception]. *)
Inductive exn_class : Type :=
| ConnectionError | TimeoutError | ResponseError | LockError
| ValueError | RuntimeError | TypeError | KeyError | IndexError | ZeroDivisionError.

Record exn : Type := Exn { exn_cls : exn_class; exn_msg : string }.

(** [str(e)] *)
Definition str_of_exn (e : exn) : string := exn_msg e.

Definition is_LockError (e : exn) : bool :=
  match exn_cls e with LockError => true | _ => false end.

Inductive result (A : Type) : Type :=
| Ok (a : A)
| Raise (e : exn).
Arguments Ok {A} a.
Arguments Raise {A} e.

Definition M (S A : Type) : Type := S -> result A * S.

Definition ret {S A} (a : A) : M S A := fun s => (Ok a, s).

Definition bind {S A B} (m : M S A) (k : A -> M S B) : M S B :=
  fun s => match m s with
           | (Ok a, s') => k a s'
           | (Raise e, s') => (Raise e, s')
           end.

Definition raise {S A} (e : exn) : M S A := fun s => (Raise e, s).

(** [try: body except Exception as e: handler(e)] *)
Definition try_except {S A} (body : M S A) (handler : exn -> M S A) : M S A :=
  fun s => match body s with
           | (Ok a, s') => (Ok a, s')
           | (Raise e, s') => handler e s'
           end.

(** [try: body except C as e: handler(e)] for one exception class. *)
Definition try_except_only {S A} (catches : exn -> bool)
    (body : M S A) (handler : exn -> M S A) : M S A :=
  fun s => match body s with
           | (Ok a, s') => (Ok a, s')
           | (Raise e, s') => if catches e then handler e s' else (Raise e, s')
           end.

(** [try: body finally: cleanup] *)
Definition try_finally {S A} (body : M S A) (cleanup : M S unit) : M S A :=
  fun s => match body s with
           | (r, s') => match cleanup s' with
                        | (Ok _, s'') => (r, s'')
                        | (Raise e, s'') => (Raise e, s'')
                        end
           end.

Definition gets {S A} (f : S -> A) : M S A := fun s => (Ok (f s), s).
Definition modify {S} (f : S -> S) : M S unit := fun s => (Ok tt, f s).

Declare Scope py_scope.
Delimit Scope py_scope with py.
Notation "x <~ c ;; k" := (bind c (fun x => k))
  (at level 100, c at next level, right associativity) : py_scope.
Notation "c ;;; k" := (bind c (fun _ => k))
  (at level 100, right associativity) : py_scope.
Local Open Scope py_scope.

(** A [for] loop whose body may raise. *)
Fixpoint for_each {S A} (l : list A) (body : A -> M S unit) : M S unit :=
  match l with
  | [] => ret tt
  | x :: rest => body x ;;; for_each rest body
  end.

Fixpoint fold_m {S A B} (body : B -> A -> M S B) (l : list A) (acc : B) : M S B :=
  match l with
  | [] => ret acc
  | x :: rest => acc' <~ body acc x ;; fold_m body rest acc'
  end.

(* ===================================================================== *)
(** ** state/redis_manager.py: data model *)
(* ===================================================================== *)

Inductive TaskStatus : Type :=
| PENDING | QUEUED | RUNNING | COMPLETED | FAILED | CANCELLED | RETRYING.

Definition TaskStatus_value (s : TaskStatus) : string :=
  match s with
  | PENDING => "pending"
  | QUEUED => "queued"
  | RUNNING => "running"
  | COMPLETED => "completed"
  | FAILED => "failed"
  | CANCELLED => "cancelled"
  | RETRYING => "retrying"
  end.

Global Instance TaskStatus_eq_dec : EqDecision TaskStatus.
Proof. solve_decision. Defined.

Record TaskState : Type := mkTaskState {
  task_id : string;
  status : TaskStatus;
  task_type : string;
  created_at : Q;
  updated_at : Q;
  agent_executions : list json;
  metadata : list (string * json);
  output : option json;
  error : option json;
  retry_count : Z;
  priority : Z
}.

Record AgentInfo : Type := mkAgentInfo {
  agent_id : string;
  agent_type : string;
  endpoint : string;
  capabilities : list string;
  max_concurrent_tasks : Z;
  current_tasks : Z;
  healthy : bool;
  last_heartbeat : Q;
  agent_metadata : json
}.

Definition set_status (st : TaskStatus) (t : TaskState) : TaskState :=
  mkTaskState (task_id t) st (task_type t) (created_at t) (updated_at t)
    (agent_executions t) (metadata t) (output t) (error t) (retry_count t) (priority t).

Definition set_updated_at (q : Q) (t : TaskState) : TaskState :=
  mkTaskState (task_id t) (status t) (task_type t) (created_at t) q
    (agent_executions t) (metadata t) (output t) (error t) (retry_count t) (priority t).

Definition set_agent_executions (l : list json) (t : TaskState) : TaskState :=
  mkTaskState (task_id t) (status t) (task_type t) (created_at t) (updated_at t)
    l (metadata t) (output t) (error t) (retry_count t) (priority t).

Definition set_metadata (m : list (string * json)) (t : TaskState) : TaskState :=
  mkTaskState (task_id t) (status t) (task_type t) (created_at t) (updated_at t)
    (agent_executions t) m (output t) (error t) (retry_count t) (priority t).

Definition set_output (o : option json) (t : TaskState) : TaskState :=
  mkTaskState (task_id t) (status t) (task_type t) (created_at t) (updated_at t)
    (agent_executions t) (metadata t) o (error t) (retry_count t) (priority t).

Definition set_error (e : option json) (t : TaskState) : TaskState :=
  mkTaskState (task_id t) (status t) (task_type t) (created_at t) (updated_at t)
    (agent_executions t) (metadata t) (output t) e (retry_count t) (priority t).

Definition set_retry_count (n : Z) (t : TaskState) : TaskState :=
  mkTaskState (task_id t) (status t) (task_type t) (created_at t) (updated_at t)
    (agent_executions t) (metadata t) (output t) (error t) n (priority t).

Definition set_current_tasks (n : Z) (a : AgentInfo) : AgentInfo :=
  mkAgentInfo (agent_id a) (agent_type a) (endpoint a) (capabilities a)
    (max_concurrent_tasks a) n (healthy a) (last_heartbeat a) (agent_metadata a).

Definition set_healthy (b : bool) (a : AgentInfo) : AgentInfo :=
  mkAgentInfo (agent_id a) (agent_type a) (endpoint a) (capabilities a)
    (max_concurrent_tasks a) (current_tasks a) b (last_heartbeat a) (agent_metadata a).

Definition set_last_heartbeat (q : Q) (a : AgentInfo) : AgentInfo :=
  mkAgentInfo (agent_id a) (agent_type a) (endpoint a) (capabilities a)
    (max_concurrent_tasks a) (current_tasks a) (healthy a) q (agent_metadata a).

(* ===================================================================== *)
(** ** The Redis server *)
(* ===================================================================== *)

(** A held lock: the holder's token and the time at which it expires. *)
Record lock_entry : Type := mkLock { lock_token : nat; lock_expiry : Q }.

(** What a client holds after [acquire]. *)
Record lock_handle : Type := mkHandle { handle_key : string; handle_token : nat }.

(** A value under a [metrics:] key: [INCRBY] keeps integers, [SET] of a
    float stores its text. *)
Inductive metric_val : Type :=
| MInt (z : Z)
| MFloat (q : Q).

Record world : Type := mkWorld {
  db_tasks : gmap string TaskState;            (* task:<id> *)
  db_agents : gmap string AgentInfo;           (* agent:<id> *)
  db_agent_types : gmap string (gset string);  (* agent:type:<type> *)
  db_queues : gmap string (gmap string Z);     (* queue:<task_type>, member -> score *)
  db_locks : gmap string lock_entry;           (* lock:<name> *)
  db_metrics : gmap string metric_val;         (* metrics:<name> *)
  published : list (string * json);            (* channel, message; latest first *)
  subscriptions : list string;
  next_token : nat;
  faults : list (option exn);
  now : Q
}.

Definition with_tasks (f : gmap string TaskState -> gmap string TaskState) (w : world) : world :=
  mkWorld (f (db_tasks w)) (db_agents w) (db_agent_types w) (db_queues w) (db_locks w)
    (db_metrics w) (published w) (subscriptions w) (next_token w) (faults w) (now w).

Definition with_agents (f : gmap string AgentInfo -> gmap string AgentInfo) (w : world) : world :=
  mkWorld (db_tasks w) (f (db_agents w)) (db_agent_types w) (db_queues w) (db_locks w)
    (db_metrics w) (published w) (subscriptions w) (next_token w) (faults w) (now w).

Definition with_agent_types
    (f : gmap string (gset string) -> gmap string (gset string)) (w : world) : world :=
  mkWorld (db_tasks w) (db_agents w) (f (db_agent_types w)) (db_queues w) (db_locks w)
    (db_metrics w) (published w) (subscriptions w) (next_token w) (faults w) (now w).

Definition with_queues
    (f : gmap string (gmap string Z) -> gmap string (gmap string Z)) (w : world) : world :=
  mkWorld (db_tasks w) (db_agents w) (db_agent_types w) (f (db_queues w)) (db_locks w)
    (db_metrics w) (published w) (subscriptions w) (next_token w) (faults w) (now w).

Definition with_locks (f : gmap string lock_entry -> gmap string lock_entry) (w : world) : world :=
  mkWorld (db_tasks w) (db_agents w) (db_agent_types w) (db_queues w) (f (db_locks w))
    (db_metrics w) (published w) (subscriptions w) (next_token w) (faults w) (now w).

Definition with_metrics (f : gmap string metric_val -> gmap string metric_val) (w : world) : world :=
  mkWorld (db_tasks w) (db_agents w) (db_agent_types w) (db_queues w) (db_locks w)
    (f (db_metrics w)) (published w) (subscriptions w) (next_token w) (faults w) (now w).

Definition with_published (f : list (string * json) -> list (string * json)) (w : world) : world :=
  mkWorld (db_tasks w) (db_agents w) (db_agent_types w) (db_queues w) (db_locks w)
    (db_metrics w) (f (published w)) (subscriptions w) (next_token w) (faults w) (now w).

Definition with_subscriptions (f : list string -> list string) (w : world) : world :=
  mkWorld (db_tasks w) (db_agents w) (db_agent_types w) (db_queues w) (db_locks w)
    (db_metrics w) (published w) (f (subscriptions w)) (next_token w) (faults w) (now w).

Definition with_next_token (f : nat -> nat) (w : world) : world :=
  mkWorld (db_tasks w) (db_agents w) (db_agent_types w) (db_queues w) (db_locks w)
    (db_metrics w) (published w) (subscriptions w) (f (next_token w)) (faults w) (now w).

Definition with_faults (f : list (option exn) -> list (option exn)) (w : world) : world :=
  mkWorld (db_tasks w) (db_agents w) (db_agent_types w) (db_queues w) (db_locks w)
    (db_metrics w) (published w) (subscriptions w) (next_token w) (f (faults w)) (now w).

Definition with_now (f : Q -> Q) (w : world) : world :=
  mkWorld (db_tasks w) (db_agents w) (db_agent_types w) (db_queues w) (db_locks w)
    (db_metrics w) (published w) (subscriptions w) (next_token w) (faults w) (f (now w)).

Definition empty_world : world :=
  mkWorld ∅ ∅ ∅ ∅ ∅ ∅ [] [] O [] 0%Q.

(** One round trip to the server.  The head of the fault schedule decides
    whether the call raises; an exhausted schedule means no further fault. *)
Definition backend {A} (op : M world A) : M world A :=
  fun w =>
    match faults w with
    | Some e :: rest => (Raise e, with_faults (fun _ => rest) w)
    | None :: rest => op (with_faults (fun _ => rest) w)
    | [] => op w
    end.

(** [x < y] on floats. *)
Definition Qltb (x y : Q) : bool := negb (Qle_bool y x).

(** [time.time()] and [asyncio.sleep(d)] *)
Definition time_time : M world Q := gets now.
Definition sleep (d : Q) : M world unit := modify (with_now (fun t => (t + d)%Q)).

(** *** Sorted sets

    A sorted set maps each member to its score.  Redis orders a sorted set
    by score and, among members of equal score, by the members' bytes
    (lexicographically); [ZADD] on a member already present replaces its
    score; [ZPOPMIN] removes the first element of that order. *)
Definition zset_lt (a b : string * Z) : bool :=
  (a.2 <? b.2)%Z || ((a.2 =? b.2)%Z && String.ltb a.1 b.1).

Definition zset_le (a b : string * Z) : bool :=
  (a.2 <? b.2)%Z || ((a.2 =? b.2)%Z && String.leb a.1 b.1).

Definition zset_min_step (best : option (string * Z)) (x : string * Z)
  : option (string * Z) :=
  match best with
  | None => Some x
  | Some b => if zset_lt x b then Some x else Some b
  end.

Definition zset_min (z : gmap string Z) : option (string * Z) :=
  foldl zset_min_step None (map_to_list z).

Definition redis_zadd (key member : string) (score : Z) (w : world) : world :=
  with_queues (fun qs => <[key := <[member := score]> (default ∅ (qs !! key))]> qs) w.

Definition redis_zpopmin (key : string) (w : world) : list (string * Z) * world :=
  match zset_min (default ∅ (db_queues w !! key)) with
  | None => ([], w)
  | Some (m, s) =>
      ([(m, s)], with_queues (fun qs => <[key := delete m (default ∅ (qs !! key))]> qs) w)
  end.

Definition redis_zcard (key : string) (w : world) : Z :=
  Z.of_nat (size (default ∅ (db_queues w !! key))).

(** *** Locks ([redis.lock.Lock]) *)
Definition lock_live (w : world) (key : string) : option lock_entry :=
  match db_locks w !! key with
  | Some l => if Qltb (now w) (lock_expiry l) then Some l else None
  | None => None
  end.

(** *** The commands the state manager issues *)
Definition redis_get_task (id : string) : M world (option TaskState) :=
  backend (gets (fun w => db_tasks w !! id)).

Definition redis_set_task (id : string) (t : TaskState) : M world unit :=
  backend (modify (with_tasks (insert id t))).

(** [pipe.set(...); pipe.zadd(...); pipe.execute()]: one transaction. *)
Definition redis_pipeline_set_zadd (t : TaskState) : M world unit :=
  backend (modify (fun w =>
    redis_zadd (task_type t) (task_id t) (priority t)
      (with_tasks (insert (task_id t) t) w))).

Definition redis_publish (channel : string) (msg : json) : M world unit :=
  backend (modify (with_published (cons (channel, msg)))).

Definition redis_get_agent (id : string) : M world (option AgentInfo) :=
  backend (gets (fun w => db_agents w !! id)).

Definition redis_set_agent (id : string) (a : AgentInfo) : M world unit :=
  backend (modify (with_agents (insert id a))).

Definition redis_delete_agent (id : string) : M world unit :=
  backend (modify (with_agents (delete id))).

Definition redis_sadd (type member : string) : M world unit :=
  backend (modify (with_agent_types
    (fun ix => <[type := {[member]} ∪ default ∅ (ix !! type)]> ix))).

Definition redis_srem (type member : string) : M world unit :=
  backend (modify (with_agent_types
    (fun ix => <[type := default ∅ (ix !! type) ∖ {[member]}]> ix))).

(** [SMEMBERS]; the order in which Python iterates the returned set is
    unspecified, the model takes the order of [elements]. *)
Definition redis_smembers (type : string) : M world (list string) :=
  backend (gets (fun w => elements (default ∅ (db_agent_types w !! type)))).

(** [scan_iter(match="agent:*")] without the [agent:type:] keys, which the
    caller skips. *)
Definition redis_scan_agents : M world (list string) :=
  backend (gets (fun w => (map_to_list (db_agents w)).*1)).

Definition redis_ping : M world bool := backend (ret true).

Definition redis_incrby (name : string) (v : Z) : M world unit :=
  backend (fun w =>
    match db_metrics w !! name with
    | None => (Ok tt, with_metrics (insert name (MInt v)) w)
    | Some (MInt z) => (Ok tt, with_metrics (insert name (MInt (z + v))) w)
    | Some (MFloat _) =>
        (Raise (Exn ResponseError "value is not an integer or out of range"), w)
    end).

Definition redis_set_metric (name : string) (v : Q) : M world unit :=
  backend (modify (with_metrics (insert name (MFloat v)))).

Definition redis_get_metric (name : string) : M world (option metric_val) :=
  backend (gets (fun w => db_metrics w !! name)).

(** [SET key token NX PX timeout] *)
Definition redis_lock_try (key : string) (token : nat) (timeout : Z) : M world bool :=
  backend (fun w =>
    match lock_live w key with
    | Some _ => (Ok false, w)
    | None =>
        (Ok true,
         with_locks (insert key (mkLock token (now w + inject_Z timeout)%Q)) w)
    end).

(** The release script: delete the key if it still holds our token. *)
Definition redis_lock_release (h : lock_handle) : M world unit :=
  backend (fun w =>
    match lock_live w (handle_key h) with
    | Some l =>
        if Nat.eqb (lock_token l) (handle_token h)
        then (Ok tt, with_locks (delete (handle_key h)) w)
        else (Raise (Exn LockError "Cannot release a lock that's no longer owned"), w)
    | None => (Raise (Exn LockError "Cannot release a lock that's no longer owned"), w)
    end).

Definition redis_subscribe (channel : string) : M world string :=
  backend (fun w => (Ok channel, with_subscriptions (cons channel) w)).

(** [Lock.acquire(blocking=True, blocking_timeout=timeout)]: try, and while
    the next try would still fall inside the window, sleep 0.1 s and retry. *)
Fixpoint lock_acquire (polls : nat) (key : string) (token : nat) (timeout : Z)
  : M world bool :=
  ok <~ redis_lock_try key token timeout ;;
  if ok : bool then ret true
  else match polls with
       | O => ret false
       | S n => sleep (1 # 10) ;;; lock_acquire n key token timeout
       end.

(* ===================================================================== *)
(** ** state/redis_manager.py: RedisStateManager *)
(* ===================================================================== *)

Module RedisStateManager.

Definition create_task (task_state : TaskState) : M world bool :=
  try_except
    (redis_pipeline_set_zadd task_state ;;; ret true)
    (fun _ => ret false).

Definition get_task (task_id : string) : M world (option TaskState) :=
  try_except
    (redis_get_task task_id)
    (fun _ => ret None).

Definition update_task_status (task_id : string) (status : TaskStatus)
    (error output : option json) : M world bool :=
  try_except
    (task <~ get_task task_id ;;
     match task with
     | None => ret false
     | Some task =>
         t <~ time_time ;;
         let task := set_updated_at t (set_status status task) in
         let task := if opt_truthy error then set_error error task else task in
         let task := if opt_truthy output then set_output output task else task in
         redis_set_task task_id task ;;;
         t' <~ time_time ;;
         redis_publish ("task_updates:" ++ task_id)
           (JDict [("status", JStr (TaskStatus_value status)); ("timestamp", JNum t')]) ;;;
         ret true
     end)
    (fun _ => ret false).

Definition add_agent_execution (task_id : string) (agent_execution : json)
  : M world bool :=
  try_except
    (task <~ get_task task_id ;;
     match task with
     | None => ret false
     | Some task =>
         t <~ time_time ;;
         let task :=
           set_updated_at t
             (set_agent_executions (agent_executions task ++ [agent_execution])%list task) in
         redis_set_task task_id task ;;;
         ret true
     end)
    (fun _ => ret false).

Definition get_next_task (task_type : string) : M world (option string) :=
  try_except
    (result <~ backend (fun w => let '(r, w') := redis_zpopmin task_type w in (Ok r, w')) ;;
     match result with
     | (task_id, _) :: _ => ret (Some task_id)
     | [] => ret None
     end)
    (fun _ => ret None).

Definition get_queue_length (task_type : string) : M world Z :=
  try_except
    (backend (gets (redis_zcard task_type)))
    (fun _ => ret 0).

(** [register_agent] writes the record under [agent:<id>] and adds the id
    to the set [agent:type:<type>].  The two keys are entries of the two
    maps [db_agents] and [db_agent_types]: for the ids of the conventions
    above, which do not begin with [type:], they are different keys of the
    server. *)
Definition register_agent (agent_info : AgentInfo) : M world bool :=
  try_except
    (redis_set_agent (agent_id agent_info) agent_info ;;;
     redis_sadd (agent_type agent_info) (agent_id agent_info) ;;;
     ret true)
    (fun _ => ret false).

Definition get_agent (agent_id : string) : M world (option AgentInfo) :=
  try_except
    (redis_get_agent agent_id)
    (fun _ => ret None).

Definition get_agents_by_type (agent_type : string) : M world (list AgentInfo) :=
  try_except
    (agent_ids <~ redis_smembers agent_type ;;
     fold_m (fun agents agent_id =>
               agent <~ get_agent agent_id ;;
               match agent with
               | Some agent => if healthy agent then ret (agents ++ [agent])%list else ret agents
               | None => ret agents
               end)
            agent_ids [])
    (fun _ => ret []).

Definition update_agent_heartbeat (agent_id : string) : M world bool :=
  try_except
    (agent <~ get_agent agent_id ;;
     match agent with
     | None => ret false
     | Some agent =>
         t <~ time_time ;;
         redis_set_agent agent_id (set_last_heartbeat t agent) ;;;
         ret true
     end)
    (fun _ => ret false).

Definition increment_agent_tasks (agent_id : string) (increment : Z) : M world bool :=
  try_except
    (agent <~ get_agent agent_id ;;
     match agent with
     | None => ret false
     | Some agent =>
         let agent := set_current_tasks (Z.max 0 (current_tasks agent + increment)) agent in
         redis_set_agent agent_id agent ;;;
         ret true
     end)
    (fun _ => ret false).

Definition acquire_lock (lock_name : string) (timeout : Z) : M world (option lock_handle) :=
  try_except
    (let lock_key := "lock:" ++ lock_name in
     token <~ gets next_token ;;
     modify (with_next_token S) ;;;
     ok <~ lock_acquire (Z.to_nat (10 * timeout)) lock_key token timeout ;;
     if ok : bool then ret (Some (mkHandle lock_key token)) else ret None)
    (fun _ => ret None).

Definition release_lock (lock : lock_handle) : M world bool :=
  try_except_only is_LockError
    (redis_lock_release lock ;;; ret true)
    (fun _ => ret false).

Definition increment_metric (metric_name : string) (value : Z) : M world unit :=
  try_except (redis_incrby metric_name value) (fun _ => ret tt).

Definition set_metric (metric_name : string) (value : Q) : M world unit :=
  try_except (redis_set_metric metric_name value) (fun _ => ret tt).

Definition get_metric (metric_name : string) : M world (option Q) :=
  try_except
    (value <~ redis_get_metric metric_name ;;
     match value with
     | Some (MInt z) => ret (Some (inject_Z z))
     | Some (MFloat q) => ret (Some q)
     | None => ret None
     end)
    (fun _ => ret None).

Definition subscribe_to_task_updates (task_id : string) : M world string :=
  redis_subscribe ("task_updates:" ++ task_id).

Definition cleanup_stale_agents (max_age_seconds : Z) : M world unit :=
  try_except
    (current_time <~ time_time ;;
     keys <~ redis_scan_agents ;;
     for_each keys (fun key =>
       agent_data <~ redis_get_agent key ;;
       match agent_data with
       | Some agent =>
           if Qltb (inject_Z max_age_seconds) (current_time - last_heartbeat agent)%Q
           then redis_delete_agent key ;;;
                redis_srem (agent_type agent) (agent_id agent)
           else ret tt
       | None => ret tt
       end))
    (fun _ => ret tt).

Definition health_check : M world bool :=
  try_except redis_ping (fun _ => ret false).

End RedisStateManager.

(* ===================================================================== *)
(** ** Python built-ins used below *)
(* ===================================================================== *)

(** [sorted(l, key=...)]: a stable sort.  [leb x y] says that [x] may stand
    before [y]; an element is put in front of the elements it ties with, and
    the elements are inserted from the right, so ties keep their order. *)
Fixpoint insert_sorted {A} (leb : A -> A -> bool) (x : A) (l : list A) : list A :=
  match l with
  | [] => [x]
  | y :: rest => if leb x y then x :: l else y :: insert_sorted leb x rest
  end.

Definition sorted_by {A} (leb : A -> A -> bool) (l : list A) : list A :=
  foldr (insert_sorted leb) [] l.

Definition Qsum (l : list Q) : Q := foldr Qplus 0%Q l.

(** [sep.join(parts)] *)
Fixpoint join (sep : string) (parts : list string) : string :=
  match parts with
  | [] => ""
  | [p] => p
  | p :: rest => p ++ sep ++ join sep rest
  end.

(* ===================================================================== *)
(** ** monitoring/metrics.py: MetricsCollector *)
(* ===================================================================== *)

Module MetricsCollector.

Record sample : Type := mkSample { value : Q; timestamp : Q }.

Record t : Type := mkMetrics {
  max_histogram_samples : nat;
  _counters : gmap string Q;
  _gauges : gmap string Q;
  _histograms : gmap string (list sample);
  _start_time : Q
}.

Record stats : Type := mkStats {
  count : nat;
  mean : Q;
  p50 : Q;
  p95 : Q;
  p99 : Q;
  min : Q;
  max : Q
}.

Definition pair_leb (a b : string * string) : bool :=
  String.ltb a.1 b.1 || (String.eqb a.1 b.1 && String.leb a.2 b.2).

Definition _make_key (metric_name : string) (labels : list (string * string)) : string :=
  match labels with
  | [] => metric_name
  | _ =>
      let label_str :=
        join "," (map (fun kv => kv.1 ++ "=" ++ kv.2) (sorted_by pair_leb labels)) in
      metric_name ++ "{" ++ label_str ++ "}"
  end.

Definition _initialize_metrics (m : t) : t :=
  let c := _counters m in
  let c := <["tasks_submitted" := 0%Q]> c in
  let c := <["tasks_completed" := 0%Q]> c in
  let c := <["tasks_failed" := 0%Q]> c in
  let c := <["tasks_cancelled" := 0%Q]> c in
  let c := <["tasks_retried" := 0%Q]> c in
  let c := <["tasks_running" := 0%Q]> c in
  let c := <["tasks_under_500ms" := 0%Q]> c in
  mkMetrics (max_histogram_samples m) c (_gauges m) (_histograms m) (_start_time m).

(** [__init__], at clock reading [now]. *)
Definition init (max_samples : nat) (now : Q) : t :=
  _initialize_metrics (mkMetrics max_samples ∅ ∅ ∅ now).

Definition increment (metric_name : string) (v : Q) (labels : list (string * string))
    (m : t) : t :=
  let key := _make_key metric_name labels in
  mkMetrics (max_histogram_samples m)
    (<[key := (default 0%Q (_counters m !! key) + v)%Q]> (_counters m))
    (_gauges m) (_histograms m) (_start_time m).

Definition decrement (metric_name : string) (v : Q) (labels : list (string * string))
    (m : t) : t :=
  increment metric_name (- v)%Q labels m.

Definition set_gauge (metric_name : string) (v : Q) (labels : list (string * string))
    (m : t) : t :=
  let key := _make_key metric_name labels in
  mkMetrics (max_histogram_samples m) (_counters m)
    (<[key := v]> (_gauges m)) (_histograms m) (_start_time m).

(** [deque(maxlen=n).append(x)]: the oldest element leaves a full deque. *)
Definition deque_append {A} (maxlen : nat) (d : list A) (x : A) : list A :=
  let d' := (d ++ [x])%list in
  drop (length d' - maxlen)%nat d'.

(** [record], at clock reading [now]. *)
Definition record (metric_name : string) (v : Q) (labels : list (string * string))
    (now : Q) (m : t) : t :=
  let key := _make_key metric_name labels in
  mkMetrics (max_histogram_samples m) (_counters m) (_gauges m)
    (<[key := deque_append (max_histogram_samples m)
                (default [] (_histograms m !! key)) (mkSample v now)]> (_histograms m))
    (_start_time m).

Definition get_counter (metric_name : string) (labels : list (string * string)) (m : t) : Q :=
  default 0%Q (_counters m !! _make_key metric_name labels).

Definition get_gauge (metric_name : string) (labels : list (string * string)) (m : t) : Q :=
  default 0%Q (_gauges m !! _make_key metric_name labels).

(** [_percentile] for a percentile that is not negative (the callers pass
    50, 95 and 99).  [int((percentile / 100.0) * len(sorted_values))] is
    computed on doubles in the source; for these three percentiles the
    truncated product is the exact quotient [percentile * len / 100]
    (compared for every length up to 200000). *)
Definition _percentile (sorted_values : list Q) (percentile : nat) : Q :=
  match sorted_values with
  | [] => 0%Q
  | _ =>
      let index := (percentile * length sorted_values / 100)%nat in
      let index := Nat.min index (length sorted_values - 1) in
      nth index sorted_values 0%Q
  end.

Definition get_histogram_stats (metric_name : string) (labels : list (string * string))
    (m : t) : stats :=
  let key := _make_key metric_name labels in
  let samples := default [] (_histograms m !! key) in
  match samples with
  | [] => mkStats 0 0%Q 0%Q 0%Q 0%Q 0%Q 0%Q
  | _ =>
      let values := sorted_by Qle_bool (map value samples) in
      let count := length values in
      mkStats count
        (Qsum values / inject_Z (Z.of_nat count))%Q
        (_percentile values 50)
        (_percentile values 95)
        (_percentile values 99)
        (nth 0 values 0%Q)
        (List.last values 0%Q)
  end.

(** *** The lock

    The public methods run under [with self._lock], and [_lock] is a
    [threading.Lock]: it is not re-entrant, so a thread that asks for it
    while it holds it waits forever.  [held] tells whether the calling
    thread holds the lock already. *)
Inductive outcome (A : Type) : Type :=
| Returns (a : A)
| Deadlock.
Arguments Returns {A} a.
Arguments Deadlock {A}.

Definition outcome_bind {A B} (o : outcome A) (k : A -> outcome B) : outcome B :=
  match o with
  | Returns a => k a
  | Deadlock => Deadlock
  end.

(** [with self._lock: body]; inside [body] the lock is held. *)
Definition with_lock {A} (held : bool) (body : outcome A) : outcome A :=
  if held then Deadlock else body.

Definition locked_get_histogram_stats (held : bool) (metric_name : string)
    (labels : list (string * string)) (m : t) : outcome stats :=
  with_lock held (Returns (get_histogram_stats metric_name labels m)).

(** [name.split("{")[0]] *)
Fixpoint before_brace (name : string) : string :=
  match name with
  | EmptyString => EmptyString
  | String c rest =>
      if Ascii.eqb c "{"%char then EmptyString else String c (before_brace rest)
  end.

Fixpoint outcome_map {A B} (f : A -> outcome B) (l : list A) : outcome (list B) :=
  match l with
  | [] => Returns []
  | x :: rest =>
      outcome_bind (f x) (fun y =>
      outcome_bind (outcome_map f rest) (fun ys => Returns (y :: ys)))
  end.

Record all_metrics : Type := mkAllMetrics {
  all_counters : gmap string Q;
  all_gauges : gmap string Q;
  all_histograms : list (string * stats);
  all_uptime_seconds : Q
}.

(** [get_all_metrics], at clock reading [now]. *)
Definition get_all_metrics (held : bool) (now : Q) (m : t) : outcome all_metrics :=
  with_lock held
    (outcome_bind
       (outcome_map
          (fun name =>
             outcome_bind (locked_get_histogram_stats true (before_brace name) [] m)
               (fun s => Returns (name, s)))
          (map fst (map_to_list (_histograms m))))
       (fun hs =>
          Returns (mkAllMetrics (_counters m) (_gauges m) hs (now - _start_time m)%Q))).

Record task_metrics : Type := mkTaskMetrics {
  tasks_submitted : Q;
  tasks_completed : Q;
  tasks_failed : Q;
  tasks_cancelled : Q;
  tasks_under_500ms : Q;
  success_rate_percent : Q;
  error_rate_percent : Q;
  latency_ms : stats;
  uptime_seconds : Q
}.

(** [get_task_metrics], at clock reading [now]. *)
Definition get_task_metrics (held : bool) (now : Q) (m : t) : outcome task_metrics :=
  with_lock held
    (let total_submitted := default 0%Q (_counters m !! "tasks_submitted") in
     let total_completed := default 0%Q (_counters m !! "tasks_completed") in
     let total_failed := default 0%Q (_counters m !! "tasks_failed") in
     let total_cancelled := default 0%Q (_counters m !! "tasks_cancelled") in
     let under_500ms := default 0%Q (_counters m !! "tasks_under_500ms") in
     let total_terminal := (total_completed + total_failed + total_cancelled)%Q in
     let success_rate :=
       if Qltb 0 total_terminal then (total_completed / total_terminal * 100)%Q else 0%Q in
     let error_rate :=
       if Qltb 0 total_terminal then (total_failed / total_terminal * 100)%Q else 0%Q in
     outcome_bind (locked_get_histogram_stats true "task_execution_time_ms" [] m)
       (fun latency_stats =>
          Returns (mkTaskMetrics total_submitted total_completed total_failed
                     total_cancelled under_500ms success_rate error_rate latency_stats
                     (now - _start_time m)%Q))).

Record sla_checks : Type := mkSlaChecks {
  latency_p95_under_500ms : bool;
  error_rate_under_1_percent : bool;
  success_rate_above_99_percent : bool
}.

Definition check_sla_compliance (held : bool) (now : Q) (m : t) : outcome sla_checks :=
  outcome_bind (get_task_metrics held now m) (fun metrics =>
    let latency_stats := latency_ms metrics in
    Returns (mkSlaChecks (Qltb (p95 latency_stats) 500)
               (Qltb (error_rate_percent metrics) 1)
               (Qle_bool 99 (success_rate_percent metrics)))).

End MetricsCollector.

(* ===================================================================== *)
(** ** The orchestrator process *)
(* ===================================================================== *)

Inductive LoadBalancingStrategy : Type :=
| ROUND_ROBIN | LEAST_LOADED | RANDOM | WEIGHTED.

(** The mutable state of one orchestrator process: its connection to the
    store, its metrics collector, the load balancer's fields, the source of
    [random.choice], and the ids in [task_processors]. *)
Record process : Type := mkProcess {
  store : world;
  metrics : MetricsCollector.t;
  strategy : LoadBalancingStrategy;
  round_robin_counters : gmap string Z;
  random_source : list nat;
  task_processors : gset string
}.

Definition with_store (f : world -> world) (p : process) : process :=
  mkProcess (f (store p)) (metrics p) (strategy p) (round_robin_counters p)
    (random_source p) (task_processors p).

Definition with_metrics_collector (f : MetricsCollector.t -> MetricsCollector.t)
    (p : process) : process :=
  mkProcess (store p) (f (metrics p)) (strategy p) (round_robin_counters p)
    (random_source p) (task_processors p).

Definition with_round_robin_counters (f : gmap string Z -> gmap string Z)
    (p : process) : process :=
  mkProcess (store p) (metrics p) (strategy p) (f (round_robin_counters p))
    (random_source p) (task_processors p).

Definition with_random_source (f : list nat -> list nat) (p : process) : process :=
  mkProcess (store p) (metrics p) (strategy p) (round_robin_counters p)
    (f (random_source p)) (task_processors p).

Definition with_task_processors (f : gset string -> gset string) (p : process) : process :=
  mkProcess (store p) (metrics p) (strategy p) (round_robin_counters p)
    (random_source p) (f (task_processors p)).

(** Run a computation on a component of the state. *)
Definition zoom {S T A} (get : S -> T) (set : T -> S -> S) (m : M T A) : M S A :=
  fun s => let '(r, t') := m (get s) in (r, set t' s).

Definition in_store {A} (m : M world A) : M process A :=
  zoom store (fun w => with_store (fun _ => w)) m.

(* ===================================================================== *)
(** ** core/load_balancer.py: LoadBalancer *)
(* ===================================================================== *)

Module LoadBalancer.

Definition _is_agent_available (agent : AgentInfo) : M world bool :=
  if negb (healthy agent) then ret false
  else
    current_time <~ time_time ;;
    if Qltb 30 (current_time - last_heartbeat agent)%Q then ret false
    else if (max_concurrent_tasks agent <=? current_tasks agent)%Z then ret false
    else ret true.

(** [ [agent for agent in agents if self._is_agent_available(agent)] ] *)
Definition filter_available (agents : list AgentInfo) : M world (list AgentInfo) :=
  fold_m (fun acc agent =>
            ok <~ _is_agent_available agent ;;
            if ok : bool then ret (acc ++ [agent])%list else ret acc)
         agents [].

Definition _select_least_loaded (agents : list AgentInfo) : M process AgentInfo :=
  let sorted_agents :=
    sorted_by (fun a b => (current_tasks a <=? current_tasks b)%Z) agents in
  match sorted_agents with
  | selected :: _ => ret selected
  | [] => raise (Exn IndexError "list index out of range")
  end.

Definition _select_round_robin (agent_type : string) (agents : list AgentInfo)
  : M process AgentInfo :=
  counters <~ gets round_robin_counters ;;
  (match counters !! agent_type with
   | None => modify (with_round_robin_counters (insert agent_type 0))
   | Some _ => ret tt
   end) ;;;
  counter <~ gets (fun p => default 0 (round_robin_counters p !! agent_type)) ;;
  match agents with
  | [] => raise (Exn ZeroDivisionError "integer division or modulo by zero")
  | _ =>
      let index := counter mod Z.of_nat (length agents) in
      modify (with_round_robin_counters (insert agent_type (counter + 1))) ;;;
      match agents !! Z.to_nat index with
      | Some selected => ret selected
      | None => raise (Exn IndexError "list index out of range")
      end
  end.

Definition weighted_score (agent : AgentInfo) : Q :=
  let available_capacity := max_concurrent_tasks agent - current_tasks agent in
  let utilization :=
    if (0 <? max_concurrent_tasks agent)%Z
    then (inject_Z (current_tasks agent) / inject_Z (max_concurrent_tasks agent))%Q
    else 1%Q in
  (inject_Z available_capacity * (1 - utilization))%Q.

Definition _select_weighted (agents : list AgentInfo) : M process AgentInfo :=
  let scores := map (fun agent => (weighted_score agent, agent)) agents in
  (* scores.sort(reverse=True, key=lambda x: x[0]) *)
  let scores := sorted_by (fun x y : Q * AgentInfo => Qle_bool y.1 x.1) scores in
  match scores with
  | (_, selected) :: _ => ret selected
  | [] => raise (Exn IndexError "list index out of range")
  end.

(** [random.choice(agents)]: the index comes from [random_source]. *)
Definition _select_random (agents : list AgentInfo) : M process AgentInfo :=
  src <~ gets random_source ;;
  modify (with_random_source (drop 1)) ;;;
  match agents with
  | [] => raise (Exn IndexError "Cannot choose from an empty sequence")
  | _ =>
      match agents !! (default O (head src) mod length agents)%nat with
      | Some selected => ret selected
      | None => raise (Exn IndexError "list index out of range")
      end
  end.

Definition select_agent (agent_type : string) : M process (option AgentInfo) :=
  try_except
    (agents <~ in_store (RedisStateManager.get_agents_by_type agent_type) ;;
     match agents with
     | [] => ret None
     | _ =>
         available_agents <~ in_store (filter_available agents) ;;
         match available_agents with
         | [] => ret None
         | _ =>
             strat <~ gets strategy ;;
             selected <~ match strat with
                         | LEAST_LOADED => _select_least_loaded available_agents
                         | ROUND_ROBIN => _select_round_robin agent_type available_agents
                         | WEIGHTED => _select_weighted available_agents
                         | RANDOM => _select_random available_agents
                         end ;;
             ret (Some selected)
         end
     end)
    (fun _ => ret None).

Definition report_agent_failure (agent_id : string) (error : string) : M world unit :=
  agent <~ RedisStateManager.get_agent agent_id ;;
  match agent with
  | Some agent => RedisStateManager.register_agent (set_healthy false agent) ;;; ret tt
  | None => ret tt
  end.

Definition report_agent_success (agent_id : string) : M world unit :=
  agent <~ RedisStateManager.get_agent agent_id ;;
  match agent with
  | Some agent =>
      if negb (healthy agent)
      then RedisStateManager.register_agent (set_healthy true agent) ;;; ret tt
      else ret tt
  | None => ret tt
  end.

Record agent_stats : Type := mkAgentStats {
  stats_agent_type : string;
  total_agents : nat;
  healthy_agents : nat;
  total_capacity : Z;
  current_load : Z;
  utilization : Q
}.

Definition get_agent_stats (agent_type : string) : M world agent_stats :=
  agents <~ RedisStateManager.get_agents_by_type agent_type ;;
  let total_agents := length agents in
  let healthy_agents := length (List.filter healthy agents) in
  let total_capacity := foldr Z.add 0 (map max_concurrent_tasks agents) in
  let current_load := foldr Z.add 0 (map current_tasks agents) in
  ret (mkAgentStats agent_type total_agents healthy_agents total_capacity current_load
         (if (0 <? total_capacity)%Z
          then (inject_Z current_load / inject_Z total_capacity)%Q
          else 0%Q)).

End LoadBalancer.

(* ===================================================================== *)
(** ** core/execution_engine.py: ExecutionEngine *)
(* ===================================================================== *)

(** What a worker call does, seen from the caller: it takes some time and
    then returns an output or raises. *)
Record rpc_reply : Type := mkReply {
  reply_elapsed : Q;
  reply_result : result json
}.

(** One entry of an execution plan: the dict built by
    [Orchestrator._build_execution_plan], which always has these five keys. *)
Record plan_entry : Type := mkPlan {
  plan_agent_id : string;
  plan_agent_type : string;
  plan_endpoint : string;
  plan_inputs : json;
  plan_parameters : json
}.

Definition set_plan_inputs (v : json) (p : plan_entry) : plan_entry :=
  mkPlan (plan_agent_id p) (plan_agent_type p) (plan_endpoint p) v (plan_parameters p).

Record AgentTaskResult : Type := mkResult {
  res_agent_id : string;
  res_agent_type : string;
  res_status : string;
  res_output : option json;
  res_error : option string;
  res_execution_time_ms : Q
}.

(** Turn a raised exception into a value, as [gather(return_exceptions=True)]
    does for each awaitable. *)
Definition attempt {S A} (m : M S A) : M S (result A) :=
  fun s => let '(r, s') := m s in (Ok r, s').

Definition reraise {S A} (r : result A) : M S A :=
  match r with Ok a => ret a | Raise e => raise e end.

Definition set_clock (t : Q) : M world unit := modify (with_now (fun _ => t)).

Definition opt_json (o : option json) : json :=
  match o with Some v => v | None => JNull end.

Definition opt_str (o : option string) : json :=
  match o with Some s => JStr s | None => JNull end.

(** The body the source ships for [_call_agent_grpc]: 0.1 s of simulated
    latency, then mock data chosen by the agent type.  [t] is the clock
    reading at the call. *)
Definition simulated_rpc (endpoint task_id agent_type : string)
    (inputs parameters : json) (t : Q) : rpc_reply :=
  let t' := (t + (1 # 10))%Q in
  mkReply (1 # 10) (Ok (
    if String.eqb agent_type "data_ingest" then
      JDict [("type", JStr "ingested_data");
             ("data", JDict [("records", JInt 1000); ("format", JStr "json")]);
             ("metadata", JDict [("source", JStr "uploaded_files")])]
    else if String.eqb agent_type "data_analysis" then
      JDict [("type", JStr "analysis_result");
             ("data", JDict [
                ("summary_stats", JDict [("mean", JNum (85 # 2)); ("median", JNum 40)]);
                ("insights", JList [JStr "Trend increasing"; JStr "Outliers detected"])])]
    else if String.eqb agent_type "synthesis" then
      JDict [("type", JStr "json_report");
             ("data", JDict [
                ("title", JStr "Data Analysis Report");
                ("summary", JStr "Analysis completed successfully");
                ("findings", JList [JStr "Finding 1"; JStr "Finding 2"]);
                ("recommendations", JList [JStr "Recommendation 1"])])]
    else if String.eqb agent_type "video_detection" then
      JDict [("type", JStr "detections");
             ("data", JDict [
                ("objects_detected", JList [JStr "person"; JStr "vehicle"]);
                ("confidence", JNum (95 # 100));
                ("timestamp", JNum t')])]
    else if String.eqb agent_type "alerting" then
      JDict [("type", JStr "alert");
             ("data", JDict [
                ("alert_id", JStr ("alert_" ++ task_id));
                ("severity", JStr "high");
                ("message", JStr "Anomaly detected");
                ("timestamp", JNum t')])]
    else
      JDict [("type", JStr "generic"); ("data", JDict [("status", JStr "completed")])])).

Module ExecutionEngine.


Section Engine.

(** The worker call.  The source's own body is [simulated_rpc]; a deployed
    engine makes a real call here, which may fail and may take long. *)
Variable rpc : string -> string -> string -> json -> json -> Q -> rpc_reply.

Definition _call_agent_grpc (endpoint task_id agent_type : string)
    (inputs parameters : json) : M world json :=
  try_except
    (t <~ time_time ;;
     let reply := rpc endpoint task_id agent_type inputs parameters t in
     sleep (reply_elapsed reply) ;;;
     reraise (reply_result reply))
    (fun e => raise e).

Definition _execute_agent_task (task_id : string) (agent_plan : plan_entry)
  : M world AgentTaskResult :=
  let agent_id := plan_agent_id agent_plan in
  let agent_type := plan_agent_type agent_plan in
  let endpoint := plan_endpoint agent_plan in
  start_time <~ time_time ;;
  try_except
    (RedisStateManager.increment_agent_tasks agent_id 1 ;;;
     output <~ _call_agent_grpc endpoint task_id agent_type
                 (plan_inputs agent_plan) (plan_parameters agent_plan) ;;
     t <~ time_time ;;
     let execution_time := ((t - start_time) * 1000)%Q in
     RedisStateManager.increment_agent_tasks agent_id (-1) ;;;
     ret (mkResult agent_id agent_type "completed" (Some output) None execution_time))
    (fun e =>
     t <~ time_time ;;
     let execution_time := ((t - start_time) * 1000)%Q in
     RedisStateManager.increment_agent_tasks agent_id (-1) ;;;
     ret (mkResult agent_id agent_type "failed" None (Some (str_of_exn e)) execution_time)).

(** *** [asyncio.gather] over the stages

    Each coroutine [_execute_agent_task] runs up to its first suspension,
    the worker call ([agent_task_begin]); when the reply is there it runs
    to its end ([agent_task_end]).  [gather] starts the coroutines in plan
    order at the same clock reading and resumes each when its reply
    arrives, so in the order of the replies' delays. *)
Definition agent_task_begin (task_id : string) (agent_plan : plan_entry)
  : M world (Q * rpc_reply) :=
  start_time <~ time_time ;;
  RedisStateManager.increment_agent_tasks (plan_agent_id agent_plan) 1 ;;;
  ret (start_time,
       rpc (plan_endpoint agent_plan) task_id (plan_agent_type agent_plan)
         (plan_inputs agent_plan) (plan_parameters agent_plan) start_time).

Definition agent_task_end (agent_plan : plan_entry) (start_time : Q) (reply : rpc_reply)
  : M world AgentTaskResult :=
  let agent_id := plan_agent_id agent_plan in
  let agent_type := plan_agent_type agent_plan in
  t <~ time_time ;;
  let execution_time := ((t - start_time) * 1000)%Q in
  RedisStateManager.increment_agent_tasks agent_id (-1) ;;;
  match reply_result reply with
  | Ok output =>
      ret (mkResult agent_id agent_type "completed" (Some output) None execution_time)
  | Raise e =>
      ret (mkResult agent_id agent_type "failed" None (Some (str_of_exn e)) execution_time)
  end.

Definition started : Type := nat * plan_entry * result (Q * rpc_reply).

Definition started_delay (s : started) : Q :=
  match s.2 with Ok (_, reply) => reply_elapsed reply | Raise _ => 0%Q end.

Definition gather_begin (task_id : string) (acc : list started)
    (x : nat * plan_entry) : M world (list started) :=
  r <~ attempt (agent_task_begin task_id x.2) ;;
  ret (acc ++ [(x.1, x.2, r)])%list.

Definition gather_end (t0 : Q) (acc : list (nat * result AgentTaskResult))
    (s : started) : M world (list (nat * result AgentTaskResult)) :=
  match s with
  | (i, agent_plan, Ok (start_time, reply)) =>
      set_clock (t0 + reply_elapsed reply)%Q ;;;
      r <~ attempt (agent_task_end agent_plan start_time reply) ;;
      ret (acc ++ [(i, r)])%list
  | (i, _, Raise e) => ret (acc ++ [(i, Raise e)])%list
  end.

Definition gather_agent_tasks (task_id : string) (execution_plan : list plan_entry)
  : M world (list (result AgentTaskResult)) :=
  t0 <~ time_time ;;
  begun <~ fold_m (gather_begin task_id) (imap pair execution_plan) [] ;;
  let by_arrival := sorted_by (fun a b => Qle_bool (started_delay a) (started_delay b)) begun in
  ended <~ fold_m (gather_end t0) by_arrival [] ;;
  ret (map snd (sorted_by (fun a b : nat * result AgentTaskResult => (a.1 <=? b.1)%nat) ended)).

Definition execution_record (r : AgentTaskResult) : json :=
  JDict [("agent_id", JStr (res_agent_id r));
         ("agent_type", JStr (res_agent_type r));
         ("status", JStr (res_status r));
         ("execution_time_ms", JNum (res_execution_time_ms r));
         ("error", opt_str (res_error r))].

Definition failed_record (agent_id error : string) : json :=
  JDict [("agent_id", JStr agent_id); ("error", JStr error)].

(** The loop [for i, result in enumerate(results)] of [execute_parallel]. *)
Definition parallel_collect (task_id : string)
    (acc : list AgentTaskResult * list (string * string))
    (x : plan_entry * result AgentTaskResult)
  : M world (list AgentTaskResult * list (string * string)) :=
  let '(successful_results, failed_results) := acc in
  match x.2 with
  | Raise e =>
      ret (successful_results,
           (failed_results ++ [(plan_agent_id x.1, str_of_exn e)])%list)
  | Ok result =>
      RedisStateManager.add_agent_execution task_id (execution_record result) ;;;
      ret ((successful_results ++ [result])%list, failed_results)
  end.

(** [str(failed_results)], the text of the list of dicts. *)
Definition repr_failed (failed_results : list (string * string)) : string :=
  "[" ++ join ", " (map (fun f => "{'agent_id': '" ++ f.1 ++ "', 'error': '" ++ f.2 ++ "'}")
                        failed_results) ++ "]".

Definition outputs_of (rs : list AgentTaskResult) : list json :=
  omap (fun r => if opt_truthy (res_output r) then res_output r else None) rs.

Definition execute_parallel (task_id : string) (execution_plan : list plan_entry)
    (task_state : TaskState) : M world json :=
  start_time <~ time_time ;;
  results <~ gather_agent_tasks task_id execution_plan ;;
  acc <~ fold_m (parallel_collect task_id) (zip execution_plan results) ([], []) ;;
  let '(successful_results, failed_results) := acc in
  t <~ time_time ;;
  let execution_time := ((t - start_time) * 1000)%Q in
  if negb (Nat.eqb (length failed_results) 0)
     && Nat.eqb (length failed_results) (length execution_plan)
  then raise (Exn RuntimeError ("All agents failed: " ++ repr_failed failed_results))
  else
    ret (JDict [
      ("execution_mode", JStr "parallel");
      ("execution_time_ms", JNum execution_time);
      ("successful_agents", JInt (Z.of_nat (length successful_results)));
      ("failed_agents", JInt (Z.of_nat (length failed_results)));
      ("results", JList (outputs_of successful_results));
      ("errors", JList (map (fun f => failed_record f.1 f.2) failed_results))]).

(** The body of the loop of [execute_sequential] for one stage.  It gives
    the extended [results] and whether the loop goes on ([false] after a
    [break]). *)
Definition sequential_step (task_id : string) (agent_plan : plan_entry)
    (results : list AgentTaskResult) : M world (list AgentTaskResult * bool) :=
  let agent_plan :=
    match last results with
    | Some prev => set_plan_inputs (opt_json (res_output prev)) agent_plan
    | None => agent_plan
    end in
  let on_error (results : list AgentTaskResult) (e : exn) :=
    (results ++ [mkResult (plan_agent_id agent_plan) (plan_agent_type agent_plan)
                   "failed" None (Some (str_of_exn e)) 0%Q])%list in
  r <~ attempt (_execute_agent_task task_id agent_plan) ;;
  match r with
  | Raise e => ret (on_error results e, false)
  | Ok result =>
      let results := (results ++ [result])%list in
      r' <~ attempt (RedisStateManager.add_agent_execution task_id (execution_record result)) ;;
      match r' with
      | Raise e => ret (on_error results e, false)
      | Ok _ =>
          if String.eqb (res_status result) "failed"
          then ret (results, false)
          else ret (results, true)
      end
  end.

Fixpoint sequential_loop (task_id : string) (execution_plan : list plan_entry)
    (results : list AgentTaskResult) : M world (list AgentTaskResult) :=
  match execution_plan with
  | [] => ret results
  | agent_plan :: rest =>
      step <~ sequential_step task_id agent_plan results ;;
      if step.2 : bool
      then sequential_loop task_id rest step.1
      else ret step.1
  end.

Definition pipeline_record (r : AgentTaskResult) : json :=
  JDict [("agent_type", JStr (res_agent_type r));
         ("status", JStr (res_status r));
         ("execution_time_ms", JNum (res_execution_time_ms r))].

Definition execute_sequential (task_id : string) (execution_plan : list plan_entry)
    (task_state : TaskState) : M world json :=
  start_time <~ time_time ;;
  results <~ sequential_loop task_id execution_plan [] ;;
  t <~ time_time ;;
  let execution_time := ((t - start_time) * 1000)%Q in
  let final_output := head (outputs_of (reverse results)) in
  ret (JDict [
    ("execution_mode", JStr "sequential");
    ("execution_time_ms", JNum execution_time);
    ("agents_executed", JInt (Z.of_nat (length results)));
    ("pipeline_successful",
       JBool (forallb (fun r => String.eqb (res_status r) "completed") results));
    ("final_output", opt_json final_output);
    ("pipeline_results", JList (map pipeline_record results))]).

Definition on_world {L A} (m : M world A) : M (L * world) A :=
  zoom snd (fun w s => (s.1, w)) m.

(** [execute_hybrid] assigns to [task_state.metadata], an object it shares
    with its caller, so the task state is part of the state here. *)
Definition execute_hybrid (task_id : string) (execution_plan : list plan_entry)
  : M (TaskState * world) json :=
  start_time <~ on_world time_time ;;
  let n := length execution_plan in
  let mid_point := if (1 <? n)%nat then (n / 2)%nat else 1%nat in
  let stage1_plan := take mid_point execution_plan in
  let stage2_plan := drop mid_point execution_plan in
  task_state <~ gets fst ;;
  stage1_results <~ on_world (execute_parallel task_id stage1_plan task_state) ;;
  stage2_results <~
    match stage2_plan with
    | [] => ret (JDict [("final_output", stage1_results)])
    | _ =>
        modify (fun s : TaskState * world =>
          (set_metadata
             (dict_set "inputs" (json_get_default "results" (JList []) stage1_results)
                (metadata s.1)) s.1,
           s.2)) ;;;
        task_state <~ gets fst ;;
        on_world (execute_sequential task_id stage2_plan task_state)
    end ;;
  t <~ on_world time_time ;;
  let execution_time := ((t - start_time) * 1000)%Q in
  ret (JDict [
    ("execution_mode", JStr "hybrid");
    ("execution_time_ms", JNum execution_time);
    ("stage1_results", stage1_results);
    ("stage2_results", stage2_results);
    ("final_output", json_get_default "final_output" JNull stage2_results)]).

End Engine.
End ExecutionEngine.

(* ===================================================================== *)
(** ** core/orchestrator.py: Orchestrator *)
(* ===================================================================== *)

Module Orchestrator.

Inductive ExecutionMode : Type := PARALLEL | SEQUENTIAL | HYBRID.

Record TaskDefinition : Type := mkTaskDefinition {
  def_task_id : string;
  def_task_type : string;
  def_inputs : list json;
  def_execution_mode : ExecutionMode;
  def_priority : Z;
  def_timeout_ms : Z;
  def_metadata : list (string * json)
}.

(** [self.task_agent_mapping] *)
Definition task_agent_mapping : list (string * list string) :=
  [("report_generation", ["data_ingest"; "data_analysis"; "synthesis"]);
   ("real_time_monitoring", ["video_detection"; "alerting"]);
   ("data_analysis", ["data_analysis"]);
   ("api_call", ["api_caller"]);
   ("podcast_intelligence",
      ["rss_feed_monitor"; "podcast_transcript"; "transcript_summary"; "industry_synthesis"]);
   ("document_intelligence", ["document_reader"; "transcript_summary"; "industry_synthesis"]);
   ("content_summarization", ["transcript_summary"]);
   ("industry_synthesis_only", ["industry_synthesis"])].

(** [self.task_agent_mapping.get(task_type, [])] *)
Fixpoint mapping_get (task_type : string) (m : list (string * list string)) : list string :=
  match m with
  | [] => []
  | (k, v) :: rest => if String.eqb task_type k then v else mapping_get task_type rest
  end.

Definition is_terminal (s : TaskStatus) : bool :=
  match s with
  | COMPLETED | FAILED | CANCELLED => true
  | _ => false
  end.

Definition metric_increment (name : string) : M process unit :=
  modify (with_metrics_collector (MetricsCollector.increment name 1 [])).

Definition metric_record (name : string) (v : Q) : M process unit :=
  t <~ in_store time_time ;;
  modify (with_metrics_collector (MetricsCollector.record name v [] t)).

Definition _estimate_completion_time (task_def : TaskDefinition) : Z :=
  let base_time := 1000%Q in
  let ty := def_task_type task_def in
  let multiplier :=
    if String.eqb ty "report_generation" then 3%Q
    else if String.eqb ty "real_time_monitoring" then (1 # 2)%Q
    else if String.eqb ty "data_analysis" then 2%Q
    else if String.eqb ty "api_call" then (3 # 10)%Q
    else 1%Q in
  let x := (base_time * multiplier)%Q in
  Z.quot (Qnum x) (Z.pos (Qden x)).

Definition submit_task (task_def : TaskDefinition) : M process json :=
  start_time <~ in_store time_time ;;
  try_except
    (let task_state :=
       mkTaskState (def_task_id task_def) QUEUED (def_task_type task_def)
         start_time start_time [] (def_metadata task_def) None None 0
         (def_priority task_def) in
     success <~ in_store (RedisStateManager.create_task task_state) ;;
     if negb success then
       ret (JDict [("task_id", JStr (def_task_id task_def));
                   ("status", JStr "failed");
                   ("message", JStr "Failed to create task");
                   ("error", JStr "State management error")])
     else
       metric_increment "tasks_submitted" ;;;
       metric_increment ("tasks_submitted_" ++ def_task_type task_def) ;;;
       ret (JDict [("task_id", JStr (def_task_id task_def));
                   ("status", JStr "queued");
                   ("message", JStr "Task submitted successfully");
                   ("estimated_completion_ms", JInt (_estimate_completion_time task_def))]))
    (fun e =>
     metric_increment "tasks_submit_failed" ;;;
     ret (JDict [("task_id", JStr (def_task_id task_def));
                 ("status", JStr "failed");
                 ("message", JStr (str_of_exn e));
                 ("error", JStr "Submission error")])).

Definition cancel_task (task_id reason : string) : M process bool :=
  try_except
    (task_state <~ in_store (RedisStateManager.get_task task_id) ;;
     match task_state with
     | None => ret false
     | Some task_state =>
         if is_terminal (status task_state) then ret false
         else
           success <~ in_store (RedisStateManager.update_task_status task_id CANCELLED
                        (Some (JDict [("message", JStr ("Cancelled: " ++ reason));
                                      ("code", JStr "CANCELLED")]))
                        None) ;;
           (if success : bool then metric_increment "tasks_cancelled" else ret tt) ;;;
           ret success
     end)
    (fun _ => ret false).

Definition _build_execution_plan (task_state : TaskState) (required_agents : list string)
  : M process (list plan_entry) :=
  fold_m (fun plan agent_type =>
            agent <~ LoadBalancer.select_agent agent_type ;;
            match agent with
            | None =>
                raise (Exn RuntimeError ("No available agents for type: " ++ agent_type))
            | Some agent =>
                ret (plan ++ [mkPlan (agent_id agent) agent_type (endpoint agent)
                                (dict_get_default "inputs" (JList []) (metadata task_state))
                                (dict_get_default "parameters" (JDict [])
                                   (metadata task_state))])%list
            end)
         required_agents [].

Definition json_is_str (v : json) (s : string) : bool :=
  match v with JStr s' => String.eqb s' s | _ => false end.

(** The local variable [task_state] of [_execute_task] is an object that
    the engine and the failure handler update in place; it is the first
    component of the state. *)
Definition on_process {A} (m : M process A) : M (TaskState * process) A :=
  zoom snd (fun p s => (s.1, p)) m.

Definition on_task_and_store {A} (m : M (TaskState * world) A) : M (TaskState * process) A :=
  zoom (fun s : TaskState * process => (s.1, store s.2))
       (fun tw s => (tw.1, with_store (fun _ => tw.2) s.2)) m.

Definition with_local {S L A} (l : L) (m : M (L * S) A) : M S A :=
  fun s => let '(r, ls) := m (l, s) in (r, ls.2).

Section Execute.

Variable rpc : string -> string -> string -> json -> json -> Q -> rpc_reply.

Definition execute_task_try (task_id : string) (start_time : Q)
  : M (TaskState * process) unit :=
  on_process (in_store (RedisStateManager.update_task_status task_id RUNNING None None)) ;;;
  on_process (metric_increment "tasks_running") ;;;
  task_state <~ gets fst ;;
  let required_agents := mapping_get (task_type task_state) task_agent_mapping in
  (match required_agents with
   | [] => raise (Exn ValueError ("Unknown task type: " ++ task_type task_state))
   | _ => ret tt
   end) ;;;
  execution_plan <~ on_process (_build_execution_plan task_state required_agents) ;;
  let execution_mode :=
    dict_get_default "execution_mode" (JStr "sequential") (metadata task_state) in
  result <~
    (if json_is_str execution_mode "parallel" then
       on_process (in_store
         (ExecutionEngine.execute_parallel rpc task_id execution_plan task_state))
     else if json_is_str execution_mode "sequential" then
       on_process (in_store
         (ExecutionEngine.execute_sequential rpc task_id execution_plan task_state))
     else
       on_task_and_store (ExecutionEngine.execute_hybrid rpc task_id execution_plan)) ;;
  t <~ on_process (in_store time_time) ;;
  let execution_time := ((t - start_time) * 1000)%Q in
  on_process (in_store
    (RedisStateManager.update_task_status task_id COMPLETED None (Some result))) ;;;
  on_process (metric_increment "tasks_completed") ;;;
  on_process (metric_record "task_execution_time_ms" execution_time) ;;;
  if Qltb execution_time 500 then on_process (metric_increment "tasks_under_500ms")
  else ret tt.

Definition execute_task_except (task_id : string) (e : exn)
  : M (TaskState * process) unit :=
  task_state <~ gets fst ;;
  if (retry_count task_state <? 3)%Z then
    modify (fun s : TaskState * process =>
              (set_retry_count (retry_count s.1 + 1) s.1, s.2)) ;;;
    on_process (in_store
      (RedisStateManager.update_task_status task_id RETRYING None None)) ;;;
    task_state <~ gets fst ;;
    on_process (in_store (sleep (2 ^ retry_count task_state)%Q)) ;;;
    on_process (in_store (RedisStateManager.create_task task_state)) ;;;
    on_process (metric_increment "tasks_retried")
  else
    on_process (in_store
      (RedisStateManager.update_task_status task_id FAILED
         (Some (JDict [("message", JStr (str_of_exn e));
                       ("code", JStr "EXECUTION_FAILED");
                       ("retryable", JBool false)]))
         None)) ;;;
    on_process (metric_increment "tasks_failed").

Definition _execute_task (task_id : string) : M process unit :=
  start_time <~ in_store time_time ;;
  task_state <~ in_store (RedisStateManager.get_task task_id) ;;
  match task_state with
  | None => ret tt
  | Some task_state =>
      with_local task_state
        (try_finally
           (try_except (execute_task_try task_id start_time)
                       (execute_task_except task_id))
           (modify (fun s : TaskState * process =>
                      (s.1, with_task_processors (fun tp => tp ∖ {[task_id]}) s.2))))
  end.

End Execute.

(** One pass of the loop of [_process_task_queues] over the task types.
    [asyncio.create_task(self._execute_task(task_id))] schedules the
    execution; the scheduled ids are those put into [task_processors]. *)
Definition drain_task_type (task_type : string) : M process unit :=
  queue_length <~ in_store (RedisStateManager.get_queue_length task_type) ;;
  if (0 <? queue_length)%Z then
    task_id <~ in_store (RedisStateManager.get_next_task task_type) ;;
    match task_id with
    | Some task_id =>
        if negb (String.eqb task_id "")
        then modify (with_task_processors (fun tp => {[task_id]} ∪ tp))
        else ret tt
    | None => ret tt
    end
  else ret tt.

Definition process_task_queues_once : M process unit :=
  try_except
    (for_each (map fst task_agent_mapping) drain_task_type ;;;
     in_store (sleep (1 # 10)))
    (fun _ => in_store (sleep 1)).

(** [get_stats], without the constants [running] and [max_workers]: the
    number of active tasks and the metrics.  The calling thread holds no
    lock. *)
Definition get_stats (p : process)
  : MetricsCollector.outcome (nat * MetricsCollector.all_metrics) :=
  let active_tasks := size (task_processors p) in
  MetricsCollector.outcome_bind
    (MetricsCollector.get_all_metrics false (now (store p)) (metrics p))
    (fun m => MetricsCollector.Returns (active_tasks, m)).

End Orchestrator.

(* ===================================================================== *)
(** ** agents/base_agent.py: BaseAgent *)
(* ===================================================================== *)

Module BaseAgent.

Record AgentInput : Type := mkInput {
  input_id : string;
  input_type : string;
  data : json;              (* [None] is [JNull] *)
  metadata : json
}.

Record AgentOutput : Type := mkOutput {
  output_type : string;
  output_data : json;
  output_metadata : json;
  processing_time_ms : Q
}.

(** What the abstract method [process] does: it takes some time, then
    returns an output or raises. *)
Record process_reply : Type := mkProcessReply {
  process_elapsed : Q;
  process_result : result AgentOutput
}.

(** The fields of an agent object, the value of its semaphore and the
    clock of its process. *)
Record t : Type := mkAgent {
  agent_id : string;
  agent_type : string;
  max_concurrent_tasks : Z;
  current_tasks : Z;
  total_completed : Z;
  total_failed : Z;
  healthy : bool;
  start_time : Q;
  _task_semaphore : Z;
  clock : Q
}.

(** [__init__], at clock reading [now]. *)
Definition init (agent_id agent_type : string) (max_concurrent_tasks : Z) (now : Q) : t :=
  mkAgent agent_id agent_type max_concurrent_tasks 0 0 0 true now max_concurrent_tasks now.

Definition with_current_tasks (f : Z -> Z) (a : t) : t :=
  mkAgent (agent_id a) (agent_type a) (max_concurrent_tasks a) (f (current_tasks a))
    (total_completed a) (total_failed a) (healthy a) (start_time a) (_task_semaphore a)
    (clock a).

Definition with_total_completed (f : Z -> Z) (a : t) : t :=
  mkAgent (agent_id a) (agent_type a) (max_concurrent_tasks a) (current_tasks a)
    (f (total_completed a)) (total_failed a) (healthy a) (start_time a) (_task_semaphore a)
    (clock a).

Definition with_total_failed (f : Z -> Z) (a : t) : t :=
  mkAgent (agent_id a) (agent_type a) (max_concurrent_tasks a) (current_tasks a)
    (total_completed a) (f (total_failed a)) (healthy a) (start_time a) (_task_semaphore a)
    (clock a).

Definition with_healthy (b : bool) (a : t) : t :=
  mkAgent (agent_id a) (agent_type a) (max_concurrent_tasks a) (current_tasks a)
    (total_completed a) (total_failed a) b (start_time a) (_task_semaphore a) (clock a).

Definition with_semaphore (f : Z -> Z) (a : t) : t :=
  mkAgent (agent_id a) (agent_type a) (max_concurrent_tasks a) (current_tasks a)
    (total_completed a) (total_failed a) (healthy a) (start_time a) (f (_task_semaphore a))
    (clock a).

Definition with_clock (f : Q -> Q) (a : t) : t :=
  mkAgent (agent_id a) (agent_type a) (max_concurrent_tasks a) (current_tasks a)
    (total_completed a) (total_failed a) (healthy a) (start_time a) (_task_semaphore a)
    (f (clock a)).

(** [type(e).__name__] *)
Definition exn_class_name (c : exn_class) : string :=
  match c with
  | ConnectionError => "ConnectionError"
  | TimeoutError => "TimeoutError"
  | ResponseError => "ResponseError"
  | LockError => "LockError"
  | ValueError => "ValueError"
  | RuntimeError => "RuntimeError"
  | TypeError => "TypeError"
  | KeyError => "KeyError"
  | IndexError => "IndexError"
  | ZeroDivisionError => "ZeroDivisionError"
  end.

Definition is_null (v : json) : bool :=
  match v with JNull => true | _ => false end.

Definition _validate_inputs (inputs : list AgentInput) : M t unit :=
  match inputs with
  | [] => raise (Exn ValueError "No inputs provided")
  | _ =>
      for_each inputs (fun inp =>
        if String.eqb (input_type inp) "" then raise (Exn ValueError "Input type is required")
        else if is_null (data inp) then raise (Exn ValueError "Input data is required")
        else ret tt)
  end.

Section Agent.

Variable process : list AgentInput -> json -> Q -> process_reply.

(** [await self.process(inputs, parameters)] *)
Definition await_process (inputs : list AgentInput) (parameters : json) : M t AgentOutput :=
  now <~ gets clock ;;
  let reply := process inputs parameters now in
  modify (with_clock (fun c => (c + process_elapsed reply)%Q)) ;;;
  reraise (process_result reply).

(** The block under [async with self._task_semaphore]. *)
Definition execute_admitted (task_id : string) (inputs : list AgentInput)
    (parameters : json) (start_time : Q) : M t json :=
  modify (with_current_tasks (fun n => n + 1)) ;;;
  try_finally
    (try_except
       (_validate_inputs inputs ;;;
        output <~ await_process inputs parameters ;;
        modify (with_total_completed (fun n => n + 1)) ;;;
        now <~ gets clock ;;
        let processing_time := ((now - start_time) * 1000)%Q in
        ret (JDict [
          ("status", JStr "completed");
          ("output", JDict [("type", JStr (output_type output));
                            ("data", output_data output);
                            ("metadata", output_metadata output)]);
          ("execution_time_ms", JNum processing_time);
          ("error", JNull)]))
       (fun e =>
        modify (with_total_failed (fun n => n + 1)) ;;;
        now <~ gets clock ;;
        let processing_time := ((now - start_time) * 1000)%Q in
        ret (JDict [
          ("status", JStr "failed");
          ("output", JNull);
          ("execution_time_ms", JNum processing_time);
          ("error", JDict [("message", JStr (str_of_exn e));
                           ("type", JStr (exn_class_name (exn_cls e)))])])))
    (modify (with_current_tasks (fun n => n - 1))).

(** [execute].  The result is [None] when the call has to wait at the
    semaphore, that is when [max_concurrent_tasks] calls are inside. *)
Definition execute (task_id : string) (inputs : list AgentInput) (parameters : json)
  : M t (option json) :=
  start_time <~ gets clock ;;
  sem <~ gets _task_semaphore ;;
  if (sem <=? 0)%Z then ret None
  else
    modify (with_semaphore (fun n => n - 1)) ;;;
    r <~ try_finally
           (execute_admitted task_id inputs parameters start_time)
           (modify (with_semaphore (fun n => n + 1))) ;;
    ret (Some r).

End Agent.

Definition get_health (a : t) : json :=
  let uptime := (clock a - start_time a)%Q in
  let done := total_completed a + total_failed a in
  JDict [
    ("agent_id", JStr (agent_id a));
    ("agent_type", JStr (agent_type a));
    ("healthy", JBool (healthy a));
    ("current_tasks", JInt (current_tasks a));
    ("total_completed", JInt (total_completed a));
    ("total_failed", JInt (total_failed a));
    ("max_concurrent_tasks", JInt (max_concurrent_tasks a));
    ("uptime_seconds", JNum uptime);
    ("success_rate",
       JNum (if (0 <? done)%Z then (inject_Z (total_completed a) / inject_Z done)%Q
             else 1%Q))].

Definition get_capabilities (a : t) : list string := [agent_type a].

(** The loop [while self.current_tasks > 0: await asyncio.sleep(0.1)], run
    for at most [polls] sleeps; [true] when the loop has ended. *)
Fixpoint shutdown_wait (polls : nat) : M t bool :=
  n <~ gets current_tasks ;;
  if (0 <? n)%Z then
    match polls with
    | O => ret false
    | S k => modify (with_clock (fun c => (c + (1 # 10))%Q)) ;;; shutdown_wait k
    end
  else ret true.

Definition shutdown (polls : nat) : M t bool :=
  modify (with_healthy false) ;;;
  shutdown_wait polls.

End BaseAgent.

(* ===================================================================== *)
(** ** main_agent.py: the heartbeat of a worker process *)
(* ===================================================================== *)

Module MainAgent.

(** One pass of the loop of [send_heartbeat]. *)
Definition send_heartbeat_once (agent_id : string) : M world unit :=
  try_except
    (RedisStateManager.update_agent_heartbeat agent_id ;;;
     sleep 10)
    (fun _ => sleep 10).

Fixpoint send_heartbeat (passes : nat) (agent_id : string) : M world unit :=
  match passes with
  | O => ret tt
  | S k => send_heartbeat_once agent_id ;;; send_heartbeat k agent_id
  end.

End MainAgent.

(* ===================================================================== *)
(** ** agents/api_caller_agent.py: the circuit breaker *)
(* ===================================================================== *)

Module APICallerAgent.

(** [self.failed_endpoints[endpoint]], a dict with these two keys. *)
Record failure_data : Type := mkFailure { count : Z; last_failure : Q }.

(** The fields the circuit breaker uses, and the clock.  Endpoints are
    strings. *)
Record t : Type := mkState {
  circuit_breaker_threshold : Z;
  circuit_breaker_timeout : Q;
  failed_endpoints : gmap string failure_data;
  clock : Q
}.

(** [__init__] *)
Definition init (now : Q) : t := mkState 5 60 ∅ now.

Definition with_failed_endpoints
    (f : gmap string failure_data -> gmap string failure_data) (a : t) : t :=
  mkState (circuit_breaker_threshold a) (circuit_breaker_timeout a)
    (f (failed_endpoints a)) (clock a).

Definition with_clock (f : Q -> Q) (a : t) : t :=
  mkState (circuit_breaker_threshold a) (circuit_breaker_timeout a)
    (failed_endpoints a) (f (clock a)).

Definition _is_circuit_open (endpoint : string) : M t bool :=
  failed <~ gets failed_endpoints ;;
  match failed !! endpoint with
  | None => ret false
  | Some failure_data =>
      let failure_count := count failure_data in
      let last_failure := last_failure failure_data in
      threshold <~ gets circuit_breaker_threshold ;;
      if (threshold <=? failure_count)%Z then
        now <~ gets clock ;;
        timeout <~ gets circuit_breaker_timeout ;;
        if Qltb timeout (now - last_failure)%Q then
          modify (with_failed_endpoints (insert endpoint (mkFailure 0 0))) ;;;
          ret false
        else ret true
      else ret false
  end.

Definition _record_failure (endpoint : string) : M t unit :=
  failed <~ gets failed_endpoints ;;
  (match failed !! endpoint with
   | None => modify (with_failed_endpoints (insert endpoint (mkFailure 0 0)))
   | Some _ => ret tt
   end) ;;;
  now <~ gets clock ;;
  modify (with_failed_endpoints (fun fe =>
    match fe !! endpoint with
    | Some d => <[endpoint := mkFailure (count d + 1) now]> fe
    | None => fe
    end)).

Definition _record_success (endpoint : string) : M t unit :=
  modify (with_failed_endpoints (delete endpoint)).

Section Calls.

(** [_make_api_call] with its retry decorator, seen from [process]: after
    some time it returns a response or raises.  The arguments are the
    endpoint, the method, the headers, the payload and the clock reading. *)
Variable api_call : string -> json -> json -> json -> Q -> rpc_reply.

(** The part of the loop body of [process] that follows the extraction of
    the call's parameters, for an endpoint that is given: the check of the
    circuit breaker, the call, and the bookkeeping.  It gives the entry
    appended to [results]. *)
Definition guarded_call (endpoint : string) (method headers payload : json) : M t json :=
  is_open <~ _is_circuit_open endpoint ;;
  if is_open : bool then
    ret (JDict [("status", JStr "circuit_open");
                ("endpoint", JStr endpoint);
                ("message", JStr "Circuit breaker is open - endpoint unavailable")])
  else
    now <~ gets clock ;;
    let reply := api_call endpoint method headers payload now in
    modify (with_clock (fun c => (c + reply_elapsed reply)%Q)) ;;;
    match reply_result reply with
    | Ok response => _record_success endpoint ;;; ret response
    | Raise e =>
        _record_failure endpoint ;;;
        ret (JDict [("status", JStr "error");
                    ("endpoint", JStr endpoint);
                    ("error", JStr (str_of_exn e))])
    end.

End Calls.
End APICallerAgent.

(* ===================================================================== *)
(** ** agents/alerting_agent.py: deduplication and priorities *)
(* ===================================================================== *)

Module AlertingAgent.

(** An alert as [_generate_alerts] builds it: the two keys read here, and
    the rest of the dict. *)
Record alert : Type := mkAlert {
  alert_id : string;
  severity : string;
  alert_rest : json
}.

Record t : Type := mkState {
  alert_cache : gmap string Q;
  alert_cooldown : Q;
  clock : Q
}.

(** [__init__] *)
Definition init (now : Q) : t := mkState ∅ 60 now.

Definition with_alert_cache (f : gmap string Q -> gmap string Q) (a : t) : t :=
  mkState (f (alert_cache a)) (alert_cooldown a) (clock a).

Definition _cleanup_cache (current_time : Q) (a : t) : t :=
  let expired_ids :=
    map fst (List.filter
               (fun kv : string * Q => Qltb (alert_cooldown a * 2) (current_time - kv.2)%Q)
               (map_to_list (alert_cache a))) in
  with_alert_cache (fun c => foldl (fun c id => delete id c) c expired_ids) a.

(** The loop of [_deduplicate_alerts]. *)
Fixpoint dedup_loop (current_time : Q) (alerts : list alert) (unique_alerts : list alert)
    (a : t) : list alert * t :=
  match alerts with
  | [] => (unique_alerts, a)
  | al :: rest =>
      let suppressed :=
        match alert_cache a !! alert_id al with
        | Some last_sent => Qltb (current_time - last_sent)%Q (alert_cooldown a)
        | None => false
        end in
      if suppressed then dedup_loop current_time rest unique_alerts a
      else dedup_loop current_time rest (unique_alerts ++ [al])%list
             (with_alert_cache (insert (alert_id al) current_time) a)
  end.

Definition _deduplicate_alerts (alerts : list alert) (a : t) : list alert * t :=
  let current_time := clock a in
  let '(unique_alerts, a') := dedup_loop current_time alerts [] a in
  (unique_alerts, _cleanup_cache current_time a').

(** [severity_order.get(a["severity"], 999)] *)
Definition severity_rank (s : string) : Z :=
  if String.eqb s "critical" then 0
  else if String.eqb s "high" then 1
  else if String.eqb s "medium" then 2
  else if String.eqb s "low" then 3
  else 999.

Definition _prioritize_alerts (alerts : list alert) : list alert :=
  sorted_by (fun x y => (severity_rank (severity x) <=? severity_rank (severity y))%Z) alerts.

End AlertingAgent.

(* ===================================================================== *)
(** * Specification-side definitions and fixtures *)
(* ===================================================================== *)

(** [returns m P]: from every state [m] returns (it does not raise) and the
    value returned satisfies [P]. *)
Definition returns {S A} (m : M S A) (P : A -> Prop) : Prop :=
  forall s, exists a s', m s = (Ok a, s') /\ P a.

Definition total {S A} (m : M S A) : Prop := returns m (fun _ => True).

(** The fault, if any, that the next backend call raises, and the state
    once that call has consumed its entry of the schedule. *)
Definition next_fault (w : world) : option exn :=
  match faults w with
  | Some e :: _ => Some e
  | _ => None
  end.

Definition tick (w : world) : world := with_faults (fun fs => drop 1 fs) w.

(** A backend that answers every call: no fault is scheduled. *)
Definition quiet (w : world) : Prop := faults w = [].

Definition agent_record (id type : string) (max cur : Z) (hb : Q) : AgentInfo :=
  mkAgentInfo id type (id ++ ":50052") [type] max cur true hb (JDict []).

(** A store holding one saturated worker: one slot, one task running. *)
Definition saturated_world : world :=
  with_agents (insert "w1" (agent_record "w1" "data_analysis" 1 1 0)) empty_world.

(** The record [update_task_status] writes back, from the record it read. *)
Definition updated_task (st : TaskStatus) (err out : option json) (t : Q)
    (task : TaskState) : TaskState :=
  let task := set_updated_at t (set_status st task) in
  let task := if opt_truthy err then set_error err task else task in
  if opt_truthy out then set_output out task else task.

Definition status_message (st : TaskStatus) (t : Q) : json :=
  JDict [("status", JStr (TaskStatus_value st)); ("timestamp", JNum t)].

(** A store holding one task that was cancelled. *)
Definition cancelled_task : TaskState :=
  mkTaskState "t1" CANCELLED "data_analysis" 0 0 [] [] None
    (Some (JDict [("message", JStr "Cancelled: "); ("code", JStr "CANCELLED")])) 0 5.

Definition cancelled_world : world :=
  with_tasks (insert "t1" cancelled_task) empty_world.

(** The nearest-rank percentile as the specification words it: the value
    at rank [ceil(p/100 * n)] of the sorted samples, ranks counted from 1. *)
Definition nearest_rank (p n : nat) : nat := ((p * n + 99) / 100)%nat.

Definition nearest_rank_percentile (p : nat) (vs : list Q) : Q :=
  nth (nearest_rank p (length vs) - 1) (sorted_by Qle_bool vs) 0%Q.

(** The index [_percentile] reads, counted from 0. *)
Definition percentile_index (p n : nat) : nat := Nat.min (p * n / 100) (n - 1).

(** A collector that recorded the two latencies 1 and 2. *)
Definition two_samples : MetricsCollector.t :=
  MetricsCollector.record "task_execution_time_ms" 2 [] 0
    (MetricsCollector.record "task_execution_time_ms" 1 [] 0
       (MetricsCollector.init 1000 0)).

(** A collector that recorded the three latencies 3, 1 and 2. *)
Definition three_samples : MetricsCollector.t :=
  MetricsCollector.record "task_execution_time_ms" 2 [] 0
    (MetricsCollector.record "task_execution_time_ms" 1 [] 0
       (MetricsCollector.record "task_execution_time_ms" 3 [] 0
          (MetricsCollector.init 1000 0))).

(** The field of the statistics that holds percentile [p]. *)
Definition percentile_field (p : nat) (s : MetricsCollector.stats) : option Q :=
  if Nat.eqb p 50 then Some (MetricsCollector.p50 s)
  else if Nat.eqb p 95 then Some (MetricsCollector.p95 s)
  else if Nat.eqb p 99 then Some (MetricsCollector.p99 s)
  else None.

(** A [process] that answers every request after 0.1 s. *)
Definition echo_process (inputs : list BaseAgent.AgentInput) (parameters : json) (t : Q)
  : BaseAgent.process_reply :=
  BaseAgent.mkProcessReply (1 # 10)
    (Ok (BaseAgent.mkOutput "text" (JStr "done") (JDict []) 100)).

(** A fresh worker with ten slots, and one text input. *)
Definition fresh_agent : BaseAgent.t := BaseAgent.init "agent-1" "data_ingest" 10 0.

Definition text_input : BaseAgent.AgentInput :=
  BaseAgent.mkInput "i1" "text" (JStr "hello") (JDict []).

(** The sorted set under [queue:<task_type>]. *)
Definition queue (w : world) (task_type : string) : gmap string Z :=
  default ∅ (db_queues w !! task_type).

Definition queued_task (id : string) (prio : Z) : TaskState :=
  mkTaskState id QUEUED "data_analysis" 0 0 [] [] None None 0 prio.

(** [n] calls of [get_next_task] in a row. *)
Fixpoint drain (n : nat) (task_type : string) : M world (list (option string)) :=
  match n with
  | O => ret []
  | S k =>
      x <~ RedisStateManager.get_next_task task_type ;;
      rest <~ drain k task_type ;;
      ret (x :: rest)
  end.

(** Three tasks enqueued with priorities 9, 1 and 5, in this order. *)
Definition enqueue_9_1_5 : M world unit :=
  RedisStateManager.create_task (queued_task "t-first" 9) ;;;
  RedisStateManager.create_task (queued_task "t-second" 1) ;;;
  RedisStateManager.create_task (queued_task "t-third" 5) ;;;
  ret tt.

(** Two tasks of equal priority; the one enqueued first has the later name. *)
Definition enqueue_tie : M world unit :=
  RedisStateManager.create_task (queued_task "task-b" 5) ;;;
  RedisStateManager.create_task (queued_task "task-a" 5) ;;;
  ret tt.

(** The three conditions of the load balancer's filter, at clock reading [t]. *)
Definition available_at (t : Q) (a : AgentInfo) : Prop :=
  healthy a = true /\
  (t - last_heartbeat a <= 30)%Q /\
  current_tasks a < max_concurrent_tasks a.

(** [a] is the record of a worker listed under the capability [type]. *)
Definition registered (w : world) (type : string) (a : AgentInfo) : Prop :=
  exists id, id ∈ default ∅ (db_agent_types w !! type) /\ db_agents w !! id = Some a.

(** Two states of the server that hold the same agents at the same time. *)
Definition same_agents (w w' : world) : Prop :=
  db_agents w' = db_agents w /\
  db_agent_types w' = db_agent_types w /\
  now w' = now w.

(** The filter of [select_agent], as a boolean. *)
Definition is_available (t : Q) (a : AgentInfo) : bool :=
  healthy a && negb (Qltb 30 (t - last_heartbeat a)%Q)
  && negb (max_concurrent_tasks a <=? current_tasks a)%Z.

(** An orchestrator process on the store [w], with the strategy [s]. *)
Definition process_on (w : world) (s : LoadBalancingStrategy) : process :=
  mkProcess w (MetricsCollector.init 1000 (now w)) s ∅ [] ∅.

(** At time 100 s: one idle healthy worker whose last heartbeat is 31 s old
    and one busier healthy worker that reported 5 s ago. *)
Definition stale_and_fresh : world :=
  with_now (fun _ => 100%Q)
    (with_agents (insert "w-stale" (agent_record "w-stale" "data_analysis" 10 0 69))
       (with_agents (insert "w-fresh" (agent_record "w-fresh" "data_analysis" 10 7 95))
          (with_agent_types (insert "data_analysis" {["w-stale"; "w-fresh"]}) empty_world))).

(** [m] never raises, and it returns [v] when its first backend call
    raises. *)
Definition fails_to {A} (m : M world A) (v : A) : Prop :=
  total m /\ forall w, is_Some (next_fault w) -> fst (m w) = Ok v.

(** The next [k] backend calls are answered. *)
Definition answered (k : nat) (w : world) : Prop :=
  Forall (fun f : option exn => f = None) (take k (faults w)).

(** Whether the backend call number [k] from now on (the next one is
    number 0) raises. *)
Definition fault_at (k : nat) (w : world) : bool :=
  match faults w !! k with
  | Some (Some _) => true
  | _ => false
  end.

(** A server that is down: the next call raises [ConnectionError]. *)
Definition unreachable : world :=
  with_faults (fun _ => [Some (Exn ConnectionError "Connection refused")]) empty_world.

(** Two healthy workers are registered; the second backend call raises. *)
Definition second_call_fails : world :=
  with_faults (fun _ => [None; Some (Exn TimeoutError "Timeout reading from socket")])
    stale_and_fresh.

Definition one_stage : plan_entry :=
  mkPlan "w1" "data_analysis" "w1:50052" (JList []) (JDict []).

(** The plan of a [real_time_monitoring] task: two stages. *)
Definition monitoring_plan : list plan_entry :=
  [mkPlan "v1" "video_detection" "v1:50052" (JList []) (JDict []);
   mkPlan "a1" "alerting" "a1:50052" (JList []) (JDict [])].

Definition monitoring_task : TaskState :=
  mkTaskState "m1" RUNNING "real_time_monitoring" 0 0 []
    [("execution_mode", JStr "parallel")] None None 0 5.

(** A store with the two workers of [monitoring_plan] and the task. *)
Definition monitoring_world : world :=
  with_tasks (insert "m1" monitoring_task)
    (with_agents (insert "v1" (agent_record "v1" "video_detection" 10 0 0))
       (with_agents (insert "a1" (agent_record "a1" "alerting" 10 0 0))
          (with_agent_types (insert "video_detection" {["v1"]})
             (with_agent_types (insert "alerting" {["a1"]}) empty_world)))).

Definition is_ok {A} (r : result A) : Prop :=
  match r with Ok _ => True | Raise _ => False end.






(** A queued task whose type is not a key of the workflow table. *)
Definition unknown_task (retries : Z) : TaskState :=
  mkTaskState "u1" QUEUED "no_such_type" 0 0 [] [] None None retries 5.

Definition unknown_world (retries : Z) : world :=
  with_tasks (insert "u1" (unknown_task retries)) empty_world.

(** The error stored when the retries of such a task are used up. *)
Definition unknown_type_error (t : TaskState) : json :=
  JDict [("message", JStr ("Unknown task type: " ++ task_type t));
         ("code", JStr "EXECUTION_FAILED");
         ("retryable", JBool false)].

(** One worker for [data_analysis], and the submission of a task for it
    that is cancelled while it waits in the queue, then dequeued and run. *)
Definition analysis_process : process :=
  process_on
    (with_agents (insert "w1" (agent_record "w1" "data_analysis" 10 0 0))
       (with_agent_types (insert "data_analysis" {["w1"]}) empty_world))
    LEAST_LOADED.

Definition analysis_task : Orchestrator.TaskDefinition :=
  Orchestrator.mkTaskDefinition "t1" "data_analysis" [] Orchestrator.SEQUENTIAL 5 30000 [].

Definition cancel_then_run : M process (option TaskStatus * option TaskStatus) :=
  Orchestrator.submit_task analysis_task ;;;
  Orchestrator.cancel_task "t1" "no longer needed" ;;;
  s1 <~ in_store (RedisStateManager.get_task "t1") ;;
  next <~ in_store (RedisStateManager.get_next_task "data_analysis") ;;
  Orchestrator._execute_task simulated_rpc (default "" next) ;;;
  s2 <~ in_store (RedisStateManager.get_task "t1") ;;
  ret (status <$> s1, status <$> s2).

(** ** Further specification-side definitions *)

(** The set of ids listed under a capability. *)
Definition index (w : world) (type : string) : gset string :=
  default ∅ (db_agent_types w !! type).

(** The staleness test of [cleanup_stale_agents], at clock reading [t]. *)
Definition stale (max_age : Z) (t : Q) (a : AgentInfo) : bool :=
  Qltb (inject_Z max_age) (t - last_heartbeat a)%Q.

(** What one pass of the loop of [cleanup_stale_agents] does to a store
    that answers. *)
Definition cleanup_step (max_age : Z) (t : Q) (w : world) (key : string) : world :=
  match db_agents w !! key with
  | Some a =>
      if stale max_age t a
      then with_agent_types
             (fun ix => <[agent_type a := default ∅ (ix !! agent_type a) ∖ {[agent_id a]}]> ix)
             (with_agents (delete key) w)
      else w
  | None => w
  end.

(** No stored worker id begins with [type:]: the key [agent:<id>] of a
    worker is then not one of the index keys [agent:type:<type>], which the
    loop of [cleanup_stale_agents] skips. *)
Definition plain_ids (w : world) : Prop :=
  forall id, is_Some (db_agents w !! id) -> String.prefix "type:" id = false.

(** Every record is stored under its own id. *)
Definition keyed_by_id (w : world) : Prop :=
  forall id a, db_agents w !! id = Some a -> agent_id a = id.

(** [w'] holds no agent record that [w] does not hold. *)
Definition agents_shrink (w w' : world) : Prop :=
  forall id a, db_agents w' !! id = Some a -> db_agents w !! id = Some a.

(** [k] selections in a row from the same list. *)
Fixpoint round_robin_calls (k : nat) (agent_type : string) (agents : list AgentInfo)
  : M process (list AgentInfo) :=
  match k with
  | O => ret []
  | S k' =>
      a <~ LoadBalancer._select_round_robin agent_type agents ;;
      rest <~ round_robin_calls k' agent_type agents ;;
      ret (a :: rest)
  end.

(** The counter of a capability, 0 before its first selection. *)
Definition round_robin_counter (p : process) (agent_type : string) : Z :=
  default 0 (round_robin_counters p !! agent_type).

(** The shape of the results of a pipeline run over [plan]: the stages in
    plan order, every stage but the last one completed, and the last one
    either failed or the last stage of the plan. *)
Definition pipeline_shape (plan : list plan_entry) (rs : list AgentTaskResult) : Prop :=
  map res_agent_type rs = take (length rs) (map plan_agent_type plan) /\
  (forall i r, rs !! i = Some r -> (S i < length rs)%nat -> res_status r = "completed") /\
  match last rs with
  | Some r =>
      res_status r = "failed" \/ (res_status r = "completed" /\ length rs = length plan)
  | None => plan = []
  end.

(** The record [submit_task] stores for a definition, at clock reading [t]. *)
Definition submitted_state (task_def : Orchestrator.TaskDefinition) (t : Q) : TaskState :=
  mkTaskState (Orchestrator.def_task_id task_def) QUEUED
    (Orchestrator.def_task_type task_def) t t []
    (Orchestrator.def_metadata task_def) None None 0
    (Orchestrator.def_priority task_def).

(** What [_build_execution_plan] puts into an entry: the task's inputs and
    parameters, and the id and endpoint of a worker that was registered for
    the stage and available in the store [w]. *)
Definition plan_entry_for (w : world) (task_state : TaskState) (e : plan_entry) : Prop :=
  plan_inputs e = dict_get_default "inputs" (JList []) (metadata task_state) /\
  plan_parameters e = dict_get_default "parameters" (JDict []) (metadata task_state) /\
  exists a : AgentInfo,
    registered w (plan_agent_type e) a /\ available_at (now w) a /\
    plan_agent_id e = agent_id a /\ plan_endpoint e = endpoint a.

(** The task types the sweep looks at. *)
Definition swept_types : list string := map fst Orchestrator.task_agent_mapping.

(** What a sweep may change: it removes ids from the queues of swept types
    and schedules ids; it leaves records, workers, metrics alone. *)
Definition sweep_effect (types : list string) (p p' : process) : Prop :=
  (forall type, type ∉ types -> queue (store p') type = queue (store p) type) /\
  db_tasks (store p') = db_tasks (store p) /\
  db_agents (store p') = db_agents (store p) /\
  now (store p') = now (store p) /\
  metrics p' = metrics p /\
  task_processors p ⊆ task_processors p' /\
  ("" ∈ task_processors p' -> "" ∈ task_processors p) /\
  (quiet (store p) ->
   quiet (store p') /\
   forall type, type ∈ types ->
     match zset_min (queue (store p) type) with
     | Some (m, _) =>
         queue (store p') type = delete m (queue (store p) type) /\
         (m <> "" -> m ∈ task_processors p')
     | None => queue (store p') type = queue (store p) type
     end).

(** [k] guarded calls of the same request in a row. *)
Fixpoint guarded_calls (api_call : string -> json -> json -> json -> Q -> rpc_reply)
    (k : nat) (endpoint : string) (method headers payload : json)
  : M APICallerAgent.t (list json) :=
  match k with
  | O => ret []
  | S k' =>
      r <~ APICallerAgent.guarded_call api_call endpoint method headers payload ;;
      rest <~ guarded_calls api_call k' endpoint method headers payload ;;
      ret (r :: rest)
  end.

(** The number of failures recorded for an endpoint. *)
Definition failure_count (a : APICallerAgent.t) (endpoint : string) : Z :=
  match APICallerAgent.failed_endpoints a !! endpoint with
  | Some d => APICallerAgent.count d
  | None => 0
  end.

(** The entry [process] appends for an endpoint whose circuit is open. *)
Definition circuit_open_entry (endpoint : string) : json :=
  JDict [("status", JStr "circuit_open");
         ("endpoint", JStr endpoint);
         ("message", JStr "Circuit breaker is open - endpoint unavailable")].

(** The test of [_deduplicate_alerts]: the id was sent less than a
    cooldown before [t]. *)
Definition suppressed (t : Q) (a : AlertingAgent.t) (id : string) : bool :=
  match AlertingAgent.alert_cache a !! id with
  | Some last_sent => Qltb (t - last_sent)%Q (AlertingAgent.alert_cooldown a)
  | None => false
  end.

(** Fixtures: a store with one queued task; three workers of one type with
    loads 3, 1 and 1; an API that always fails; three alerts, two of them
    with the same id. *)
Definition queued_world : world :=
  with_tasks (insert "q1" (queued_task "q1" 5)) empty_world.

Definition three_agents : list AgentInfo :=
  [agent_record "a" "data_analysis" 10 3 0;
   agent_record "b" "data_analysis" 10 1 0;
   agent_record "c" "data_analysis" 10 1 0].

Definition failing_api (endpoint : string) (method headers payload : json) (t : Q)
  : rpc_reply :=
  mkReply (1 # 10) (Raise (Exn ConnectionError "Simulated connection error")).

Definition three_alerts : list AlertingAgent.alert :=
  [AlertingAgent.mkAlert "alert_1" "low" JNull;
   AlertingAgent.mkAlert "alert_2" "critical" JNull;
   AlertingAgent.mkAlert "alert_1" "high" JNull].

(* ===================================================================== *)
(** * Properties *)
(* ===================================================================== *)

(** ** The monad *)

Lemma returns_ret {S A} (a : A) (P : A -> Prop) : P a -> returns (S := S) (ret a) P.
Proof. intros Ha s. exists a, s. split; [reflexivity | exact Ha]. Qed.

Lemma returns_bind {S A B} (m : M S A) (k : A -> M S B) (P : A -> Prop) (Q : B -> Prop) :
  returns m P -> (forall a, P a -> returns (k a) Q) -> returns (bind m k) Q.
Proof.
  intros Hm Hk s. destruct (Hm s) as (a & s' & E & Ha).
  destruct (Hk a Ha s') as (b & s'' & E' & Hb).
  exists b, s''. unfold bind. rewrite E. split; assumption.
Qed.

Lemma bind_run {S A B} (m : M S A) (k : A -> M S B) (s : S) :
  bind m k s = match m s with
               | (Ok a, s') => k a s'
               | (Raise e, s') => (Raise e, s')
               end.
Proof. reflexivity. Qed.

Lemma try_except_run {S A} (body : M S A) (handler : exn -> M S A) (s : S) :
  try_except body handler s = match body s with
                              | (Ok a, s') => (Ok a, s')
                              | (Raise e, s') => handler e s'
                              end.
Proof. reflexivity. Qed.

Lemma gets_run {S A} (f : S -> A) (s : S) : gets f s = (Ok (f s), s).
Proof. reflexivity. Qed.

Lemma modify_run {S} (f : S -> S) (s : S) : modify f s = (Ok tt, f s).
Proof. reflexivity. Qed.

Lemma ret_run {S A} (a : A) (s : S) : ret a s = (Ok a, s).
Proof. reflexivity. Qed.

Lemma raise_run {S A} (e : exn) (s : S) : raise (A := A) e s = (Raise e, s).
Proof. reflexivity. Qed.

(** Run the next steps of a computation applied to a state. *)
Ltac run :=
  repeat first
    [ rewrite bind_run | rewrite gets_run | rewrite modify_run
    | rewrite ret_run | rewrite raise_run | rewrite try_except_run
    | progress cbv beta iota ].

Lemma returns_weaken {S A} (m : M S A) (P Q : A -> Prop) :
  returns m P -> (forall a, P a -> Q a) -> returns m Q.
Proof.
  intros Hm HPQ s. destruct (Hm s) as (a & s' & E & Ha). exists a, s'. auto.
Qed.

Lemma returns_gets {S A} (f : S -> A) : total (gets f).
Proof. intros s. exists (f s), s. split; [reflexivity | exact I]. Qed.

Lemma returns_modify {S} (f : S -> S) : total (modify f).
Proof. intros s. exists tt, (f s). split; [reflexivity | exact I]. Qed.

(** A handler that returns makes the whole [try] return, whatever the body
    does. *)
Lemma returns_try_except {S A} (body : M S A) (handler : exn -> M S A) (P : A -> Prop) :
  (forall s a s', body s = (Ok a, s') -> P a) ->
  (forall e, returns (handler e) P) ->
  returns (try_except body handler) P.
Proof.
  intros Hb Hh s. unfold try_except.
  destruct (body s) as [[a | e] s'] eqn:E.
  - exists a, s'. split; [reflexivity | eauto].
  - apply Hh.
Qed.

Lemma total_try_except {S A} (body : M S A) (handler : exn -> M S A) :
  (forall e, total (handler e)) -> total (try_except body handler).
Proof. intros Hh. apply returns_try_except; [trivial | exact Hh]. Qed.

Lemma total_attempt {S A} (m : M S A) : total (attempt m).
Proof.
  intros s. unfold attempt. destruct (m s) as [r s'] eqn:E.
  exists r, s'. split; [reflexivity | exact I].
Qed.

Lemma total_zoom {S T A} (get : S -> T) (set : T -> S -> S) (m : M T A) (P : A -> Prop) :
  returns m P -> returns (zoom get set m) P.
Proof.
  intros Hm s. destruct (Hm (get s)) as (a & t' & E & Ha).
  exists a, (set t' s). unfold zoom. rewrite E. split; [reflexivity | exact Ha].
Qed.

Lemma total_fold_m {S A B} (body : B -> A -> M S B) (l : list A) (acc : B) :
  (forall b a, total (body b a)) -> total (fold_m body l acc).
Proof.
  intros Hb. revert acc. induction l as [| x l IH]; intros acc; simpl.
  - apply returns_ret; exact I.
  - eapply returns_bind; [apply Hb | intros b _; apply IH].
Qed.

(** An invariant of the accumulator is kept by a loop that keeps it. *)
Lemma returns_fold_m {S A B} (body : B -> A -> M S B) (I : B -> Prop) (l : list A)
    (acc : B) :
  (forall b a, I b -> returns (body b a) I) -> I acc -> returns (fold_m body l acc) I.
Proof.
  intros Hb. revert acc. induction l as [| x l IH]; intros acc Hacc; simpl.
  - apply returns_ret; exact Hacc.
  - eapply returns_bind; [apply Hb; exact Hacc | intros b Hb'; apply IH; exact Hb'].
Qed.


(** ** The backend *)

Lemma backend_unfold {A} (op : M world A) (w : world) :
  backend op w =
  match next_fault w with
  | Some e => (Raise e, tick w)
  | None => op (tick w)
  end.
Proof.
  unfold backend, next_fault, tick. destruct w as [? ? ? ? ? ? ? ? ? fs ?]; simpl.
  destruct fs as [| [e |] rest]; reflexivity.
Qed.

Lemma backend_gets {A} (f : world -> A) (w : world) :
  backend (gets f) w =
  match next_fault w with
  | Some e => (Raise e, tick w)
  | None => (Ok (f (tick w)), tick w)
  end.
Proof. rewrite backend_unfold. reflexivity. Qed.

Lemma backend_modify (f : world -> world) (w : world) :
  backend (modify f) w =
  match next_fault w with
  | Some e => (Raise e, tick w)
  | None => (Ok tt, f (tick w))
  end.
Proof. rewrite backend_unfold. reflexivity. Qed.

Lemma quiet_next_fault w : quiet w -> next_fault w = None.
Proof. unfold quiet, next_fault. intros ->. reflexivity. Qed.

Lemma quiet_tick w : quiet w -> tick w = w.
Proof. unfold quiet, tick. destruct w; simpl. intros ->. reflexivity. Qed.

(** ** The state manager, call by call *)

Lemma get_agent_unfold (id : string) (w : world) :
  RedisStateManager.get_agent id w =
  (Ok (match next_fault w with Some _ => None | None => db_agents w !! id end), tick w).
Proof.
  unfold RedisStateManager.get_agent, try_except, redis_get_agent.
  rewrite backend_gets. destruct (next_fault w); reflexivity.
Qed.

Lemma get_task_unfold (id : string) (w : world) :
  RedisStateManager.get_task id w =
  (Ok (match next_fault w with Some _ => None | None => db_tasks w !! id end), tick w).
Proof.
  unfold RedisStateManager.get_task, try_except, redis_get_task.
  rewrite backend_gets. destruct (next_fault w); reflexivity.
Qed.

Lemma increment_agent_tasks_unfold (id : string) (d : Z) (w : world) :
  RedisStateManager.increment_agent_tasks id d w =
  match next_fault w, db_agents w !! id with
  | None, Some a =>
      match next_fault (tick w) with
      | None =>
          (Ok true,
           with_agents (insert id (set_current_tasks (Z.max 0 (current_tasks a + d)) a))
             (tick (tick w)))
      | Some _ => (Ok false, tick (tick w))
      end
  | _, _ => (Ok false, tick w)
  end.
Proof.
  unfold RedisStateManager.increment_agent_tasks, try_except, bind.
  rewrite get_agent_unfold.
  destruct (next_fault w) eqn:F; [reflexivity |].
  destruct (db_agents w !! id) as [a |] eqn:L; [| reflexivity].
  unfold redis_set_agent. rewrite backend_modify.
  destruct (next_fault (tick w)); reflexivity.
Qed.

Lemma increment_agent_tasks_total (id : string) (d : Z) :
  total (RedisStateManager.increment_agent_tasks id d).
Proof.
  intros w. rewrite increment_agent_tasks_unfold.
  destruct (next_fault w), (db_agents w !! id); try destruct (next_fault (tick w));
    eexists _, _; split; try reflexivity; exact I.
Qed.

(** ** Agent task counts (C6) *)

(** C6 (counterexample): the claim bounds the stored count by
    [max_concurrent_tasks] after every update; on a worker with one slot and
    one running task, [increment_agent_tasks("w1", 1)] succeeds and stores 2. *)
Lemma increment_agent_tasks_exceeds_max :
  ~ (forall (id : string) (d : Z) (w w' : world) (a' : AgentInfo),
       RedisStateManager.increment_agent_tasks id d w = (Ok true, w') ->
       db_agents w' !! id = Some a' ->
       0 <= current_tasks a' <= max_concurrent_tasks a').
Proof.
  intros H.
  specialize (H "w1" 1 saturated_world
                (with_agents (insert "w1" (agent_record "w1" "data_analysis" 1 2 0))
                   empty_world)
                (agent_record "w1" "data_analysis" 1 2 0)).
  assert (0 <= 2 <= 1) as [_ Hle]; [| lia].
  apply H; vm_compute; reflexivity.
Qed.

(** C6 (as amended): [increment_agent_tasks] always returns; when it returns
    [True] the record it read is stored back with
    [current_tasks = max(0, current_tasks + increment)], so the stored count
    is never negative, and nothing else of the record changes; when it
    returns [False] no agent record has changed.  The count is not clamped
    from above. *)
Theorem increment_agent_tasks_clamps_at_zero (id : string) (d : Z) (w : world) :
  exists (b : bool) (w' : world),
    RedisStateManager.increment_agent_tasks id d w = (Ok b, w') /\
    if b then
      exists a a',
        db_agents w !! id = Some a /\
        db_agents w' = <[id := a']> (db_agents w) /\
        a' = set_current_tasks (Z.max 0 (current_tasks a + d)) a /\
        current_tasks a' = Z.max 0 (current_tasks a + d) /\
        0 <= current_tasks a' /\
        max_concurrent_tasks a' = max_concurrent_tasks a
    else db_agents w' = db_agents w.
Proof.
  rewrite increment_agent_tasks_unfold.
  destruct (next_fault w) eqn:F.
  { exists false, (tick w). split; [destruct (db_agents w !! id) |]; reflexivity. }
  destruct (db_agents w !! id) as [a |] eqn:L.
  2: { exists false, (tick w). split; reflexivity. }
  destruct (next_fault (tick w)) eqn:F'.
  { exists false, (tick (tick w)). split; reflexivity. }
  exists true. eexists. split; [reflexivity |].
  exists a, (set_current_tasks (Z.max 0 (current_tasks a + d)) a).
  repeat split; simpl; try reflexivity; try assumption; lia.
Qed.

(** ** Task status writes (C2) *)

Lemma updated_task_status st err out t task :
  status (updated_task st err out t task) = st.
Proof. unfold updated_task. destruct (opt_truthy err), (opt_truthy out); reflexivity. Qed.

Lemma update_task_status_unfold (id : string) (st : TaskStatus) (err out : option json)
    (w : world) :
  RedisStateManager.update_task_status id st err out w =
  match next_fault w, db_tasks w !! id with
  | None, Some task =>
      match next_fault (tick w) with
      | Some _ => (Ok false, tick (tick w))
      | None =>
          let w2 :=
            with_tasks (insert id (updated_task st err out (now w) task)) (tick (tick w)) in
          match next_fault w2 with
          | Some _ => (Ok false, tick w2)
          | None =>
              (Ok true,
               with_published (cons ("task_updates:" ++ id, status_message st (now w)))
                 (tick w2))
          end
      end
  | _, _ => (Ok false, tick w)
  end.
Proof.
  unfold RedisStateManager.update_task_status, try_except, bind.
  rewrite get_task_unfold.
  destruct (next_fault w) eqn:F; [reflexivity |].
  destruct (db_tasks w !! id) as [task |] eqn:L; [| reflexivity].
  unfold time_time, gets, redis_set_task. rewrite backend_modify.
  destruct (next_fault (tick w)) eqn:F1; [reflexivity |].
  unfold redis_publish. rewrite backend_modify.
  unfold updated_task. cbv zeta.
  change (now (tick w)) with (now w).
  change (now (tick (tick w))) with (now w).
  destruct (next_fault (with_tasks _ (tick (tick w)))); reflexivity.
Qed.

Lemma update_task_status_total id st err out :
  total (RedisStateManager.update_task_status id st err out).
Proof.
  apply total_try_except. intros e. apply returns_ret. exact I.
Qed.

(** C2 (counterexample): the claim makes terminal states absorbing under
    [update_task_status]; on a task stored as CANCELLED, the call with
    COMPLETED succeeds and the stored status is COMPLETED. *)
Lemma update_task_status_leaves_terminal :
  ~ (forall (id : string) (st : TaskStatus) (err out : option json)
       (w w' : world) (b : bool) (t t' : TaskState),
       db_tasks w !! id = Some t ->
       Orchestrator.is_terminal (status t) = true ->
       RedisStateManager.update_task_status id st err out w = (Ok b, w') ->
       db_tasks w' !! id = Some t' ->
       status t' = status t).
Proof.
  intros H.
  pose (w' := fst (snd (RedisStateManager.update_task_status "t1" COMPLETED None None
                          cancelled_world), tt)).
  specialize (H "t1" COMPLETED None None cancelled_world w' true cancelled_task
                (set_status COMPLETED cancelled_task)).
  assert (COMPLETED = CANCELLED) as E; [| discriminate E].
  apply H; vm_compute; reflexivity.
Qed.

Lemma in_store_unfold {A} (m : M world A) (p : process) :
  in_store m p = ((m (store p)).1, with_store (fun _ => (m (store p)).2) p).
Proof. unfold in_store, zoom. destruct (m (store p)); reflexivity. Qed.

Lemma cancel_task_terminal (id reason : string) (p : process) (t : TaskState) :
  db_tasks (store p) !! id = Some t ->
  Orchestrator.is_terminal (status t) = true ->
  Orchestrator.cancel_task id reason p = (Ok false, with_store tick p).
Proof.
  intros L T. unfold Orchestrator.cancel_task, try_except, bind.
  rewrite in_store_unfold, get_task_unfold. simpl.
  destruct (next_fault (store p)); [reflexivity |].
  rewrite L, T. reflexivity.
Qed.

(** C2 (as amended): the store does not guard terminal states.  For a task
    that exists and a backend that answers, [update_task_status] returns
    [True] and the stored record then carries the status passed in, whatever
    status was stored before (the last writer wins).  The one guard is in
    [Orchestrator.cancel_task]: on a task stored as COMPLETED, FAILED or
    CANCELLED it returns [False] and writes nothing. *)
Theorem update_task_status_last_writer_wins
    (id : string) (st : TaskStatus) (err out : option json) (w : world) (task : TaskState) :
  quiet w ->
  db_tasks w !! id = Some task ->
  (exists w',
      RedisStateManager.update_task_status id st err out w = (Ok true, w') /\
      db_tasks w' = <[id := updated_task st err out (now w) task]> (db_tasks w) /\
      status <$> (db_tasks w' !! id) = Some st) /\
  (forall (p : process) (reason : string),
      store p = w ->
      Orchestrator.is_terminal (status task) = true ->
      exists p',
        Orchestrator.cancel_task id reason p = (Ok false, p') /\
        db_tasks (store p') = db_tasks w).
Proof.
  intros Hq L. split.
  - rewrite update_task_status_unfold.
    rewrite (quiet_next_fault w Hq), L, !(quiet_tick w Hq), (quiet_next_fault w Hq).
    cbv zeta.
    assert (quiet (with_tasks (insert id (updated_task st err out (now w) task)) w)) as Hq'.
    { unfold quiet in *. simpl. exact Hq. }
    rewrite (quiet_next_fault _ Hq'), (quiet_tick _ Hq').
    eexists. split; [reflexivity |]. simpl. split; [reflexivity |].
    rewrite lookup_insert_eq. simpl. f_equal. apply updated_task_status.
  - intros p reason <- T.
    exists (with_store tick p). split.
    + eapply cancel_task_terminal; eassumption.
    + reflexivity.
Qed.

Lemma update_task_status_last_writer_wins_witness :
  exists w',
    RedisStateManager.update_task_status "t1" COMPLETED None None cancelled_world
      = (Ok true, w') /\
    status <$> (db_tasks w' !! "t1") = Some COMPLETED.
Proof.
  destruct (update_task_status_last_writer_wins "t1" COMPLETED None None
              cancelled_world cancelled_task eq_refl eq_refl)
    as [(w' & E & _ & S) _].
  exists w'. split; [exact E | exact S].
Defined.

(** ** Sorting *)

Section Sorting.

Context {A : Type} (leb : A -> A -> bool).

Lemma insert_sorted_perm (x : A) (l : list A) : insert_sorted leb x l ≡ₚ x :: l.
Proof.
  induction l as [| y l IH]; simpl; [reflexivity |].
  destruct (leb x y); [reflexivity |].
  rewrite IH. apply perm_swap.
Qed.

Lemma sorted_by_perm (l : list A) : sorted_by leb l ≡ₚ l.
Proof.
  unfold sorted_by. induction l as [| x l IH]; simpl; [reflexivity |].
  rewrite insert_sorted_perm, IH. reflexivity.
Qed.

Lemma length_sorted_by (l : list A) : length (sorted_by leb l) = length l.
Proof. apply Permutation_length, sorted_by_perm. Qed.

Lemma sorted_by_nil_inv (l : list A) : sorted_by leb l = [] -> l = [].
Proof.
  intros E. apply Permutation_nil. rewrite <- E. exact (sorted_by_perm l).
Qed.

Hypothesis leb_total : forall x y, leb x y = true \/ leb y x = true.
Hypothesis leb_trans : forall x y z, leb x y = true -> leb y z = true -> leb x z = true.

Let R (x y : A) : Prop := leb x y = true.

Lemma insert_sorted_sorted (x : A) (l : list A) :
  StronglySorted R l -> StronglySorted R (insert_sorted leb x l).
Proof.
  induction 1 as [| y l Hs IH Hall]; simpl.
  - constructor; constructor.
  - destruct (leb x y) eqn:E.
    + constructor; [constructor; assumption |].
      constructor; [exact E |].
      eapply Forall_impl; [exact Hall |]. intros z Hz. eapply leb_trans; eassumption.
    + constructor; [exact IH |].
      rewrite insert_sorted_perm. constructor; [| exact Hall].
      destruct (leb_total x y) as [H | H]; [congruence | exact H].
Qed.

Lemma sorted_by_sorted (l : list A) : StronglySorted R (sorted_by leb l).
Proof.
  unfold sorted_by. induction l as [| x l IH]; simpl; [constructor |].
  apply insert_sorted_sorted, IH.
Qed.

Lemma sorted_head_least (a : A) (l : list A) (x : A) :
  StronglySorted R (a :: l) -> x ∈ a :: l -> leb a x = true.
Proof.
  intros Hs Hx. apply StronglySorted_inv in Hs as [_ Hall].
  apply elem_of_cons in Hx as [-> | Hx].
  - destruct (leb_total a a); assumption.
  - rewrite Forall_forall in Hall. apply Hall. exact Hx.
Qed.

Lemma sorted_last_greatest (l : list A) (d x : A) :
  StronglySorted R l -> x ∈ l -> leb x (List.last l d) = true.
Proof.
  intros Hs. revert x. induction Hs as [| y l Hs IH Hall]; intros x Hx.
  - apply elem_of_nil in Hx. contradiction.
  - destruct l as [| z l'].
    + apply list_elem_of_singleton in Hx as ->. simpl.
      destruct (leb_total y y); assumption.
    + change (List.last (y :: z :: l') d) with (List.last (z :: l') d).
      apply elem_of_cons in Hx as [-> | Hx]; [| apply IH; exact Hx].
      eapply leb_trans; [| apply IH; left].
      rewrite Forall_forall in Hall. apply Hall. left.
Qed.

End Sorting.

Lemma Qle_bool_total (x y : Q) : Qle_bool x y = true \/ Qle_bool y x = true.
Proof.
  rewrite !Qle_bool_iff. destruct (Qlt_le_dec x y) as [H | H]; [left | right]; lra.
Qed.

Lemma Qle_bool_trans (x y z : Q) :
  Qle_bool x y = true -> Qle_bool y z = true -> Qle_bool x z = true.
Proof. rewrite !Qle_bool_iff. intros; lra. Qed.

Lemma Qsum_perm (l l' : list Q) : l ≡ₚ l' -> (Qsum l == Qsum l')%Q.
Proof.
  induction 1 as [| x l l' _ IH | x y l | l l' l'' _ IH1 _ IH2]; simpl.
  - reflexivity.
  - rewrite IH. reflexivity.
  - ring.
  - rewrite IH1. exact IH2.
Qed.

(** ** Histogram statistics (C9) *)

(** C9 (counterexample): the claim makes [p50] the nearest-rank percentile;
    for the two samples 1 and 2 the nearest rank is [ceil(0.5 * 2) = 1], the
    value 1, and [get_histogram_stats] returns 2. *)
Lemma p50_is_not_nearest_rank :
  ~ (forall (m : MetricsCollector.t) (name : string) (samples : list MetricsCollector.sample),
       MetricsCollector._histograms m !! name = Some samples ->
       samples <> [] ->
       (MetricsCollector.p50 (MetricsCollector.get_histogram_stats name [] m)
        == nearest_rank_percentile 50 (map MetricsCollector.value samples))%Q).
Proof.
  intros H.
  specialize (H two_samples "task_execution_time_ms"
                [MetricsCollector.mkSample 1 0; MetricsCollector.mkSample 2 0]).
  assert (2 == 1)%Q as E; [| discriminate E].
  apply H; [vm_compute; reflexivity | discriminate].
Qed.

Lemma percentile_unfold (vs : list Q) (p : nat) :
  vs <> [] ->
  MetricsCollector._percentile vs p = nth (percentile_index p (length vs)) vs 0%Q.
Proof. destruct vs; [congruence | reflexivity]. Qed.

(** Where the index read by the code and the nearest rank agree. *)
Lemma percentile_index_nearest_rank (p n : nat) :
  (0 < n)%nat -> (p < 100)%nat -> ((p * n) mod 100 <> 0)%nat ->
  percentile_index p n = (nearest_rank p n - 1)%nat.
Proof.
  intros Hn Hp Hmod. unfold percentile_index, nearest_rank.
  assert (p * n / 100 < n)%nat as Hlt.
  { apply Nat.Div0.div_lt_upper_bound. nia. }
  rewrite Nat.min_l by lia.
  pose proof (Nat.div_mod_eq (p * n) 100) as E.
  pose proof (Nat.mod_upper_bound (p * n) 100 ltac:(lia)) as B.
  assert ((p * n + 99) / 100 = p * n / 100 + 1)%nat as ->; [| lia].
  symmetry. apply Nat.div_unique with (r := ((p * n) mod 100 - 1)%nat); lia.
Qed.

(** Where they differ: the code reads one rank higher. *)
Lemma percentile_index_next_rank (p n : nat) :
  (0 < n)%nat -> (0 < p < 100)%nat -> ((p * n) mod 100 = 0)%nat ->
  percentile_index p n = nearest_rank p n.
Proof.
  intros Hn Hp Hmod. unfold percentile_index, nearest_rank.
  assert (p * n / 100 < n)%nat as Hlt.
  { apply Nat.Div0.div_lt_upper_bound. nia. }
  rewrite Nat.min_l by lia.
  pose proof (Nat.div_mod_eq (p * n) 100) as E.
  apply Nat.div_unique with (r := 99%nat); lia.
Qed.

(** The ring of samples keeps the latest [maxlen] of them. *)
Lemma deque_append_spec {A} (maxlen : nat) (d : list A) (x : A) :
  MetricsCollector.deque_append maxlen d x `suffix_of` (d ++ [x])%list /\
  length (MetricsCollector.deque_append maxlen d x) = Nat.min maxlen (length d + 1).
Proof.
  unfold MetricsCollector.deque_append. split.
  - apply suffix_drop.
  - rewrite length_drop, length_app. simpl. lia.
Qed.

Lemma get_histogram_stats_unfold (m : MetricsCollector.t) (name : string)
    (labels : list (string * string)) (samples : list MetricsCollector.sample) :
  MetricsCollector._histograms m !! MetricsCollector._make_key name labels = Some samples ->
  samples <> [] ->
  MetricsCollector.get_histogram_stats name labels m =
  let values := sorted_by Qle_bool (map MetricsCollector.value samples) in
  MetricsCollector.mkStats (length values)
    (Qsum values / inject_Z (Z.of_nat (length values)))%Q
    (MetricsCollector._percentile values 50)
    (MetricsCollector._percentile values 95)
    (MetricsCollector._percentile values 99)
    (nth 0 values 0%Q)
    (List.last values 0%Q).
Proof.
  intros H Hne. unfold MetricsCollector.get_histogram_stats. rewrite H.
  destruct samples; [congruence | reflexivity].
Qed.

(** C9 (as amended): for a histogram that holds at least one sample,
    [get_histogram_stats] returns the number of samples held, their
    arithmetic mean, their smallest and largest value, and for p50, p95 and
    p99 the sorted value at index [min(floor(p * n / 100), n - 1)] counted
    from 0.  That is the nearest-rank percentile when [p * n] is not a
    multiple of 100, and the value one rank above it when it is. *)
Theorem get_histogram_stats_values (m : MetricsCollector.t) (name : string)
    (labels : list (string * string)) (samples : list MetricsCollector.sample) :
  MetricsCollector._histograms m !! MetricsCollector._make_key name labels = Some samples ->
  samples <> [] ->
  let vs := map MetricsCollector.value samples in
  let n := length samples in
  let sorted := sorted_by Qle_bool vs in
  let s := MetricsCollector.get_histogram_stats name labels m in
  MetricsCollector.count s = n /\
  (MetricsCollector.mean s == Qsum vs / inject_Z (Z.of_nat n))%Q /\
  (MetricsCollector.min s ∈ vs /\ forall x, x ∈ vs -> (MetricsCollector.min s <= x)%Q) /\
  (MetricsCollector.max s ∈ vs /\ forall x, x ∈ vs -> (x <= MetricsCollector.max s)%Q) /\
  (forall (p : nat) (v : Q),
      percentile_field p s = Some v ->
        v = nth (percentile_index p n) sorted 0%Q /\
        (((p * n) mod 100 <> 0)%nat -> v = nearest_rank_percentile p vs) /\
        (((p * n) mod 100 = 0)%nat -> v = nth (nearest_rank p n) sorted 0%Q)).
Proof.
  intros H Hne vs n sorted s.
  assert (length sorted = n) as Hlen.
  { unfold sorted, vs, n. rewrite length_sorted_by, length_map. reflexivity. }
  assert (sorted <> []) as Hsne.
  { intros E. apply sorted_by_nil_inv in E. apply map_eq_nil in E. contradiction. }
  assert (0 < n)%nat as Hn.
  { unfold n. destruct samples; [congruence | simpl; lia]. }
  assert (StronglySorted (fun x y => Qle_bool x y = true) sorted) as Hsorted.
  { apply sorted_by_sorted; [apply Qle_bool_total | apply Qle_bool_trans]. }
  assert (sorted ≡ₚ vs) as Hperm by apply sorted_by_perm.
  unfold s. rewrite (get_histogram_stats_unfold m name labels samples H Hne).
  fold vs. fold sorted. cbv zeta. unfold percentile_field. simpl.
  split; [exact Hlen |].
  split; [rewrite Hlen, (Qsum_perm _ _ Hperm); reflexivity |].
  split.
  { destruct sorted as [| a rest] eqn:Es; [congruence |]. simpl. split.
    - rewrite <- Hperm. left.
    - intros x Hx. apply Qle_bool_iff.
      apply (sorted_head_least Qle_bool Qle_bool_total a rest x Hsorted).
      rewrite Hperm. exact Hx. }
  split.
  { split.
    - rewrite <- Hperm. apply list_elem_of_In.
      destruct sorted as [| a rest]; [congruence |].
      apply (@exists_last _ (a :: rest)) in Hsne as (l' & z & E).
      rewrite E, last_last. apply in_or_app. right. left. reflexivity.
    - intros x Hx. apply Qle_bool_iff.
      apply (sorted_last_greatest Qle_bool Qle_bool_total Qle_bool_trans sorted 0%Q x Hsorted).
      rewrite Hperm. exact Hx. }
  intros p v Hv.
  assert (v = MetricsCollector._percentile sorted p /\ (0 < p < 100)%nat) as [-> Hp].
  { destruct (Nat.eqb p 50) eqn:E50; [apply Nat.eqb_eq in E50; subst p; split; [congruence | lia] |].
    destruct (Nat.eqb p 95) eqn:E95; [apply Nat.eqb_eq in E95; subst p; split; [congruence | lia] |].
    destruct (Nat.eqb p 99) eqn:E99; [apply Nat.eqb_eq in E99; subst p; split; [congruence | lia] |].
    discriminate. }
  rewrite (percentile_unfold sorted p Hsne), Hlen.
  split; [reflexivity |]. split.
  - intros Hmod. unfold nearest_rank_percentile. fold vs. fold sorted.
    replace (length vs) with n by (unfold vs, n; rewrite length_map; reflexivity).
    rewrite (percentile_index_nearest_rank p n) by (try assumption; lia). reflexivity.
  - intros Hmod. rewrite (percentile_index_next_rank p n) by (try assumption; lia). reflexivity.
Qed.

Lemma get_histogram_stats_values_witness :
  let s := MetricsCollector.get_histogram_stats "task_execution_time_ms" [] three_samples in
  MetricsCollector.count s = 3%nat /\
  MetricsCollector.p50 s = nearest_rank_percentile 50 [3%Q; 1%Q; 2%Q].
Proof.
  pose proof (get_histogram_stats_values three_samples "task_execution_time_ms" []
                [MetricsCollector.mkSample 3 0; MetricsCollector.mkSample 1 0;
                 MetricsCollector.mkSample 2 0]
                ltac:(vm_compute; reflexivity) ltac:(discriminate)) as H.
  cbv zeta in H. destruct H as (Hc & _ & _ & _ & Hp).
  split; [exact Hc |].
  destruct (Hp 50%nat _ eq_refl) as (_ & Hnr & _).
  apply Hnr. vm_compute. discriminate.
Defined.

(** ** Worker shutdown (C8) *)

(** C8 (counterexample): the claim has every call to [execute] rejected
    once [shutdown] has cleared [healthy]; on a worker that was shut down
    (the drain loop has ended), [execute] runs [process] and returns a
    completed result. *)
Lemma execute_after_shutdown_is_processed :
  ~ (forall (process : list BaseAgent.AgentInput -> json -> Q -> BaseAgent.process_reply)
       (polls : nat) (a a1 a2 : BaseAgent.t)
       (task_id : string) (inputs : list BaseAgent.AgentInput) (parameters r : json),
       BaseAgent.shutdown polls a = (Ok true, a1) ->
       BaseAgent.execute process task_id inputs parameters a1 = (Ok (Some r), a2) ->
       json_get_default "status" JNull r <> JStr "completed" /\
       BaseAgent.total_completed a2 = BaseAgent.total_completed a1).
Proof.
  intros H.
  pose (a1 := BaseAgent.with_healthy false fresh_agent).
  pose (res := BaseAgent.execute echo_process "t1" [text_input] (JDict []) a1).
  specialize (H echo_process O fresh_agent a1 res.2 "t1" [text_input] (JDict [])
                (JDict [("status", JStr "completed");
                        ("output", JDict [("type", JStr "text"); ("data", JStr "done");
                                          ("metadata", JDict [])]);
                        ("execution_time_ms", JNum ((0 + (1 # 10) - 0) * 1000));
                        ("error", JNull)])
                eq_refl eq_refl).
  destruct H as [Hst _]. apply Hst. reflexivity.
Qed.

Lemma validate_inputs_pure (inputs : list BaseAgent.AgentInput) (a b : BaseAgent.t) :
  BaseAgent._validate_inputs inputs a = ((BaseAgent._validate_inputs inputs b).1, a).
Proof.
  unfold BaseAgent._validate_inputs. destruct inputs as [| i0 rest]; [reflexivity |].
  generalize (i0 :: rest) as l. clear. intros l.
  induction l as [| x l IH]; simpl; [reflexivity |].
  unfold bind.
  destruct (String.eqb (BaseAgent.input_type x) ""); [reflexivity |].
  destruct (BaseAgent.is_null (BaseAgent.data x)); [reflexivity |].
  unfold ret at 1 3. simpl. exact IH.
Qed.

(** The health flag commutes with everything [execute] does. *)
Lemma execute_admitted_ignores_healthy
    (process : list BaseAgent.AgentInput -> json -> Q -> BaseAgent.process_reply)
    (task_id : string) (inputs : list BaseAgent.AgentInput) (parameters : json)
    (t0 : Q) (b : bool) (a : BaseAgent.t) :
  BaseAgent.execute_admitted process task_id inputs parameters t0 (BaseAgent.with_healthy b a)
  = let '(r, a') := BaseAgent.execute_admitted process task_id inputs parameters t0 a in
    (r, BaseAgent.with_healthy b a').
Proof.
  unfold BaseAgent.execute_admitted, try_finally, try_except, bind, modify.
  rewrite (validate_inputs_pure inputs _ a).
  rewrite (validate_inputs_pure inputs (BaseAgent.with_current_tasks _ a) a).
  destruct (BaseAgent._validate_inputs inputs a).1 as [[] | e]; [| reflexivity].
  unfold BaseAgent.await_process, bind, gets, modify, reraise. simpl.
  destruct (BaseAgent.process_result (process inputs parameters (BaseAgent.clock a)));
    reflexivity.
Qed.

Lemma shutdown_wait_spec (polls : nat) (a : BaseAgent.t) :
  exists (ended : bool) (a' : BaseAgent.t),
    BaseAgent.shutdown_wait polls a = (Ok ended, a') /\
    BaseAgent.healthy a' = BaseAgent.healthy a /\
    BaseAgent.current_tasks a' = BaseAgent.current_tasks a /\
    BaseAgent._task_semaphore a' = BaseAgent._task_semaphore a /\
    (ended = true <-> BaseAgent.current_tasks a <= 0).
Proof.
  revert a. induction polls as [| k IH]; intros a; simpl; unfold bind, gets.
  - destruct (0 <? BaseAgent.current_tasks a)%Z eqn:E.
    + exists false, a. apply Z.ltb_lt in E.
      repeat split; try reflexivity; intros; try discriminate; lia.
    + exists true, a. apply Z.ltb_ge in E.
      repeat split; try reflexivity; intros; try reflexivity; assumption.
  - destruct (0 <? BaseAgent.current_tasks a)%Z eqn:E.
    + unfold modify.
      destruct (IH (BaseAgent.with_clock (fun c => (c + (1 # 10))%Q) a))
        as (ended & a' & E' & Hh & Hc & Hs & Hiff).
      exists ended, a'. rewrite E'. repeat split; try assumption; apply Hiff.
    + exists true, a. apply Z.ltb_ge in E.
      repeat split; try reflexivity; intros; try reflexivity; assumption.
Qed.

(** C8 (as amended): [shutdown] clears [healthy] and its loop ends exactly
    when [current_tasks] is not positive; [execute] never reads [healthy]:
    with the flag cleared (or set) it is admitted under the same condition,
    a free slot of the semaphore, runs [process] the same way and returns
    the same result.  No call is rejected for the worker being shut down. *)
Theorem execute_ignores_healthy
    (process : list BaseAgent.AgentInput -> json -> Q -> BaseAgent.process_reply)
    (task_id : string) (inputs : list BaseAgent.AgentInput) (parameters : json)
    (polls : nat) (b : bool) (a : BaseAgent.t) :
  (BaseAgent.execute process task_id inputs parameters (BaseAgent.with_healthy b a)
   = let '(r, a') := BaseAgent.execute process task_id inputs parameters a in
     (r, BaseAgent.with_healthy b a')) /\
  (exists (ended : bool) (a' : BaseAgent.t),
      BaseAgent.shutdown polls a = (Ok ended, a') /\
      BaseAgent.healthy a' = false /\
      BaseAgent.current_tasks a' = BaseAgent.current_tasks a /\
      BaseAgent._task_semaphore a' = BaseAgent._task_semaphore a /\
      (ended = true <-> BaseAgent.current_tasks a <= 0)).
Proof.
  split.
  - unfold BaseAgent.execute, bind, gets. simpl.
    destruct (BaseAgent._task_semaphore a <=? 0)%Z; [reflexivity |].
    unfold try_finally, modify.
    change (BaseAgent.with_semaphore (fun n => n - 1) (BaseAgent.with_healthy b a))
      with (BaseAgent.with_healthy b (BaseAgent.with_semaphore (fun n => n - 1) a)).
    change (BaseAgent.clock (BaseAgent.with_healthy b a)) with (BaseAgent.clock a).
    rewrite execute_admitted_ignores_healthy.
    destruct (BaseAgent.execute_admitted process task_id inputs parameters
                (BaseAgent.clock a) (BaseAgent.with_semaphore (fun n => n - 1) a))
      as [[r | e] a'']; reflexivity.
  - unfold BaseAgent.shutdown, bind, modify.
    destruct (shutdown_wait_spec polls (BaseAgent.with_healthy false a))
      as (ended & a' & E & Hh & Hc & Hs & Hiff).
    exists ended, a'. rewrite E. repeat split; try assumption; apply Hiff.
Qed.

(** ** The order of a sorted set *)

Lemma ascii_compare_trans (a b c : ascii) :
  Ascii.compare a b = Lt -> Ascii.compare b c = Lt -> Ascii.compare a c = Lt.
Proof.
  unfold Ascii.compare. rewrite !N.compare_lt_iff. lia.
Qed.

Lemma string_compare_trans (a b c : string) :
  String.compare a b = Lt -> String.compare b c = Lt -> String.compare a c = Lt.
Proof.
  revert b c. induction a as [| x a IH]; intros [| y b] [| z c]; simpl;
    try discriminate; try reflexivity.
  destruct (Ascii.compare x y) eqn:Exy; try discriminate.
  - apply Ascii.compare_eq_iff in Exy. subst y.
    destruct (Ascii.compare x z) eqn:Exz; try discriminate; [| reflexivity].
    intros H1 H2. exact (IH _ _ H1 H2).
  - destruct (Ascii.compare y z) eqn:Eyz; try discriminate.
    + apply Ascii.compare_eq_iff in Eyz. subst z. rewrite Exy. reflexivity.
    + rewrite (ascii_compare_trans _ _ _ Exy Eyz). reflexivity.
Qed.

Lemma string_leb_trans (a b c : string) :
  String.leb a b = true -> String.leb b c = true -> String.leb a c = true.
Proof.
  unfold String.leb.
  destruct (String.compare a b) eqn:Eab; try discriminate;
    destruct (String.compare b c) eqn:Ebc; try discriminate; intros _ _.
  - apply String.compare_eq_iff in Eab. subst b. rewrite Ebc. reflexivity.
  - apply String.compare_eq_iff in Eab. subst b. rewrite Ebc. reflexivity.
  - apply String.compare_eq_iff in Ebc. subst c. rewrite Eab. reflexivity.
  - rewrite (string_compare_trans _ _ _ Eab Ebc). reflexivity.
Qed.

Lemma string_ltb_leb (a b : string) : String.ltb a b = true -> String.leb a b = true.
Proof. unfold String.ltb, String.leb. destruct (String.compare a b); congruence. Qed.

Lemma string_ltb_false_leb (a b : string) : String.ltb a b = false -> String.leb b a = true.
Proof.
  unfold String.ltb, String.leb. rewrite (String.compare_antisym b a).
  destruct (String.compare a b); simpl; congruence.
Qed.

Lemma zset_le_iff (a b : string * Z) :
  zset_le a b = true <-> a.2 < b.2 \/ (a.2 = b.2 /\ String.leb a.1 b.1 = true).
Proof.
  unfold zset_le. rewrite orb_true_iff, andb_true_iff, Z.ltb_lt, Z.eqb_eq. reflexivity.
Qed.

Lemma zset_le_trans (a b c : string * Z) :
  zset_le a b = true -> zset_le b c = true -> zset_le a c = true.
Proof.
  rewrite !zset_le_iff. intros [H1 | [H1 L1]] [H2 | [H2 L2]]; try (left; lia).
  right. split; [lia | eapply string_leb_trans; eassumption].
Qed.

Lemma zset_le_refl (a : string * Z) : zset_le a a = true.
Proof.
  rewrite zset_le_iff. right. split; [reflexivity |].
  destruct (String.leb_total a.1 a.1); assumption.
Qed.

Lemma zset_lt_le (a b : string * Z) : zset_lt a b = true -> zset_le a b = true.
Proof.
  unfold zset_lt, zset_le. rewrite !orb_true_iff, !andb_true_iff.
  intros [H | [H1 H2]]; [left; exact H | right; split; [exact H1 |]].
  apply string_ltb_leb, H2.
Qed.

Lemma zset_lt_false_le (a b : string * Z) : zset_lt a b = false -> zset_le b a = true.
Proof.
  unfold zset_lt. rewrite orb_false_iff, andb_false_iff, Z.ltb_ge, Z.eqb_neq.
  intros [H1 H2]. apply zset_le_iff.
  destruct (Z.eq_dec a.2 b.2) as [E | NE]; [| left; lia].
  right. split; [congruence |].
  destruct H2 as [H2 | H2]; [contradiction | apply string_ltb_false_leb, H2].
Qed.

Lemma zset_min_fold (l : list (string * Z)) (acc : option (string * Z)) :
  match foldl zset_min_step acc l with
  | None => acc = None /\ l = []
  | Some x =>
      (acc = Some x \/ x ∈ l) /\
      (forall y, acc = Some y \/ y ∈ l -> zset_le x y = true)
  end.
Proof.
  revert acc. induction l as [| h l IH]; intros acc; simpl.
  - destruct acc as [x |]; [| split; reflexivity].
    split; [left; reflexivity |].
    intros y [[= ->] | Hy]; [apply zset_le_refl | apply elem_of_nil in Hy; contradiction].
  - specialize (IH (zset_min_step acc h)).
    destruct (foldl zset_min_step (zset_min_step acc h) l) as [x |].
    + destruct IH as [Hin Hle]. split.
      * destruct Hin as [Hin | Hin]; [| right; right; exact Hin].
        unfold zset_min_step in Hin. destruct acc as [b |].
        -- destruct (zset_lt h b); injection Hin as <-; [right; left | left; reflexivity].
        -- injection Hin as <-. right; left.
      * intros y Hy.
        assert (forall z, zset_min_step acc h = Some z ->
                          zset_le z h = true /\ (forall b, acc = Some b -> zset_le z b = true))
          as Hstep.
        { intros z Hz. unfold zset_min_step in Hz. destruct acc as [b |].
          - destruct (zset_lt h b) eqn:E; injection Hz as <-.
            + split; [apply zset_le_refl |]. intros b' [= <-]. apply zset_lt_le, E.
            + split; [apply zset_lt_false_le, E |]. intros b' [= <-]. apply zset_le_refl.
          - injection Hz as <-. split; [apply zset_le_refl | discriminate]. }
        destruct (zset_min_step acc h) as [z |] eqn:Ez.
        2: { destruct acc as [b |]; simpl in Ez; [destruct (zset_lt h b) |]; discriminate. }
        destruct (Hstep z eq_refl) as [Hzh Hzb].
        assert (zset_le x z = true) as Hxz by (apply Hle; left; reflexivity).
        destruct Hy as [Hy | Hy].
        -- eapply zset_le_trans; [exact Hxz | apply Hzb, Hy].
        -- apply elem_of_cons in Hy as [-> | Hy]; [| apply Hle; right; exact Hy].
           eapply zset_le_trans; eassumption.
    + destruct IH as [Hacc _]. destruct acc as [b |]; simpl in Hacc;
        [destruct (zset_lt h b) |]; discriminate.
Qed.

(** [ZPOPMIN] takes the member that is first by score, then by name. *)
Lemma zset_min_spec (z : gmap string Z) :
  match zset_min z with
  | None => z = ∅
  | Some (m, s) =>
      z !! m = Some s /\
      forall m' s', z !! m' = Some s' ->
        s <= s' /\ (s = s' -> String.leb m m' = true)
  end.
Proof.
  unfold zset_min. pose proof (zset_min_fold (map_to_list z) None) as H.
  destruct (foldl zset_min_step None (map_to_list z)) as [[m s] |].
  - destruct H as [[H | Hin] Hle]; [discriminate |].
    split; [apply elem_of_map_to_list, Hin |].
    intros m' s' L.
    assert (zset_le (m, s) (m', s') = true) as Hms.
    { apply Hle. right. apply elem_of_map_to_list, L. }
    apply zset_le_iff in Hms. simpl in Hms.
    destruct Hms as [Hlt | [E Hleb]].
    + split; [lia | intros; lia].
    + split; [lia | intros; exact Hleb].
  - destruct H as [_ H]. apply map_to_list_empty_iff, H.
Qed.

(** ** The priority queue (C5) *)

Lemma create_task_unfold (t : TaskState) (w : world) :
  RedisStateManager.create_task t w =
  match next_fault w with
  | Some _ => (Ok false, tick w)
  | None =>
      (Ok true,
       redis_zadd (task_type t) (task_id t) (priority t)
         (with_tasks (insert (task_id t) t) (tick w)))
  end.
Proof.
  unfold RedisStateManager.create_task, try_except, bind, redis_pipeline_set_zadd.
  rewrite backend_modify. destruct (next_fault w); reflexivity.
Qed.

Lemma get_next_task_unfold (tt : string) (w : world) :
  RedisStateManager.get_next_task tt w =
  match next_fault w with
  | Some _ => (Ok None, tick w)
  | None =>
      match zset_min (queue w tt) with
      | None => (Ok None, tick w)
      | Some (m, _) =>
          (Ok (Some m), with_queues (insert tt (delete m (queue w tt))) (tick w))
      end
  end.
Proof.
  unfold RedisStateManager.get_next_task, try_except, bind.
  rewrite backend_unfold. destruct (next_fault w); [reflexivity |].
  unfold redis_zpopmin, queue.
  change (db_queues (tick w)) with (db_queues w).
  destruct (zset_min (default ∅ (db_queues w !! tt))) as [[m s] |]; reflexivity.
Qed.

(** C5 (the example of the claim): ids enqueued with priorities 9, 1, 5 come
    out with priority 1 first, then 5, then 9, and then the queue is empty. *)
Example drain_9_1_5 :
  fst ((enqueue_9_1_5 ;;; drain 4 "data_analysis") empty_world)
  = Ok [Some "t-second"; Some "t-third"; Some "t-first"; None].
Proof. vm_compute. reflexivity. Qed.

(** C5 (counterexample): the claim returns ids of equal priority in
    insertion order; with "task-b" enqueued before "task-a", both at
    priority 5, the first pop returns "task-a". *)
Lemma equal_priority_is_not_fifo :
  ~ (forall (first second : TaskState) (w0 w1 w2 w3 : world) (r : option string),
       quiet w0 -> queue w0 (task_type first) = ∅ ->
       task_type second = task_type first ->
       priority second = priority first ->
       task_id second <> task_id first ->
       RedisStateManager.create_task first w0 = (Ok true, w1) ->
       RedisStateManager.create_task second w1 = (Ok true, w2) ->
       RedisStateManager.get_next_task (task_type first) w2 = (Ok r, w3) ->
       r = Some (task_id first)).
Proof.
  intros H.
  pose (w1 := snd (RedisStateManager.create_task (queued_task "task-b" 5) empty_world)).
  pose (w2 := snd (RedisStateManager.create_task (queued_task "task-a" 5) w1)).
  pose (w3 := snd (RedisStateManager.get_next_task "data_analysis" w2)).
  specialize (H (queued_task "task-b" 5) (queued_task "task-a" 5)
                empty_world w1 w2 w3 (Some "task-a")).
  assert (Some "task-a" = Some "task-b") as E; [| discriminate E].
  apply H; try (vm_compute; reflexivity). discriminate.
Qed.

(** The two queue operations on a backend that answers. *)
Lemma queue_operations (tt : string) (w : world) :
  quiet w ->
  (forall t : TaskState,
      exists w',
        RedisStateManager.create_task t w = (Ok true, w') /\
        queue w' (task_type t) = <[task_id t := priority t]> (queue w (task_type t)) /\
        quiet w') /\
  (exists (r : option string) (w' : world),
      RedisStateManager.get_next_task tt w = (Ok r, w') /\
      quiet w' /\
      match r with
      | None => queue w tt = ∅ /\ queue w' tt = ∅
      | Some id =>
          exists p,
            queue w tt !! id = Some p /\
            (forall id' p', queue w tt !! id' = Some p' ->
                            p <= p' /\ (p = p' -> String.leb id id' = true)) /\
            queue w' tt = delete id (queue w tt)
      end).
Proof.
  intros Hq. split.
  - intros t. rewrite create_task_unfold, (quiet_next_fault w Hq), (quiet_tick w Hq).
    eexists. split; [reflexivity |]. split; [| exact Hq].
    unfold queue, redis_zadd. simpl. rewrite lookup_insert_eq. reflexivity.
  - rewrite get_next_task_unfold, (quiet_next_fault w Hq), (quiet_tick w Hq).
    pose proof (zset_min_spec (queue w tt)) as Hmin.
    destruct (zset_min (queue w tt)) as [[m s] |].
    + exists (Some m). eexists. split; [reflexivity |]. split; [exact Hq |].
      destruct Hmin as [L Hle]. exists s. split; [exact L |]. split; [exact Hle |].
      unfold queue at 1. simpl. rewrite lookup_insert_eq. reflexivity.
    + exists None, w. split; [reflexivity |]. split; [exact Hq |]. split; exact Hmin.
Qed.

(** C5 (as amended): on a backend that answers, [create_task] puts the id
    into the queue of its task type with its priority as score (an id
    already queued keeps one entry, with the new score), and
    [get_next_task] removes and returns an id of minimum priority among
    those queued; among ids of equal priority it returns the one whose name
    is first in lexicographic order, not the one enqueued first.  On an
    empty queue it returns [None]. *)
Theorem get_next_task_pops_least (tt : string) (w : world) :
  quiet w ->
  (forall t : TaskState,
      exists w',
        RedisStateManager.create_task t w = (Ok true, w') /\
        queue w' (task_type t) = <[task_id t := priority t]> (queue w (task_type t)) /\
        quiet w') /\
  (exists (r : option string) (w' : world),
      RedisStateManager.get_next_task tt w = (Ok r, w') /\
      quiet w' /\
      match r with
      | None => queue w tt = ∅ /\ queue w' tt = ∅
      | Some id =>
          exists p,
            queue w tt !! id = Some p /\
            (forall id' p', queue w tt !! id' = Some p' ->
                            p <= p' /\ (p = p' -> String.leb id id' = true)) /\
            queue w' tt = delete id (queue w tt)
      end).
Proof. exact (queue_operations tt w). Qed.

(** Two pops in a row, with nothing enqueued in between, come out in
    non-decreasing priority, and in the order of their names at equal
    priority. *)
Lemma successive_pops_ordered (tt : string) (w w1 w2 : world) (id1 id2 : string) :
  quiet w ->
  RedisStateManager.get_next_task tt w = (Ok (Some id1), w1) ->
  RedisStateManager.get_next_task tt w1 = (Ok (Some id2), w2) ->
  exists p1 p2,
    queue w tt !! id1 = Some p1 /\ queue w tt !! id2 = Some p2 /\
    id1 <> id2 /\ p1 <= p2 /\ (p1 = p2 -> String.leb id1 id2 = true).
Proof.
  intros Hq E1 E2.
  destruct (queue_operations tt w Hq) as [_ (r & w' & E & Hq' & Hr)].
  rewrite E1 in E. injection E as <- <-.
  destruct Hr as (p1 & L1 & Hmin & Hdel).
  destruct (queue_operations tt w1 Hq') as [_ (r & w' & E & _ & Hr)].
  rewrite E2 in E. injection E as <- <-.
  destruct Hr as (p2 & L2 & _ & _).
  rewrite Hdel in L2. apply lookup_delete_Some in L2 as [Hne L2].
  exists p1, p2. destruct (Hmin id2 p2 L2) as [Hle Htie]. auto.
Qed.

Lemma get_next_task_pops_least_witness :
  exists (r : option string) (w' : world),
    RedisStateManager.get_next_task "data_analysis" (snd (enqueue_tie empty_world))
      = (Ok r, w') /\
    quiet w' /\
    match r with
    | None =>
        queue (snd (enqueue_tie empty_world)) "data_analysis" = ∅ /\
        queue w' "data_analysis" = ∅
    | Some id =>
        exists p,
          queue (snd (enqueue_tie empty_world)) "data_analysis" !! id = Some p /\
          (forall id' p',
              queue (snd (enqueue_tie empty_world)) "data_analysis" !! id' = Some p' ->
              p <= p' /\ (p = p' -> String.leb id id' = true)) /\
          queue w' "data_analysis" = delete id (queue (snd (enqueue_tie empty_world)) "data_analysis")
    end.
Proof.
  exact (proj2 (get_next_task_pops_least "data_analysis" (snd (enqueue_tie empty_world))
                  eq_refl)).
Defined.

(** ** Worker selection (C7) *)

Lemma same_agents_refl w : same_agents w w.
Proof. repeat split. Qed.

Lemma same_agents_tick w : same_agents w (tick w).
Proof. repeat split. Qed.

Lemma same_agents_trans w1 w2 w3 :
  same_agents w1 w2 -> same_agents w2 w3 -> same_agents w1 w3.
Proof. unfold same_agents. intros (? & ? & ?) (? & ? & ?). repeat split; congruence. Qed.

Lemma is_available_iff (t : Q) (a : AgentInfo) :
  is_available t a = true <-> available_at t a.
Proof.
  unfold is_available, available_at, Qltb.
  rewrite !andb_true_iff, !negb_true_iff, negb_false_iff, Qle_bool_iff, Z.leb_gt.
  tauto.
Qed.

Lemma collect_healthy_spec (ids : list string) (acc : list AgentInfo) (w : world) :
  exists (l : list AgentInfo) (w' : world),
    fold_m (fun agents agent_id =>
              agent <~ RedisStateManager.get_agent agent_id ;;
              match agent with
              | Some agent => if healthy agent then ret (agents ++ [agent])%list else ret agents
              | None => ret agents
              end) ids acc w = (Ok l, w') /\
    same_agents w w' /\
    forall a, a ∈ l ->
      a ∈ acc \/ (healthy a = true /\ exists id, id ∈ ids /\ db_agents w !! id = Some a).
Proof.
  revert acc w. induction ids as [| id ids IH]; intros acc w; simpl.
  - exists acc, w. split; [reflexivity |]. split; [apply same_agents_refl |]. auto.
  - unfold bind at 1. unfold bind at 1. rewrite get_agent_unfold.
    set (found := match next_fault w with Some _ => None | None => db_agents w !! id end).
    assert (forall a, found = Some a -> db_agents w !! id = Some a) as Hfound.
    { unfold found. destruct (next_fault w); [discriminate | auto]. }
    destruct found as [a0 |] eqn:Ef.
    + destruct (healthy a0) eqn:Eh; unfold ret at 1.
      * destruct (IH (acc ++ [a0])%list (tick w)) as (l & w' & E & Hs & Hl).
        exists l, w'. split; [exact E |].
        split; [eapply same_agents_trans; [apply same_agents_tick | exact Hs] |].
        intros a Ha. destruct (Hl a Ha) as [Hin | (Hh & id' & Hid & L)].
        -- apply elem_of_app in Hin as [Hin | Hin]; [left; exact Hin |].
           apply list_elem_of_singleton in Hin as ->.
           right. split; [exact Eh |]. exists id. split; [left | auto].
        -- right. split; [exact Hh |]. exists id'. split; [right; exact Hid | exact L].
      * destruct (IH acc (tick w)) as (l & w' & E & Hs & Hl).
        exists l, w'. split; [exact E |].
        split; [eapply same_agents_trans; [apply same_agents_tick | exact Hs] |].
        intros a Ha. destruct (Hl a Ha) as [Hin | (Hh & id' & Hid & L)]; [left; exact Hin |].
        right. split; [exact Hh |]. exists id'. split; [right; exact Hid | exact L].
    + unfold ret at 1.
      destruct (IH acc (tick w)) as (l & w' & E & Hs & Hl).
      exists l, w'. split; [exact E |].
      split; [eapply same_agents_trans; [apply same_agents_tick | exact Hs] |].
      intros a Ha. destruct (Hl a Ha) as [Hin | (Hh & id' & Hid & L)]; [left; exact Hin |].
      right. split; [exact Hh |]. exists id'. split; [right; exact Hid | exact L].
Qed.

(** [get_agents_by_type] returns records stored for the capability whose
    [healthy] flag is set, and leaves the agents as they are. *)
Lemma get_agents_by_type_spec (ty : string) (w : world) :
  exists (l : list AgentInfo) (w' : world),
    RedisStateManager.get_agents_by_type ty w = (Ok l, w') /\
    same_agents w w' /\
    forall a, a ∈ l -> healthy a = true /\ registered w ty a.
Proof.
  unfold RedisStateManager.get_agents_by_type, redis_smembers.
  rewrite try_except_run, bind_run, backend_gets. destruct (next_fault w).
  - exists [], (tick w). split; [reflexivity |]. split; [apply same_agents_tick |].
    intros a Ha. apply elem_of_nil in Ha. contradiction.
  - destruct (collect_healthy_spec
                (elements (default ∅ (db_agent_types (tick w) !! ty))) [] (tick w))
      as (l & w' & E & Hs & Hl).
    rewrite E. exists l, w'. split; [reflexivity |].
    split; [eapply same_agents_trans; [apply same_agents_tick | exact Hs] |].
    intros a Ha. destruct (Hl a Ha) as [Hin | (Hh & id & Hid & L)].
    + apply elem_of_nil in Hin. contradiction.
    + split; [exact Hh |]. exists id. split; [| exact L].
      apply elem_of_elements in Hid. exact Hid.
Qed.

Lemma filter_available_unfold (agents acc : list AgentInfo) (w : world) :
  fold_m (fun acc agent =>
            ok <~ LoadBalancer._is_agent_available agent ;;
            if ok : bool then ret (acc ++ [agent])%list else ret acc)
         agents acc w
  = (Ok (acc ++ filter (fun a => is_available (now w) a = true) agents)%list, w).
Proof.
  revert acc. induction agents as [| a agents IH]; intros acc; simpl.
  - rewrite app_nil_r. reflexivity.
  - unfold bind at 1. unfold bind at 1.
    assert (LoadBalancer._is_agent_available a w = (Ok (is_available (now w) a), w)) as ->.
    { unfold LoadBalancer._is_agent_available, is_available.
      destruct (healthy a); simpl; [| reflexivity].
      unfold bind, time_time, gets.
      destruct (Qltb 30 (now w - last_heartbeat a)); simpl; [reflexivity |].
      destruct (max_concurrent_tasks a <=? current_tasks a)%Z; reflexivity. }
    rewrite filter_cons.
    destruct (is_available (now w) a) eqn:E; unfold ret at 1.
    + rewrite IH. destruct (decide (true = true)); [| congruence].
      rewrite <- app_assoc. reflexivity.
    + rewrite IH. destruct (decide (false = true)); [discriminate | reflexivity].
Qed.

Lemma sorted_by_head_in {A} (leb : A -> A -> bool) (l : list A) (x : A) (rest : list A) :
  sorted_by leb l = x :: rest -> x ∈ l.
Proof.
  intros E. pose proof (sorted_by_perm leb l) as P. rewrite E in P.
  rewrite <- P. left.
Qed.

Lemma select_least_loaded_in (l : list AgentInfo) (p p' : process) (a : AgentInfo) :
  LoadBalancer._select_least_loaded l p = (Ok a, p') -> a ∈ l.
Proof.
  unfold LoadBalancer._select_least_loaded.
  destruct (sorted_by _ l) as [| x rest] eqn:E; [discriminate |].
  intros [= <- _]. eapply sorted_by_head_in; exact E.
Qed.

Lemma select_round_robin_in (ty : string) (l : list AgentInfo) (p p' : process)
    (a : AgentInfo) :
  LoadBalancer._select_round_robin ty l p = (Ok a, p') -> a ∈ l.
Proof.
  unfold LoadBalancer._select_round_robin. run.
  destruct (round_robin_counters p !! ty); run;
    (destruct l as [| x rest]; run; [discriminate |]);
    match goal with
    | |- context [(?l0 !! ?i)] => destruct (l0 !! i) as [y |] eqn:L
    end; run; try discriminate;
    intros [= <- _]; eapply list_elem_of_lookup_2; exact L.
Qed.

Lemma select_weighted_in (l : list AgentInfo) (p p' : process) (a : AgentInfo) :
  LoadBalancer._select_weighted l p = (Ok a, p') -> a ∈ l.
Proof.
  unfold LoadBalancer._select_weighted.
  destruct (sorted_by _ (map _ l)) as [| [q x] rest] eqn:E; [discriminate |].
  intros [= <- _].
  assert ((q, x) ∈ map (fun agent => (LoadBalancer.weighted_score agent, agent)) l) as Hin.
  { eapply sorted_by_head_in; exact E. }
  apply list_elem_of_fmap in Hin as (y & [= _ ->] & Hy). exact Hy.
Qed.

Lemma select_random_in (l : list AgentInfo) (p p' : process) (a : AgentInfo) :
  LoadBalancer._select_random l p = (Ok a, p') -> a ∈ l.
Proof.
  unfold LoadBalancer._select_random. run.
  destruct l as [| x rest]; run; [discriminate |].
  match goal with
  | |- context [(?l0 !! ?i)] => destruct (l0 !! i) as [y |] eqn:L
  end; run; try discriminate.
  intros [= <- _]. eapply list_elem_of_lookup_2; exact L.
Qed.

Lemma select_strategy_in (ty : string) (l : list AgentInfo) (p p' : process)
    (a : AgentInfo) :
  match strategy p with
  | LEAST_LOADED => LoadBalancer._select_least_loaded l
  | ROUND_ROBIN => LoadBalancer._select_round_robin ty l
  | WEIGHTED => LoadBalancer._select_weighted l
  | RANDOM => LoadBalancer._select_random l
  end p = (Ok a, p') -> a ∈ l.
Proof.
  destruct (strategy p);
    [apply select_round_robin_in | apply select_least_loaded_in
    | apply select_random_in | apply select_weighted_in].
Qed.

Lemma select_tail (ty : string) (av : list AgentInfo) (q : process) :
  let m := (selected <~ match strategy q with
                        | LEAST_LOADED => LoadBalancer._select_least_loaded av
                        | ROUND_ROBIN => LoadBalancer._select_round_robin ty av
                        | WEIGHTED => LoadBalancer._select_weighted av
                        | RANDOM => LoadBalancer._select_random av
                        end ;;
            ret (Some selected)) in
  (exists a q', m q = (Ok (Some a), q') /\ a ∈ av) \/ (exists e q', m q = (Raise e, q')).
Proof.
  cbv zeta. rewrite bind_run.
  destruct (match strategy q with
            | LEAST_LOADED => LoadBalancer._select_least_loaded av
            | ROUND_ROBIN => LoadBalancer._select_round_robin ty av
            | WEIGHTED => LoadBalancer._select_weighted av
            | RANDOM => LoadBalancer._select_random av
            end q) as [[a | e] q'] eqn:Es.
  - left. exists a, q'. split; [reflexivity |]. eapply select_strategy_in; exact Es.
  - right. exists e, q'. reflexivity.
Qed.

(** C7: [select_agent] always returns; an agent it returns is a stored
    record of the requested capability with [healthy] set, a heartbeat at
    most 30 s old and [current_tasks < max_concurrent_tasks]; when no record
    of the capability meets the three conditions it returns [None].  So a
    worker whose heartbeat is more than 30 s old is not selected, healthy
    or not. *)
Theorem select_agent_available (ty : string) (p : process) :
  exists (r : option AgentInfo) (p' : process),
    LoadBalancer.select_agent ty p = (Ok r, p') /\
    (forall a, r = Some a ->
       registered (store p) ty a /\
       healthy a = true /\
       (now (store p) - last_heartbeat a <= 30)%Q /\
       current_tasks a < max_concurrent_tasks a) /\
    ((forall a, registered (store p) ty a -> ~ available_at (now (store p)) a) ->
     r = None).
Proof.
  assert (exists (r : option AgentInfo) (p' : process),
            LoadBalancer.select_agent ty p = (Ok r, p') /\
            forall a, r = Some a ->
              registered (store p) ty a /\ available_at (now (store p)) a) as H.
  { unfold LoadBalancer.select_agent.
    rewrite try_except_run, bind_run, in_store_unfold.
    destruct (get_agents_by_type_spec ty (store p)) as (l & w' & E & (Hdb & Hty & Hnow) & Hl).
    rewrite E. cbn [fst snd]. cbv beta iota.
    destruct l as [| a0 l0].
    { run. exists None. eexists. split; [reflexivity | discriminate]. }
    set (l := a0 :: l0) in *.
    rewrite bind_run, in_store_unfold.
    unfold LoadBalancer.filter_available. rewrite filter_available_unfold.
    cbn [fst snd store with_store app]. cbv beta iota.
    destruct (filter (fun a => is_available (now w') a = true) l) as [| b0 av0] eqn:Ef.
    { run. exists None. eexists. split; [reflexivity | discriminate]. }
    set (av := b0 :: av0) in *.
    rewrite bind_run, gets_run. cbv beta iota.
    match goal with
    | |- context [strategy ?q] =>
        destruct (select_tail ty av q) as [(a & p'' & Es & Hin) | (e & p'' & Es)];
        cbv zeta in Es; rewrite Es
    end.
    - exists (Some a), p''. split; [reflexivity |].
      intros a' [= <-].
      subst av. rewrite <- Ef in Hin.
      apply list_elem_of_filter in Hin as [Hav Hin].
      apply is_available_iff in Hav. rewrite Hnow in Hav.
      split; [apply Hl, Hin | exact Hav].
    - run. exists None. eexists. split; [reflexivity | discriminate]. }
  destruct H as (r & p' & E & Hr). exists r, p'. split; [exact E |]. split.
  - intros a Ha. destruct (Hr a Ha) as [Hreg (Hh & Hhb & Hc)]. auto.
  - intros Hnone. destruct r as [a |]; [| reflexivity].
    destruct (Hr a eq_refl) as [Hreg Hav]. exfalso. exact (Hnone a Hreg Hav).
Qed.

(** A healthy worker with a heartbeat 31 s old is passed over for a busier
    worker with a fresh one, under each strategy. *)
Example stale_worker_not_selected :
  forall s : LoadBalancingStrategy,
    fst (LoadBalancer.select_agent "data_analysis" (process_on stale_and_fresh s))
    = Ok (Some (agent_record "w-fresh" "data_analysis" 10 7 95)).
Proof. intros s. destruct s; vm_compute; reflexivity. Qed.

(** ** Exceptions of the backend (C10) *)

(** C10 (counterexample): the claim lets no public operation propagate a
    backend exception; [release_lock] catches [LockError] only, and a
    [ConnectionError] raised while releasing reaches the caller. *)
Lemma release_lock_propagates :
  ~ (forall lock : lock_handle, total (RedisStateManager.release_lock lock)).
Proof.
  intros H. destruct (H (mkHandle "lock:x" 0) unreachable) as (b & w' & E & _).
  vm_compute in E. discriminate E.
Qed.

(** [subscribe_to_task_updates] has no handler at all. *)
Example subscribe_propagates :
  fst (RedisStateManager.subscribe_to_task_updates "t1" unreachable)
  = Raise (Exn ConnectionError "Connection refused").
Proof. reflexivity. Qed.

(** An exception inside the nested [get_agent] is absorbed there:
    [get_agents_by_type] then returns the other agents, not the empty list. *)
Example get_agents_by_type_skips_on_fault :
  map agent_id (match fst (RedisStateManager.get_agents_by_type "data_analysis"
                             second_call_fails) with
                | Ok l => l
                | Raise _ => []
                end)
  = ["w-fresh"].
Proof. vm_compute. reflexivity. Qed.

Lemma total_handler_ret {A} (body : M world A) (v : A) :
  total (try_except body (fun _ => ret v)).
Proof. apply total_try_except. intros e. apply returns_ret. exact I. Qed.

Lemma fails_to_backend_first {A B} (op : M world A) (k : A -> M world B) (v : B) :
  fails_to (try_except (bind (backend op) k) (fun _ => ret v)) v.
Proof.
  split; [apply total_handler_ret |].
  intros w [e He]. rewrite try_except_run, bind_run, backend_unfold, He. reflexivity.
Qed.

Lemma fails_to_backend_only {A} (op : M world A) (v : A) :
  fails_to (try_except (backend op) (fun _ => ret v)) v.
Proof.
  split; [apply total_handler_ret |].
  intros w [e He]. rewrite try_except_run, backend_unfold, He. reflexivity.
Qed.

Lemma answered_3 (w : world) :
  next_fault w = None -> next_fault (tick w) = None ->
  next_fault (tick (tick w)) = None -> answered 3 w.
Proof.
  unfold answered, next_fault, tick. destruct w as [? ? ? ? ? ? ? ? ? fs ?]. simpl.
  destruct fs as [| [e |] [| [e' |] [| [e'' |] fs]]]; simpl; intros; try discriminate;
    repeat constructor.
Qed.

Lemma answered_2 (w : world) :
  next_fault w = None -> next_fault (tick w) = None -> answered 2 w.
Proof.
  unfold answered, next_fault, tick. destruct w as [? ? ? ? ? ? ? ? ? fs ?]. simpl.
  destruct fs as [| [e |] [| [e' |] fs]]; simpl; intros; try discriminate;
    repeat constructor.
Qed.

Lemma add_agent_execution_unfold (id : string) (x : json) (w : world) :
  RedisStateManager.add_agent_execution id x w =
  match next_fault w, db_tasks w !! id with
  | None, Some task =>
      match next_fault (tick w) with
      | None =>
          (Ok true,
           with_tasks
             (insert id (set_updated_at (now w)
                           (set_agent_executions (agent_executions task ++ [x])%list task)))
             (tick (tick w)))
      | Some _ => (Ok false, tick (tick w))
      end
  | _, _ => (Ok false, tick w)
  end.
Proof.
  unfold RedisStateManager.add_agent_execution.
  rewrite try_except_run, bind_run, get_task_unfold.
  destruct (next_fault w); [reflexivity |].
  destruct (db_tasks w !! id) as [task |]; [| reflexivity].
  run. unfold time_time, redis_set_task. run. rewrite backend_modify.
  destruct (next_fault (tick w)); reflexivity.
Qed.

Lemma register_agent_unfold (a : AgentInfo) (w : world) :
  RedisStateManager.register_agent a w =
  match next_fault w with
  | Some _ => (Ok false, tick w)
  | None =>
      let w1 := with_agents (insert (agent_id a) a) (tick w) in
      match next_fault w1 with
      | Some _ => (Ok false, tick w1)
      | None =>
          (Ok true,
           with_agent_types
             (fun ix => <[agent_type a :=
                            {[agent_id a]} ∪ default ∅ (ix !! agent_type a)]> ix)
             (tick w1))
      end
  end.
Proof.
  unfold RedisStateManager.register_agent, redis_set_agent, redis_sadd.
  rewrite try_except_run, bind_run, backend_modify.
  destruct (next_fault w); [reflexivity |].
  cbv beta iota zeta. rewrite bind_run, backend_modify.
  destruct (next_fault (with_agents _ (tick w))); reflexivity.
Qed.

Lemma update_agent_heartbeat_unfold (id : string) (w : world) :
  RedisStateManager.update_agent_heartbeat id w =
  match next_fault w, db_agents w !! id with
  | None, Some a =>
      match next_fault (tick w) with
      | None =>
          (Ok true, with_agents (insert id (set_last_heartbeat (now w) a)) (tick (tick w)))
      | Some _ => (Ok false, tick (tick w))
      end
  | _, _ => (Ok false, tick w)
  end.
Proof.
  unfold RedisStateManager.update_agent_heartbeat.
  rewrite try_except_run, bind_run, get_agent_unfold.
  destruct (next_fault w); [reflexivity |].
  destruct (db_agents w !! id) as [a |]; [| reflexivity].
  run. unfold time_time, redis_set_agent. run. rewrite backend_modify.
  destruct (next_fault (tick w)); reflexivity.
Qed.

Lemma fails_to_of_unfold {A} (m : M world A) (v : A) :
  total m ->
  (forall w e, next_fault w = Some e -> fst (m w) = Ok v) ->
  fails_to m v.
Proof. intros Ht Hf. split; [exact Ht |]. intros w [e He]. eapply Hf; exact He. Qed.

Lemma acquire_lock_fails_to (name : string) (timeout : Z) :
  fails_to (RedisStateManager.acquire_lock name timeout) None.
Proof.
  apply fails_to_of_unfold; [apply total_handler_ret |].
  intros w e He. unfold RedisStateManager.acquire_lock.
  rewrite try_except_run, bind_run, gets_run. cbv beta iota.
  rewrite bind_run, modify_run. cbv beta iota. rewrite bind_run.
  assert (forall polls key token w0,
            next_fault w0 = Some e ->
            lock_acquire polls key token timeout w0 = (Raise e, tick w0)) as Hloop.
  { intros polls key token w0 H0. destruct polls; simpl;
      rewrite bind_run; unfold redis_lock_try; rewrite backend_unfold, H0; reflexivity. }
  rewrite Hloop; [reflexivity | exact He].
Qed.

Lemma fault_at_next (w : world) : fault_at 0 w = false <-> next_fault w = None.
Proof.
  unfold fault_at, next_fault. destruct (faults w) as [| [e |] rest]; simpl; split;
    intros H; try reflexivity; discriminate H.
Qed.

Lemma fault_at_tick (k : nat) (w : world) : fault_at k (tick w) = fault_at (S k) w.
Proof.
  unfold fault_at, tick. destruct w as [? ? ? ? ? ? ? ? ? fs ?]; simpl.
  destruct fs as [| f rest]; [destruct k |]; reflexivity.
Qed.

(** The loop of [get_agents_by_type] under any fault schedule: the read
    number [i] adds the record of the [i]-th id when it is answered, the
    record exists and is healthy, and adds nothing otherwise; the loop goes
    on either way. *)
Lemma collect_healthy_faults (ids : list string) (acc : list AgentInfo) (w : world) :
  exists (l : list AgentInfo) (w' : world),
    fold_m (fun agents agent_id =>
              agent <~ RedisStateManager.get_agent agent_id ;;
              match agent with
              | Some agent => if healthy agent then ret (agents ++ [agent])%list else ret agents
              | None => ret agents
              end) ids acc w = (Ok l, w') /\
    forall a, a ∈ l <->
      a ∈ acc \/
      (healthy a = true /\
       exists (i : nat) (id : string),
         ids !! i = Some id /\ db_agents w !! id = Some a /\ fault_at i w = false).
Proof.
  revert acc w. induction ids as [| id ids IH]; intros acc w.
  - exists acc, w. split; [reflexivity |]. intros a. split; [auto |].
    intros [H | (_ & i & id & L & _)]; [exact H | destruct i; discriminate L].
  - cbn [fold_m]. rewrite bind_run, bind_run, get_agent_unfold.
    assert (forall acc',
               (forall a, a ∈ acc' <->
                  a ∈ acc \/
                  (healthy a = true /\ db_agents w !! id = Some a /\ fault_at 0 w = false)) ->
               exists l w',
                 fold_m (fun agents agent_id =>
                           agent <~ RedisStateManager.get_agent agent_id ;;
                           match agent with
                           | Some agent =>
                               if healthy agent then ret (agents ++ [agent])%list
                               else ret agents
                           | None => ret agents
                           end) ids acc' (tick w) = (Ok l, w') /\
                 forall a, a ∈ l <->
                   a ∈ acc \/
                   (healthy a = true /\
                    exists (i : nat) (id' : string),
                      (id :: ids) !! i = Some id' /\ db_agents w !! id' = Some a /\
                      fault_at i w = false)) as Hstep.
    { intros acc' Hacc'. destruct (IH acc' (tick w)) as (l & w' & E & Hl).
      exists l, w'. split; [exact E |]. intros a. rewrite Hl, Hacc'. split.
      - intros [[H | (Hh & L & F)] | (Hh & i & id' & L & D & F)].
        + left. exact H.
        + right. split; [exact Hh |]. exists 0%nat, id. auto.
        + right. split; [exact Hh |]. exists (S i), id'. rewrite <- fault_at_tick. auto.
      - intros [H | (Hh & [| i] & id' & L & D & F)].
        + left. left. exact H.
        + injection L as <-. left. right. auto.
        + right. split; [exact Hh |]. exists i, id'. rewrite fault_at_tick. auto. }
    destruct (next_fault w) as [e |] eqn:F.
    + rewrite ret_run. apply Hstep. intros a. split; [auto |].
      intros [H | (_ & _ & F0)]; [exact H |].
      apply fault_at_next in F0. congruence.
    + apply fault_at_next in F.
      destruct (db_agents w !! id) as [a0 |] eqn:D.
      * destruct (healthy a0) eqn:Hh; rewrite ret_run; apply Hstep; intros a.
        -- rewrite elem_of_app, list_elem_of_singleton. split.
           ++ intros [H | ->]; [left; exact H | right; auto].
           ++ intros [H | (_ & [= ->] & _)]; [left; exact H | right; reflexivity].
        -- split; [auto |]. intros [H | (Hh' & [= ->] & _)]; [exact H | congruence].
      * rewrite ret_run. apply Hstep. intros a. split; [auto |].
        intros [H | (_ & D' & _)]; [exact H | discriminate D'].
Qed.

(** [get_agents_by_type] when the listing of the ids is answered: a read of
    a record that raises drops that record only. *)
Lemma get_agents_by_type_faults (ty : string) (w : world) :
  next_fault w = None ->
  exists (l : list AgentInfo) (w' : world),
    RedisStateManager.get_agents_by_type ty w = (Ok l, w') /\
    forall a, a ∈ l <->
      healthy a = true /\
      exists (i : nat) (id : string),
        elements (default ∅ (db_agent_types w !! ty)) !! i = Some id /\
        db_agents w !! id = Some a /\ fault_at (S i) w = false.
Proof.
  intros F. unfold RedisStateManager.get_agents_by_type, redis_smembers.
  rewrite try_except_run, bind_run, backend_gets, F.
  destruct (collect_healthy_faults
              (elements (default ∅ (db_agent_types (tick w) !! ty))) [] (tick w))
    as (l & w' & E & Hl).
  rewrite E. exists l, w'. split; [reflexivity |].
  intros a. rewrite Hl. split.
  - intros [H | (Hh & i & id & L & D & Fi)]; [apply elem_of_nil in H; contradiction |].
    split; [exact Hh |]. exists i, id. rewrite <- fault_at_tick. auto.
  - intros (Hh & i & id & L & D & Fi). right. split; [exact Hh |].
    exists i, id. rewrite fault_at_tick. auto.
Qed.

(** [release_lock] lets every exception but [LockError] through. *)
Lemma release_lock_raises (lock : lock_handle) (w : world) (e : exn) :
  next_fault w = Some e -> is_LockError e = false ->
  fst (RedisStateManager.release_lock lock w) = Raise e.
Proof.
  intros F Hcls. unfold RedisStateManager.release_lock, try_except_only, redis_lock_release.
  rewrite bind_run, backend_unfold, F. cbn [fst]. rewrite Hcls. reflexivity.
Qed.

(** [subscribe_to_task_updates] lets every exception through. *)
Lemma subscribe_raises (id : string) (w : world) (e : exn) :
  next_fault w = Some e ->
  fst (RedisStateManager.subscribe_to_task_updates id w) = Raise e.
Proof.
  intros F. unfold RedisStateManager.subscribe_to_task_updates, redis_subscribe.
  rewrite backend_unfold, F. reflexivity.
Qed.

(** C10 (as amended): the operations of [RedisStateManager] that wrap their
    whole body in [try ... except Exception] never raise: [create_task],
    [update_task_status], [add_agent_execution], [register_agent],
    [update_agent_heartbeat] and [increment_agent_tasks] return [False],
    [get_task], [get_agent], [get_next_task], [acquire_lock] and
    [get_metric] return [None], [get_agents_by_type] returns the empty list,
    [get_queue_length] returns 0 and [health_check] returns [False] when
    their first backend call raises; [increment_metric], [set_metric] and
    [cleanup_stale_agents] return normally.  The writes that make several
    calls return [True] only when every call was answered.  When the
    listing of the ids in [get_agents_by_type] is answered, an exception
    inside a nested [get_agent] only drops that agent: the list returned
    holds exactly the healthy records of the listed ids whose own read was
    answered.  [release_lock] and [subscribe_to_task_updates] are not among
    these operations: a backend exception other than [LockError] raised in
    [release_lock], and any backend exception raised in
    [subscribe_to_task_updates], reaches the caller. *)
Theorem state_manager_catches_backend_errors :
  (forall t, fails_to (RedisStateManager.create_task t) false) /\
  (forall id, fails_to (RedisStateManager.get_task id) None) /\
  (forall id st err out,
      fails_to (RedisStateManager.update_task_status id st err out) false) /\
  (forall id x, fails_to (RedisStateManager.add_agent_execution id x) false) /\
  (forall tt, fails_to (RedisStateManager.get_next_task tt) None) /\
  (forall tt, fails_to (RedisStateManager.get_queue_length tt) 0) /\
  (forall a, fails_to (RedisStateManager.register_agent a) false) /\
  (forall id, fails_to (RedisStateManager.get_agent id) None) /\
  (forall ty, fails_to (RedisStateManager.get_agents_by_type ty) []) /\
  (forall id, fails_to (RedisStateManager.update_agent_heartbeat id) false) /\
  (forall id d, fails_to (RedisStateManager.increment_agent_tasks id d) false) /\
  (forall name timeout, fails_to (RedisStateManager.acquire_lock name timeout) None) /\
  (forall name, fails_to (RedisStateManager.get_metric name) None) /\
  fails_to RedisStateManager.health_check false /\
  (forall name v, total (RedisStateManager.increment_metric name v)) /\
  (forall name v, total (RedisStateManager.set_metric name v)) /\
  (forall age, total (RedisStateManager.cleanup_stale_agents age)) /\
  (forall id st err out w w',
      RedisStateManager.update_task_status id st err out w = (Ok true, w') ->
      answered 3 w) /\
  (forall id x w w',
      RedisStateManager.add_agent_execution id x w = (Ok true, w') -> answered 2 w) /\
  (forall a w w',
      RedisStateManager.register_agent a w = (Ok true, w') -> answered 2 w) /\
  (forall id w w',
      RedisStateManager.update_agent_heartbeat id w = (Ok true, w') -> answered 2 w) /\
  (forall id d w w',
      RedisStateManager.increment_agent_tasks id d w = (Ok true, w') -> answered 2 w) /\
  (forall ty w,
      next_fault w = None ->
      exists (l : list AgentInfo) (w' : world),
        RedisStateManager.get_agents_by_type ty w = (Ok l, w') /\
        forall a, a ∈ l <->
          healthy a = true /\
          exists (i : nat) (id : string),
            elements (default ∅ (db_agent_types w !! ty)) !! i = Some id /\
            db_agents w !! id = Some a /\ fault_at (S i) w = false) /\
  (forall lock w e,
      next_fault w = Some e -> is_LockError e = false ->
      fst (RedisStateManager.release_lock lock w) = Raise e) /\
  (forall id w e,
      next_fault w = Some e ->
      fst (RedisStateManager.subscribe_to_task_updates id w) = Raise e).
Proof.
  repeat match goal with |- _ /\ _ => split end.
  - intros t. apply fails_to_backend_first.
  - intros id. apply fails_to_backend_only.
  - intros id st err out. apply fails_to_of_unfold; [apply total_handler_ret |].
    intros w e He. rewrite update_task_status_unfold, He. reflexivity.
  - intros id x. apply fails_to_of_unfold; [apply total_handler_ret |].
    intros w e He. rewrite add_agent_execution_unfold, He. reflexivity.
  - intros tt. apply fails_to_backend_first.
  - intros tt. apply fails_to_backend_only.
  - intros a. apply fails_to_backend_first.
  - intros id. apply fails_to_backend_only.
  - intros ty. apply fails_to_backend_first.
  - intros id. apply fails_to_of_unfold; [apply total_handler_ret |].
    intros w e He. rewrite update_agent_heartbeat_unfold, He. reflexivity.
  - intros id d. apply fails_to_of_unfold; [apply total_handler_ret |].
    intros w e He. rewrite increment_agent_tasks_unfold, He. reflexivity.
  - apply acquire_lock_fails_to.
  - intros name. apply fails_to_backend_first.
  - apply fails_to_backend_only.
  - intros name v. apply total_handler_ret.
  - intros name v. apply total_handler_ret.
  - intros age. apply total_handler_ret.
  - intros id st err out w w'. rewrite update_task_status_unfold.
    destruct (next_fault w) eqn:F0; [discriminate |].
    destruct (db_tasks w !! id); [| discriminate].
    destruct (next_fault (tick w)) eqn:F1; [discriminate |].
    cbv zeta.
    destruct (next_fault (with_tasks _ (tick (tick w)))) eqn:F2; [discriminate |].
    intros _. apply answered_3; assumption.
  - intros id x w w'. rewrite add_agent_execution_unfold.
    destruct (next_fault w) eqn:F0; [discriminate |].
    destruct (db_tasks w !! id); [| discriminate].
    destruct (next_fault (tick w)) eqn:F1; [discriminate |].
    intros _. apply answered_2; assumption.
  - intros a w w'. rewrite register_agent_unfold.
    destruct (next_fault w) eqn:F0; [discriminate |].
    cbv zeta.
    destruct (next_fault (with_agents _ (tick w))) eqn:F1; [discriminate |].
    intros _. apply answered_2; assumption.
  - intros id w w'. rewrite update_agent_heartbeat_unfold.
    destruct (next_fault w) eqn:F0; [discriminate |].
    destruct (db_agents w !! id); [| discriminate].
    destruct (next_fault (tick w)) eqn:F1; [discriminate |].
    intros _. apply answered_2; assumption.
  - intros id d w w'. rewrite increment_agent_tasks_unfold.
    destruct (next_fault w) eqn:F0; [discriminate |].
    destruct (db_agents w !! id); [| discriminate].
    destruct (next_fault (tick w)) eqn:F1; [discriminate |].
    intros _. apply answered_2; assumption.
  - intros ty w F. apply get_agents_by_type_faults. exact F.
  - apply release_lock_raises.
  - apply subscribe_raises.
Qed.

Lemma state_manager_catches_backend_errors_witness :
  fst (RedisStateManager.create_task cancelled_task unreachable) = Ok false /\
  fst (RedisStateManager.get_agents_by_type "data_analysis" unreachable) = Ok [] /\
  answered 3 cancelled_world /\
  exists (l : list AgentInfo) (w' : world),
    RedisStateManager.get_agents_by_type "data_analysis" second_call_fails = (Ok l, w') /\
    agent_record "w-fresh" "data_analysis" 10 7 95 ∈ l /\
    agent_record "w-stale" "data_analysis" 10 0 69 ∉ l.
Proof.
  destruct state_manager_catches_backend_errors
    as (Hc & _ & Hu & _ & _ & _ & _ & _ & Hg & _ & _ & _ & _ & _ & _ & _ & _ & Ha
        & _ & _ & _ & _ & Hn & _).
  split; [apply (Hc cancelled_task); eexists; reflexivity |].
  split; [apply (Hg "data_analysis"); eexists; reflexivity |].
  split; [eapply (Ha "t1" COMPLETED None None cancelled_world); vm_compute; reflexivity |].
  destruct (Hn "data_analysis" second_call_fails eq_refl) as (l & w' & E & Hl).
  exists l, w'. split; [exact E |]. split.
  - apply Hl. split; [reflexivity |]. exists 1%nat, "w-fresh".
    split; [vm_compute; reflexivity |]. split; [vm_compute; reflexivity | reflexivity].
  - intros Hin. apply Hl in Hin as (_ & i & id & L & D & F).
    destruct i as [| [| i]]; vm_compute in L; [| | discriminate L].
    + injection L as <-. discriminate F.
    + injection L as <-. vm_compute in D. discriminate D.
Defined.

(** ** Stage dispatch (C4) *)

Lemma increment_agent_tasks_clock (id : string) (d : Z) (w : world) :
  exists (b : bool) (w' : world),
    RedisStateManager.increment_agent_tasks id d w = (Ok b, w') /\ now w' = now w.
Proof.
  rewrite increment_agent_tasks_unfold.
  destruct (next_fault w), (db_agents w !! id); try destruct (next_fault (tick w));
    eexists _, _; split; reflexivity.
Qed.

(** The coroutine [_execute_agent_task] is its part before the worker call,
    the wait for the reply, and its part after it. *)
Lemma execute_agent_task_split
    (rpc : string -> string -> string -> json -> json -> Q -> rpc_reply)
    (task_id : string) (plan : plan_entry) (w : world) :
  ExecutionEngine._execute_agent_task rpc task_id plan w =
  (b <~ ExecutionEngine.agent_task_begin rpc task_id plan ;;
   sleep (reply_elapsed b.2) ;;;
   ExecutionEngine.agent_task_end plan b.1 b.2) w.
Proof.
  unfold ExecutionEngine._execute_agent_task, ExecutionEngine.agent_task_begin,
    ExecutionEngine.agent_task_end, ExecutionEngine._call_agent_grpc, time_time, sleep.
  run.
  destruct (increment_agent_tasks_clock (plan_agent_id plan) 1 w) as (b & w1 & E & Hnow).
  rewrite E. run. rewrite Hnow. cbn [fst snd].
  destruct (reply_result
              (rpc (plan_endpoint plan) task_id (plan_agent_type plan)
                 (plan_inputs plan) (plan_parameters plan) (now w))) as [out | e] eqn:Er;
    unfold reraise; run;
    match goal with
    | |- context [RedisStateManager.increment_agent_tasks ?i ?d ?w2] =>
        destruct (increment_agent_tasks_clock i d w2) as (b' & w3 & E' & _); rewrite E'
    end; run; reflexivity.
Qed.

(** The result of a stage, for every behaviour of the worker call. *)
Lemma execute_agent_task_result
    (rpc : string -> string -> string -> json -> json -> Q -> rpc_reply)
    (task_id : string) (plan : plan_entry) (w : world) :
  let reply := rpc (plan_endpoint plan) task_id (plan_agent_type plan)
                 (plan_inputs plan) (plan_parameters plan) (now w) in
  exists (r : AgentTaskResult) (w' : world),
    ExecutionEngine._execute_agent_task rpc task_id plan w = (Ok r, w') /\
    res_agent_id r = plan_agent_id plan /\
    res_agent_type r = plan_agent_type plan /\
    (res_execution_time_ms r == reply_elapsed reply * 1000)%Q /\
    (now w' == now w + reply_elapsed reply)%Q /\
    match reply_result reply with
    | Ok out => res_status r = "completed" /\ res_output r = Some out /\ res_error r = None
    | Raise e =>
        res_status r = "failed" /\ res_output r = None /\
        res_error r = Some (str_of_exn e)
    end.
Proof.
  intros reply. rewrite execute_agent_task_split.
  unfold ExecutionEngine.agent_task_begin, ExecutionEngine.agent_task_end, time_time, sleep.
  run.
  destruct (increment_agent_tasks_clock (plan_agent_id plan) 1 w) as (b & w1 & E & Hnow).
  rewrite E. run. cbn [fst snd]. fold reply.
  match goal with
  | |- context [RedisStateManager.increment_agent_tasks ?i ?d ?w2] =>
      destruct (increment_agent_tasks_clock i d w2) as (b' & w3 & E' & Hnow'); rewrite E'
  end.
  run. simpl in Hnow'. rewrite Hnow in Hnow'.
  destruct (reply_result reply) as [out | e]; run; eexists _, _;
    (split; [reflexivity |]); simpl; rewrite ?Hnow, ?Hnow';
    repeat split; try reflexivity; ring.
Qed.




(** With the call the source ships, every reply arrives after 0.1 s and is
    an output. *)
Lemma simulated_rpc_answers (endpoint task_id agent_type : string)
    (inputs parameters : json) (t : Q) :
  reply_elapsed (simulated_rpc endpoint task_id agent_type inputs parameters t) = (1 # 10)%Q /\
  is_ok (reply_result (simulated_rpc endpoint task_id agent_type inputs parameters t)).
Proof. split; [reflexivity | exact I]. Qed.

(** ** Parallel execution (C1) *)

(** A loop whose body extends the accumulator by one on the elements it is
    run on. *)
Lemma returns_fold_m_measure {St A B} (body : B -> A -> M St B)
    (P : A -> Prop) (I : B -> Prop) (len : B -> nat) (l : list A) (acc : B) :
  (forall b a, P a -> I b -> returns (body b a) (fun b' => I b' /\ len b' = S (len b))) ->
  Forall P l -> I acc ->
  returns (fold_m body l acc) (fun b' => I b' /\ len b' = (len acc + length l)%nat).
Proof.
  intros Hb Hl. revert acc. induction Hl as [| x l Hx Hl IH]; intros acc Hacc; simpl.
  - apply returns_ret. split; [exact Hacc | lia].
  - eapply returns_bind; [apply Hb; eassumption |].
    intros b [Hb1 Hb2]. eapply returns_weaken; [apply IH; exact Hb1 |].
    intros b' [H1 H2]. split; [exact H1 | lia].
Qed.

Lemma agent_task_begin_total
    (rpc : string -> string -> string -> json -> json -> Q -> rpc_reply)
    (task_id : string) (plan : plan_entry) :
  total (ExecutionEngine.agent_task_begin rpc task_id plan).
Proof.
  unfold ExecutionEngine.agent_task_begin.
  eapply returns_bind; [apply returns_gets |]. intros t _.
  eapply returns_bind; [apply increment_agent_tasks_total |]. intros b _.
  apply returns_ret. exact I.
Qed.

Lemma agent_task_end_total (plan : plan_entry) (t0 : Q) (reply : rpc_reply) :
  total (ExecutionEngine.agent_task_end plan t0 reply).
Proof.
  unfold ExecutionEngine.agent_task_end.
  eapply returns_bind; [apply returns_gets |]. intros t _.
  eapply returns_bind; [apply increment_agent_tasks_total |]. intros b _.
  destruct (reply_result reply); apply returns_ret; exact I.
Qed.

Lemma returns_attempt {S A} (m : M S A) : total m -> returns (attempt m) is_ok.
Proof.
  intros Hm s. destruct (Hm s) as (a & s' & E & _).
  exists (Ok a), s'. unfold attempt. rewrite E. split; [reflexivity | exact I].
Qed.

(** [_execute_agent_task] turns every failure of the worker call into a
    result, so [gather] never sees an exception: it gives one result per
    stage. *)
Lemma gather_agent_tasks_all_results
    (rpc : string -> string -> string -> json -> json -> Q -> rpc_reply)
    (task_id : string) (plan : list plan_entry) :
  returns (ExecutionEngine.gather_agent_tasks rpc task_id plan)
          (fun results => Forall is_ok results /\ length results = length plan).
Proof.
  unfold ExecutionEngine.gather_agent_tasks.
  eapply returns_bind; [apply returns_gets |]. intros t0 _.
  eapply returns_bind.
  { apply (returns_fold_m_measure (ExecutionEngine.gather_begin rpc task_id)
             (fun _ => True) (Forall (fun s : ExecutionEngine.started => is_ok s.2))
             (@length _)).
    - intros b x _ Hb. unfold ExecutionEngine.gather_begin.
      eapply returns_bind; [apply returns_attempt, agent_task_begin_total |].
      intros r Hr. apply returns_ret. split.
      + apply Forall_app. split; [exact Hb |]. constructor; [exact Hr | constructor].
      + rewrite length_app. simpl. lia.
    - apply Forall_forall. intros; exact I.
    - constructor. }
  intros begun [Hall Hlen]. simpl in Hlen. rewrite length_imap in Hlen.
  eapply returns_bind.
  { apply (returns_fold_m_measure (ExecutionEngine.gather_end t0)
             (fun s : ExecutionEngine.started => is_ok s.2)
             (Forall (fun x : nat * result AgentTaskResult => is_ok x.2))
             (@length _)).
    - intros b [[i pl] [[st reply] | e]] Hs Hb; [| contradiction].
      unfold ExecutionEngine.gather_end.
      eapply returns_bind; [apply returns_modify |]. intros _ _.
      eapply returns_bind; [apply returns_attempt, agent_task_end_total |].
      intros r Hr. apply returns_ret. split.
      + apply Forall_app. split; [exact Hb |]. constructor; [exact Hr | constructor].
      + rewrite length_app. simpl. lia.
    - rewrite sorted_by_perm. exact Hall.
    - constructor. }
  intros ended [Hall' Hlen']. simpl in Hlen'. rewrite length_sorted_by in Hlen'.
  apply returns_ret. split.
  - apply Forall_fmap. rewrite sorted_by_perm. exact Hall'.
  - rewrite length_map, length_sorted_by. lia.
Qed.

Lemma Forall_zip_snd {A B} (P : B -> Prop) (l : list A) (k : list B) :
  Forall P k -> Forall (fun x : A * B => P x.2) (zip l k).
Proof.
  intros Hk. revert l. induction Hk as [| y k Hy Hk IH]; intros [| x l]; simpl;
    constructor; [exact Hy | apply IH].
Qed.

Lemma add_agent_execution_total (id : string) (x : json) :
  total (RedisStateManager.add_agent_execution id x).
Proof. apply total_handler_ret. Qed.

(** What [execute_parallel] does for every plan and every behaviour of the
    workers: it never raises, it counts every stage as successful and none
    as failed. *)
Lemma execute_parallel_counts_all_successful
    (rpc : string -> string -> string -> json -> json -> Q -> rpc_reply)
    (task_id : string) (plan : list plan_entry) (task_state : TaskState) :
  returns (ExecutionEngine.execute_parallel rpc task_id plan task_state)
          (fun v =>
             json_get_default "successful_agents" JNull v
               = JInt (Z.of_nat (length plan)) /\
             json_get_default "failed_agents" JNull v = JInt 0 /\
             json_get_default "errors" JNull v = JList []).
Proof.
  unfold ExecutionEngine.execute_parallel.
  eapply returns_bind; [apply returns_gets |]. intros t0 _.
  eapply returns_bind; [apply gather_agent_tasks_all_results |].
  intros results [Hok Hlen].
  eapply returns_bind.
  { apply (returns_fold_m_measure (ExecutionEngine.parallel_collect task_id)
             (fun x : plan_entry * result AgentTaskResult => is_ok x.2)
             (fun acc : list AgentTaskResult * list (string * string) => acc.2 = [])
             (fun acc => length acc.1)).
    - intros [s f] [pl [r | e]] Hx Hf; [| contradiction]. simpl in Hf. subst f.
      unfold ExecutionEngine.parallel_collect. cbn [fst snd].
      eapply returns_bind; [apply add_agent_execution_total |]. intros _ _.
      apply returns_ret. split; [reflexivity |]. simpl. rewrite length_app. simpl. lia.
    - apply Forall_zip_snd, Hok.
    - reflexivity. }
  intros [s f] [Hf Hs]. simpl in Hf, Hs. subst f.
  rewrite length_zip_with, Hlen, Nat.min_id in Hs.
  eapply returns_bind; [apply returns_gets |]. intros t _.
  simpl. apply returns_ret. rewrite Hs. repeat split.
Qed.












(** The two-stage plan of a monitoring task, run in parallel with the
    worker call the source ships: two successful agents, two outputs, and
    both stages recorded as completed. *)
Example execute_parallel_monitoring :
  exists (v : json) (w' : world),
    ExecutionEngine.execute_parallel simulated_rpc "m1" monitoring_plan monitoring_task
      monitoring_world = (Ok v, w') /\
    json_get_default "successful_agents" JNull v = JInt 2 /\
    json_get_default "failed_agents" JNull v = JInt 0 /\
    (exists out1 out2, json_get_default "results" JNull v = JList [out1; out2]) /\
    map (json_get_default "status" JNull)
        (default [] (agent_executions <$> (db_tasks w' !! "m1")))
      = [JStr "completed"; JStr "completed"].
Proof.
  eexists _, _. split; [vm_compute; reflexivity |].
  split; [reflexivity |]. split; [reflexivity |].
  split; [eexists _, _; reflexivity | vm_compute; reflexivity].
Qed.

(** ** Unknown task types (C3) *)

(** The whole life of a task that is cancelled while queued: the cancel
    succeeds, the id stays in the queue, and the run that follows stores
    COMPLETED over CANCELLED. *)
Example cancelled_task_is_completed_by_execution :
  fst (cancel_then_run analysis_process) = Ok (Some CANCELLED, Some COMPLETED).
Proof. vm_compute. reflexivity. Qed.

(** C3 (counterexample): the claim sends a task of unknown type straight to
    FAILED without re-enqueueing it; executed with [retry_count = 0], the
    task ends stored as QUEUED and is back in its queue. *)
Lemma unknown_task_type_is_requeued :
  ~ (forall (rpc : string -> string -> string -> json -> json -> Q -> rpc_reply)
       (id : string) (p p' : process) (t : TaskState),
       quiet (store p) ->
       db_tasks (store p) !! id = Some t ->
       Orchestrator.mapping_get (task_type t) Orchestrator.task_agent_mapping = [] ->
       Orchestrator._execute_task rpc id p = (Ok tt, p') ->
       status <$> (db_tasks (store p') !! id) = Some FAILED /\
       queue (store p') (task_type t) !! id = None).
Proof.
  intros H.
  pose (p := process_on (unknown_world 0) LEAST_LOADED).
  pose (p' := snd (Orchestrator._execute_task simulated_rpc "u1" p)).
  specialize (H simulated_rpc "u1" p p' (unknown_task 0)
                eq_refl eq_refl eq_refl ltac:(vm_compute; reflexivity)).
  destruct H as [_ Hq]. vm_compute in Hq. discriminate Hq.
Qed.

Lemma zoom_run {S T A} (get : S -> T) (set : T -> S -> S) (m : M T A) (s : S) :
  zoom get set m s = match m (get s) with (r, t') => (r, set t' s) end.
Proof. reflexivity. Qed.

Lemma with_local_run {S L A} (l : L) (m : M (L * S) A) (s : S) :
  Orchestrator.with_local l m s = match m (l, s) with (r, ls) => (r, ls.2) end.
Proof. reflexivity. Qed.

Lemma try_finally_run {S A} (body : M S A) (cleanup : M S unit) (s : S) :
  try_finally body cleanup s =
  match body s with
  | (r, s') => match cleanup s' with
               | (Ok _, s'') => (r, s'')
               | (Raise e, s'') => (Raise e, s'')
               end
  end.
Proof. reflexivity. Qed.

Lemma get_task_quiet (id : string) (w : world) :
  quiet w -> RedisStateManager.get_task id w = (Ok (db_tasks w !! id), w).
Proof.
  intros Hq. rewrite get_task_unfold, (quiet_next_fault w Hq), (quiet_tick w Hq). reflexivity.
Qed.

Lemma update_task_status_quiet (id : string) (st : TaskStatus) (err out : option json)
    (w : world) (task : TaskState) :
  quiet w -> db_tasks w !! id = Some task ->
  RedisStateManager.update_task_status id st err out w =
  (Ok true,
   with_published (cons ("task_updates:" ++ id, status_message st (now w)))
     (with_tasks (insert id (updated_task st err out (now w) task)) w)).
Proof.
  intros Hq L. rewrite update_task_status_unfold.
  rewrite (quiet_next_fault w Hq), L, !(quiet_tick w Hq), (quiet_next_fault w Hq).
  cbv zeta.
  assert (quiet (with_tasks (insert id (updated_task st err out (now w) task)) w)) as Hq'
    by exact Hq.
  rewrite (quiet_next_fault _ Hq'), (quiet_tick _ Hq'). reflexivity.
Qed.

Lemma create_task_quiet (t : TaskState) (w : world) :
  quiet w ->
  RedisStateManager.create_task t w =
  (Ok true, redis_zadd (task_type t) (task_id t) (priority t)
              (with_tasks (insert (task_id t) t) w)).
Proof.
  intros Hq. rewrite create_task_unfold, (quiet_next_fault w Hq), (quiet_tick w Hq).
  reflexivity.
Qed.

(** Run a computation of the orchestrator step by step. *)
Ltac exec :=
  repeat first
    [ rewrite bind_run | rewrite gets_run | rewrite modify_run
    | rewrite ret_run | rewrite raise_run | rewrite try_except_run
    | rewrite zoom_run
    | rewrite with_local_run | rewrite try_finally_run
    | progress cbv [fst snd store with_store with_metrics_collector
                    with_task_processors metrics strategy round_robin_counters
                    random_source task_processors] ].

(** The store after the execution of a task of unknown type, call by
    call. *)
Lemma execute_unknown_task_type
    (rpc : string -> string -> string -> json -> json -> Q -> rpc_reply)
    (id : string) (p : process) (t : TaskState) :
  quiet (store p) ->
  db_tasks (store p) !! id = Some t ->
  Orchestrator.mapping_get (task_type t) Orchestrator.task_agent_mapping = [] ->
  let w := store p in
  let running := updated_task RUNNING None None (now w) t in
  let w1 := with_published (cons ("task_updates:" ++ id, status_message RUNNING (now w)))
              (with_tasks (insert id running) w) in
  let w2 := with_published (cons ("task_updates:" ++ id, status_message RETRYING (now w)))
              (with_tasks (insert id (updated_task RETRYING None None (now w) running)) w1) in
  let t' := set_retry_count (retry_count t + 1) t in
  exists p',
    Orchestrator._execute_task rpc id p = (Ok tt, p') /\
    fst (Orchestrator.execute_task_try rpc id (now w) (t, p))
      = Raise (Exn ValueError ("Unknown task type: " ++ task_type t)) /\
    store p' =
      if (retry_count t <? 3)%Z then
        redis_zadd (task_type t') (task_id t') (priority t')
          (with_tasks (insert (task_id t') t')
             (with_now (fun c => (c + 2 ^ (retry_count t + 1))%Q) w2))
      else
        with_published (cons ("task_updates:" ++ id, status_message FAILED (now w)))
          (with_tasks
             (insert id (updated_task FAILED (Some (unknown_type_error t)) None (now w) running))
             w1).
Proof.
  intros Hq L Hmap. destruct p as [w m s rr rs tp]. simpl in Hq, L. cbv zeta.
  cbn [store].
  set (w1 := with_published (cons ("task_updates:" ++ id, status_message RUNNING (now w)))
               (with_tasks (insert id (updated_task RUNNING None None (now w) t)) w)).
  assert (quiet w1) as Hq1 by exact Hq.
  assert (db_tasks w1 !! id = Some (updated_task RUNNING None None (now w) t)) as L1.
  { unfold w1. simpl. apply lookup_insert_eq. }
  assert (fst (Orchestrator.execute_task_try rpc id (now w)
                 (t, mkProcess w m s rr rs tp))
          = Raise (Exn ValueError ("Unknown task type: " ++ task_type t))) as Htry.
  { unfold Orchestrator.execute_task_try, Orchestrator.on_process, in_store. exec.
    rewrite (update_task_status_quiet id RUNNING None None w t Hq L). exec.
    unfold Orchestrator.metric_increment at 1. exec.
    rewrite Hmap. exec. reflexivity. }
  unfold Orchestrator._execute_task, time_time, in_store. exec.
  rewrite (get_task_quiet id w Hq), L. exec.
  unfold Orchestrator.execute_task_try at 1.
  unfold Orchestrator.on_process, in_store. exec.
  rewrite (update_task_status_quiet id RUNNING None None w t Hq L). exec.
  unfold Orchestrator.metric_increment at 1. exec.
  rewrite Hmap. exec.
  unfold Orchestrator.execute_task_except, Orchestrator.on_process, in_store.
  fold w1.
  exec.
  destruct (retry_count t <? 3)%Z eqn:Erc.
  - exec.
    rewrite (update_task_status_quiet id RETRYING None None w1 _ Hq1 L1). exec.
    unfold sleep. exec.
    rewrite create_task_quiet by exact Hq. exec.
    unfold Orchestrator.metric_increment. exec.
    eexists. split; [reflexivity |]. split; [exact Htry |]. reflexivity.
  - exec.
    rewrite (update_task_status_quiet id FAILED _ None w1 _ Hq1 L1). exec.
    unfold Orchestrator.metric_increment. exec.
    eexists. split; [reflexivity |]. split; [exact Htry |]. reflexivity.
Qed.

(** C3 (as amended): a task whose type has no entry in the workflow table
    is handled like every other failure.  The task is first stored as
    RUNNING; the body of the [try] then raises
    [ValueError("Unknown task type: ...")].  With [retry_count < 3] the
    count is incremented, the status RETRYING is written to the store and
    published, the task sleeps [2 ** retry_count] seconds and is created
    again: the record of the task object (the status it had when dequeued,
    the new count) replaces the RETRYING one and the id is put back into
    its queue.  With [retry_count >= 3] the status FAILED is written and
    published with the error code EXECUTION_FAILED, and no queue is
    changed. *)
Theorem unknown_task_type_is_retried
    (rpc : string -> string -> string -> json -> json -> Q -> rpc_reply)
    (id : string) (p : process) (t : TaskState) :
  quiet (store p) ->
  db_tasks (store p) !! id = Some t ->
  task_id t = id ->
  Orchestrator.mapping_get (task_type t) Orchestrator.task_agent_mapping = [] ->
  exists (p' : process) (w1 : world),
    Orchestrator._execute_task rpc id p = (Ok tt, p') /\
    fst (Orchestrator.execute_task_try rpc id (now (store p)) (t, p))
      = Raise (Exn ValueError ("Unknown task type: " ++ task_type t)) /\
    RedisStateManager.update_task_status id RUNNING None None (store p) = (Ok true, w1) /\
    if (retry_count t <? 3)%Z then
      (exists w2 : world,
         RedisStateManager.update_task_status id RETRYING None None w1 = (Ok true, w2) /\
         status <$> (db_tasks w2 !! id) = Some RETRYING /\
         RedisStateManager.create_task (set_retry_count (retry_count t + 1) t)
           (with_now (fun c => (c + 2 ^ (retry_count t + 1))%Q) w2) = (Ok true, store p')) /\
      published (store p')
        = ("task_updates:" ++ id, status_message RETRYING (now (store p)))
          :: ("task_updates:" ++ id, status_message RUNNING (now (store p)))
          :: published (store p) /\
      db_tasks (store p') !! id = Some (set_retry_count (retry_count t + 1) t) /\
      queue (store p') (task_type t) !! id = Some (priority t) /\
      now (store p') = (now (store p) + 2 ^ (retry_count t + 1))%Q
    else
      RedisStateManager.update_task_status id FAILED (Some (unknown_type_error t)) None w1
        = (Ok true, store p') /\
      published (store p')
        = ("task_updates:" ++ id, status_message FAILED (now (store p)))
          :: ("task_updates:" ++ id, status_message RUNNING (now (store p)))
          :: published (store p) /\
      db_tasks (store p') !! id
        = Some (updated_task FAILED (Some (unknown_type_error t)) None (now (store p))
                  (updated_task RUNNING None None (now (store p)) t)) /\
      db_queues (store p') = db_queues (store p) /\
      now (store p') = now (store p).
Proof.
  intros Hq L Hid Hmap.
  destruct (execute_unknown_task_type rpc id p t Hq L Hmap) as (p' & E & Htry & Hstore).
  set (w := store p) in *.
  set (running := updated_task RUNNING None None (now w) t) in *.
  set (w1 := with_published (cons ("task_updates:" ++ id, status_message RUNNING (now w)))
               (with_tasks (insert id running) w)) in *.
  assert (quiet w1) as Hq1 by exact Hq.
  assert (db_tasks w1 !! id = Some running) as L1 by (unfold w1; simpl; apply lookup_insert_eq).
  exists p', w1. split; [exact E |]. split; [exact Htry |].
  split; [apply (update_task_status_quiet id RUNNING None None w t Hq L) |].
  destruct (retry_count t <? 3)%Z eqn:Erc; rewrite Hstore.
  - split.
    { eexists. split; [apply (update_task_status_quiet id RETRYING None None w1 _ Hq1 L1) |].
      split; [simpl; rewrite lookup_insert_eq; reflexivity |].
      rewrite create_task_quiet by exact Hq. reflexivity. }
    cbn [store db_tasks db_queues now redis_zadd with_tasks with_queues with_now
         with_published task_id task_type priority retry_count set_retry_count published].
    rewrite Hid. split; [reflexivity |]. split; [apply lookup_insert_eq |].
    split; [| reflexivity].
    unfold queue.
    cbn [store db_tasks db_queues now redis_zadd with_tasks with_queues with_now
         with_published task_id task_type priority retry_count set_retry_count].
    rewrite lookup_insert_eq. simpl. apply lookup_insert_eq.
  - split; [apply (update_task_status_quiet id FAILED _ None w1 _ Hq1 L1) |].
    cbn [store db_tasks db_queues now with_tasks with_published published].
    split; [reflexivity |].
    split; [apply lookup_insert_eq |]. split; reflexivity.
Qed.

Lemma unknown_task_type_is_retried_witness :
  exists p',
    Orchestrator._execute_task simulated_rpc "u1" (process_on (unknown_world 0) LEAST_LOADED)
      = (Ok tt, p') /\
    db_tasks (store p') !! "u1" = Some (unknown_task 1) /\
    queue (store p') "no_such_type" !! "u1" = Some 5 /\
    map snd (published (store p'))
      = [status_message RETRYING 0; status_message RUNNING 0].
Proof.
  destruct (unknown_task_type_is_retried simulated_rpc "u1"
              (process_on (unknown_world 0) LEAST_LOADED) (unknown_task 0)
              eq_refl eq_refl eq_refl eq_refl) as (p' & w1 & E & _ & _ & _ & Hp & Ht & Hqueue & _).
  exists p'. split; [exact E |]. split; [exact Ht |]. split; [exact Hqueue |].
  rewrite Hp. reflexivity.
Defined.

(* ===================================================================== *)
(** * Further properties of the code *)
(* ===================================================================== *)

(** ** The state store: round trips *)

Lemma get_agent_quiet (id : string) (w : world) :
  quiet w -> RedisStateManager.get_agent id w = (Ok (db_agents w !! id), w).
Proof.
  intros Hq. rewrite get_agent_unfold, (quiet_next_fault w Hq), (quiet_tick w Hq). reflexivity.
Qed.

(** X1: on a backend that answers, [create_task] returns [True] and the
    record can be read back unchanged with [get_task]; its id is queued
    under its task type with its priority as score; no other task record
    and no worker record is touched.  A record already stored under the id
    is replaced. *)
Theorem create_task_then_get_task (t : TaskState) (w : world) :
  quiet w ->
  exists w',
    RedisStateManager.create_task t w = (Ok true, w') /\
    RedisStateManager.get_task (task_id t) w' = (Ok (Some t), w') /\
    queue w' (task_type t) !! task_id t = Some (priority t) /\
    (forall id, id <> task_id t -> db_tasks w' !! id = db_tasks w !! id) /\
    db_agents w' = db_agents w.
Proof.
  intros Hq. rewrite (create_task_quiet t w Hq). eexists. split; [reflexivity |].
  split.
  - rewrite get_task_quiet by exact Hq. simpl. rewrite lookup_insert_eq. reflexivity.
  - split; [unfold queue; simpl; rewrite lookup_insert_eq; simpl; apply lookup_insert_eq |].
    split; [| reflexivity].
    intros id Hne. simpl. apply lookup_insert_ne. congruence.
Qed.

Lemma create_task_then_get_task_witness :
  exists w',
    RedisStateManager.create_task (queued_task "q1" 5) empty_world = (Ok true, w') /\
    RedisStateManager.get_task "q1" w' = (Ok (Some (queued_task "q1" 5)), w').
Proof.
  destruct (create_task_then_get_task (queued_task "q1" 5) empty_world eq_refl)
    as (w' & E & G & _).
  exists w'. split; assumption.
Defined.

Lemma add_agent_execution_quiet (id : string) (x : json) (w : world) (task : TaskState) :
  quiet w -> db_tasks w !! id = Some task ->
  RedisStateManager.add_agent_execution id x w =
  (Ok true,
   with_tasks
     (insert id (set_updated_at (now w)
                   (set_agent_executions (agent_executions task ++ [x])%list task))) w).
Proof.
  intros Hq L. rewrite add_agent_execution_unfold.
  rewrite (quiet_next_fault w Hq), L, !(quiet_tick w Hq), (quiet_next_fault w Hq).
  reflexivity.
Qed.

(** X2: on a backend that answers, [add_agent_execution] appends the
    execution to the task's [agent_executions], sets [updated_at] to the
    clock and keeps every other field; for an id that is not stored it
    returns [False] and leaves the store as it is. *)
Theorem add_agent_execution_appends (id : string) (x : json) (w : world) :
  quiet w ->
  exists (b : bool) (w' : world),
    RedisStateManager.add_agent_execution id x w = (Ok b, w') /\
    match db_tasks w !! id with
    | Some task =>
        b = true /\
        exists task',
          db_tasks w' !! id = Some task' /\
          agent_executions task' = (agent_executions task ++ [x])%list /\
          status task' = status task /\ output task' = output task /\
          error task' = error task /\ retry_count task' = retry_count task /\
          metadata task' = metadata task /\ updated_at task' = now w
    | None => b = false /\ w' = w
    end.
Proof.
  intros Hq. destruct (db_tasks w !! id) as [task |] eqn:L.
  - rewrite (add_agent_execution_quiet id x w task Hq L).
    eexists _, _. split; [reflexivity |]. split; [reflexivity |].
    eexists. split; [simpl; apply lookup_insert_eq |]. repeat split.
  - rewrite add_agent_execution_unfold, (quiet_next_fault w Hq), L, (quiet_tick w Hq).
    eexists _, _. split; [reflexivity |]. split; reflexivity.
Qed.

Lemma add_agent_execution_appends_witness :
  exists (b : bool) (w' : world),
    RedisStateManager.add_agent_execution "q1" (JStr "stage") queued_world = (Ok b, w').
Proof.
  destruct (add_agent_execution_appends "q1" (JStr "stage") queued_world eq_refl)
    as (b & w' & E & _).
  exists b, w'. exact E.
Defined.

Lemma register_agent_quiet (a : AgentInfo) (w : world) :
  quiet w ->
  RedisStateManager.register_agent a w =
  (Ok true,
   with_agent_types
     (fun ix => <[agent_type a := {[agent_id a]} ∪ default ∅ (ix !! agent_type a)]> ix)
     (with_agents (insert (agent_id a) a) w)).
Proof.
  intros Hq. rewrite register_agent_unfold, (quiet_next_fault w Hq), (quiet_tick w Hq).
  cbv zeta.
  assert (quiet (with_agents (insert (agent_id a) a) w)) as Hq' by exact Hq.
  rewrite (quiet_next_fault _ Hq'), (quiet_tick _ Hq'). reflexivity.
Qed.

Lemma stale_and_fresh_plain_ids : plain_ids stale_and_fresh.
Proof.
  intros id [a L]. unfold stale_and_fresh in L. simpl in L.
  destruct (decide (id = "w-stale")) as [-> | H1]; [reflexivity |].
  rewrite lookup_insert_ne in L by congruence.
  destruct (decide (id = "w-fresh")) as [-> | H2]; [reflexivity |].
  rewrite lookup_insert_ne, lookup_empty in L by congruence. discriminate.
Qed.

(** X3: on a backend that answers, and with worker ids that do not
    begin with [type:] (the stored ones and the new one, so that no record
    key [agent:<id>] is an index key [agent:type:<type>]),
    [register_agent] returns [True], the record can be read back with
    [get_agent], and its id is listed under its agent type.  The call only
    adds to the type indexes: an id listed under some type stays listed
    there, so a worker that is registered again with another type is listed
    under both.  No other record and no task is changed, and the ids of the
    store still do not begin with [type:]. *)
Theorem register_agent_then_get_agent (a : AgentInfo) (w : world) :
  quiet w ->
  plain_ids w ->
  String.prefix "type:" (agent_id a) = false ->
  exists w',
    RedisStateManager.register_agent a w = (Ok true, w') /\
    RedisStateManager.get_agent (agent_id a) w' = (Ok (Some a), w') /\
    agent_id a ∈ index w' (agent_type a) /\
    (forall type, index w type ⊆ index w' type) /\
    (forall id, id <> agent_id a -> db_agents w' !! id = db_agents w !! id) /\
    db_tasks w' = db_tasks w /\
    plain_ids w'.
Proof.
  intros Hq Hplain Hid. rewrite (register_agent_quiet a w Hq). eexists.
  split; [reflexivity |].
  split.
  { rewrite get_agent_unfold.
    match goal with |- context [next_fault ?x] =>
      assert (quiet x) as Hq' by exact Hq; rewrite (quiet_next_fault x Hq'), (quiet_tick x Hq')
    end.
    simpl. rewrite lookup_insert_eq. reflexivity. }
  split.
  { unfold index. simpl. rewrite lookup_insert_eq. simpl. set_solver. }
  split.
  { intros type. unfold index. simpl.
    destruct (decide (type = agent_type a)) as [-> | Hne].
    - rewrite lookup_insert_eq. simpl. set_solver.
    - rewrite lookup_insert_ne by congruence. reflexivity. }
  split.
  { intros id Hne. simpl. apply lookup_insert_ne. congruence. }
  split; [reflexivity |].
  intros id. simpl. destruct (decide (id = agent_id a)) as [-> | Hne].
  - intros _. exact Hid.
  - rewrite lookup_insert_ne by congruence. apply Hplain.
Qed.

Lemma register_agent_then_get_agent_witness :
  exists w',
    RedisStateManager.register_agent (agent_record "w1" "data_analysis" 10 0 0)
      stale_and_fresh = (Ok true, w') /\
    RedisStateManager.get_agent "w1" w'
      = (Ok (Some (agent_record "w1" "data_analysis" 10 0 0)), w') /\
    plain_ids w'.
Proof.
  destruct (register_agent_then_get_agent (agent_record "w1" "data_analysis" 10 0 0)
              stale_and_fresh eq_refl stale_and_fresh_plain_ids eq_refl)
    as (w' & E & G & _ & _ & _ & _ & P).
  exists w'. repeat split; assumption.
Defined.

Lemma collect_healthy_quiet (ids : list string) (acc : list AgentInfo) (w : world) :
  quiet w ->
  fold_m (fun agents agent_id =>
            agent <~ RedisStateManager.get_agent agent_id ;;
            match agent with
            | Some agent => if healthy agent then ret (agents ++ [agent])%list else ret agents
            | None => ret agents
            end) ids acc w =
  (Ok (acc ++ List.filter healthy (omap (fun id => db_agents w !! id) ids))%list, w).
Proof.
  intros Hq. revert acc. induction ids as [| id ids IH]; intros acc.
  - cbn [fold_m omap List.filter]. rewrite app_nil_r. reflexivity.
  - cbn [fold_m]. rewrite bind_run, bind_run, (get_agent_quiet id w Hq).
    change (omap (fun id => db_agents w !! id) (id :: ids))
      with (match db_agents w !! id with
            | Some y => y :: omap (fun id => db_agents w !! id) ids
            | None => omap (fun id => db_agents w !! id) ids
            end).
    destruct (db_agents w !! id) as [a |].
    + cbn [List.filter].
      destruct (healthy a) eqn:Eh; rewrite ret_run, IH;
        [rewrite <- app_assoc |]; reflexivity.
    + rewrite ret_run, IH. reflexivity.
Qed.

Lemma get_agents_by_type_quiet (type : string) (w : world) :
  quiet w ->
  RedisStateManager.get_agents_by_type type w =
  (Ok (List.filter healthy (omap (fun id => db_agents w !! id) (elements (index w type)))), w).
Proof.
  intros Hq. unfold RedisStateManager.get_agents_by_type, redis_smembers.
  rewrite try_except_run, bind_run, backend_gets, (quiet_next_fault w Hq), (quiet_tick w Hq).
  rewrite (collect_healthy_quiet _ [] w Hq). reflexivity.
Qed.

Lemma length_omap_le {A B} (f : A -> option B) (l : list A) :
  (length (omap f l) <= length l)%nat.
Proof.
  induction l as [| x l IH]; [reflexivity |].
  change (omap f (x :: l)) with (match f x with Some y => y :: omap f l | None => omap f l end).
  destruct (f x); simpl; lia.
Qed.

(** X4: on a backend that answers, [get_agents_by_type] returns exactly the
    stored records with [healthy] set whose id is listed under the type, at
    most one per listed id, and leaves the store as it is. *)
Theorem get_agents_by_type_lists_healthy_records (type : string) (w : world) :
  quiet w ->
  exists l,
    RedisStateManager.get_agents_by_type type w = (Ok l, w) /\
    (forall a, a ∈ l <-> healthy a = true /\ registered w type a) /\
    (length l <= size (index w type))%nat.
Proof.
  intros Hq. rewrite (get_agents_by_type_quiet type w Hq). eexists. split; [reflexivity |].
  split.
  - intros a. rewrite list_elem_of_In, filter_In, <- list_elem_of_In, list_elem_of_omap.
    unfold registered, index.
    split.
    + intros [(id & Hin & L) Hh]. split; [exact Hh |].
      exists id. split; [apply elem_of_elements in Hin; exact Hin | exact L].
    + intros [Hh (id & Hin & L)]. split; [| exact Hh].
      exists id. split; [apply elem_of_elements; exact Hin | exact L].
  - etransitivity; [apply filter_length_le |].
    etransitivity; [apply length_omap_le |]. reflexivity.
Qed.

Lemma get_agents_by_type_lists_healthy_records_witness :
  exists l,
    RedisStateManager.get_agents_by_type "data_analysis" stale_and_fresh
      = (Ok l, stale_and_fresh).
Proof.
  destruct (get_agents_by_type_lists_healthy_records "data_analysis" stale_and_fresh eq_refl)
    as (l & E & _).
  exists l. exact E.
Defined.

(** ** Heartbeats *)

Lemma update_agent_heartbeat_quiet (id : string) (w : world) :
  quiet w ->
  RedisStateManager.update_agent_heartbeat id w =
  match db_agents w !! id with
  | Some a => (Ok true, with_agents (insert id (set_last_heartbeat (now w) a)) w)
  | None => (Ok false, w)
  end.
Proof.
  intros Hq. rewrite update_agent_heartbeat_unfold.
  rewrite (quiet_next_fault w Hq), !(quiet_tick w Hq), (quiet_next_fault w Hq).
  destruct (db_agents w !! id); reflexivity.
Qed.

Lemma send_heartbeat_once_quiet (id : string) (w : world) (a : AgentInfo) :
  quiet w -> db_agents w !! id = Some a ->
  MainAgent.send_heartbeat_once id w =
  (Ok tt,
   with_now (fun t => (t + 10)%Q)
     (with_agents (insert id (set_last_heartbeat (now w) a)) w)).
Proof.
  intros Hq L. unfold MainAgent.send_heartbeat_once.
  rewrite try_except_run, bind_run, (update_agent_heartbeat_quiet id w Hq), L.
  reflexivity.
Qed.

(** X5: the heartbeat loop of a worker process.  After one or more passes
    on a backend that answers, with no other writer, the stored record of the worker differs from
    the one before only in [last_heartbeat], the heartbeat is 10 s old, no
    other record is changed, and the load balancer finds the worker
    available exactly when it is healthy and has a free slot. *)
Theorem send_heartbeat_keeps_worker_fresh (passes : nat) (id : string) (w : world)
    (a : AgentInfo) :
  quiet w -> db_agents w !! id = Some a ->
  exists (w' : world) (beat : Q),
    MainAgent.send_heartbeat (S passes) id w = (Ok tt, w') /\
    db_agents w' !! id = Some (set_last_heartbeat beat a) /\
    now w' = (beat + 10)%Q /\
    (forall id', id' <> id -> db_agents w' !! id' = db_agents w !! id') /\
    LoadBalancer._is_agent_available (set_last_heartbeat beat a) w' =
      (Ok (healthy a && (current_tasks a <? max_concurrent_tasks a)%Z), w').
Proof.
  revert w a. induction passes as [| k IH]; intros w a Hq L.
  - exists (with_now (fun t => (t + 10)%Q)
              (with_agents (insert id (set_last_heartbeat (now w) a)) w)), (now w).
    cbn [MainAgent.send_heartbeat]. rewrite bind_run, (send_heartbeat_once_quiet id w a Hq L).
    split; [reflexivity |].
    split; [simpl; apply lookup_insert_eq |].
    split; [reflexivity |].
    split; [intros id' Hne; simpl; apply lookup_insert_ne; congruence |].
    unfold LoadBalancer._is_agent_available, time_time.
    destruct a as [aid aty ep caps mx cur h hb md]; simpl.
    destruct h; [| reflexivity]. simpl. run. simpl.
    assert (Qltb 30 (now w + 10 - now w)%Q = false) as ->.
    { unfold Qltb. apply negb_false_iff, Qle_bool_iff. ring_simplify. discriminate. }
    rewrite Z.leb_antisym. destruct (cur <? mx)%Z; reflexivity.
  - set (w1 := with_now (fun t => (t + 10)%Q)
                 (with_agents (insert id (set_last_heartbeat (now w) a)) w)).
    assert (quiet w1) as Hq1 by exact Hq.
    assert (db_agents w1 !! id = Some (set_last_heartbeat (now w) a)) as L1
      by (simpl; apply lookup_insert_eq).
    destruct (IH w1 _ Hq1 L1) as (w' & beat & E & La & Hn & Ho & Hav).
    exists w', beat.
    change (MainAgent.send_heartbeat (S (S k)) id)
      with (MainAgent.send_heartbeat_once id ;;; MainAgent.send_heartbeat (S k) id).
    rewrite bind_run, (send_heartbeat_once_quiet id w a Hq L). fold w1. rewrite E.
    split; [reflexivity |].
    split; [exact La |].
    split; [exact Hn |].
    split.
    + intros id' Hne. rewrite (Ho id' Hne). simpl. apply lookup_insert_ne. congruence.
    + exact Hav.
Qed.

Lemma send_heartbeat_keeps_worker_fresh_witness :
  exists (w' : world) (beat : Q),
    MainAgent.send_heartbeat 3 "w1" saturated_world = (Ok tt, w') /\
    now w' = (beat + 10)%Q.
Proof.
  destruct (send_heartbeat_keeps_worker_fresh 2 "w1" saturated_world
              (agent_record "w1" "data_analysis" 1 1 0) eq_refl
              (lookup_insert_eq _ _ _))
    as (w' & beat & E & _ & Hn & _).
  exists w', beat. split; assumption.
Defined.

(** ** Removal of stale workers *)

Lemma cleanup_step_quiet max_age t w key : quiet w -> quiet (cleanup_step max_age t w key).
Proof.
  unfold cleanup_step. intros Hq.
  destruct (db_agents w !! key) as [a |]; [| exact Hq].
  destruct (stale max_age t a); exact Hq.
Qed.

Lemma cleanup_loop_quiet (max_age : Z) (t : Q) (keys : list string) (w : world) :
  quiet w ->
  for_each keys (fun key =>
    agent_data <~ redis_get_agent key ;;
    match agent_data with
    | Some agent =>
        if Qltb (inject_Z max_age) (t - last_heartbeat agent)%Q
        then redis_delete_agent key ;;;
             redis_srem (agent_type agent) (agent_id agent)
        else ret tt
    | None => ret tt
    end) w = (Ok tt, foldl (cleanup_step max_age t) w keys).
Proof.
  revert w. induction keys as [| k keys IH]; intros w Hq; [reflexivity |].
  cbn [for_each foldl]. rewrite bind_run, bind_run.
  unfold redis_get_agent at 1. rewrite backend_gets, (quiet_next_fault w Hq), (quiet_tick w Hq).
  pose proof (cleanup_step_quiet max_age t w k Hq) as Hq'.
  unfold cleanup_step in *. fold (stale max_age t).
  destruct (db_agents w !! k) as [a |].
  - unfold stale in *. destruct (Qltb (inject_Z max_age) (t - last_heartbeat a)%Q).
    + rewrite bind_run. unfold redis_delete_agent, redis_srem.
      rewrite backend_modify, (quiet_next_fault w Hq), (quiet_tick w Hq).
      rewrite backend_modify.
      assert (quiet (with_agents (delete k) w)) as Hq1 by exact Hq.
      rewrite (quiet_next_fault _ Hq1), (quiet_tick _ Hq1).
      apply IH. exact Hq'.
    + rewrite ret_run. apply IH. exact Hq.
  - rewrite ret_run. apply IH. exact Hq.
Qed.

Lemma cleanup_step_agents max_age t w key id :
  db_agents (cleanup_step max_age t w key) !! id =
  match db_agents w !! id with
  | Some a => if String.eqb id key && stale max_age t a then None else Some a
  | None => None
  end.
Proof.
  unfold cleanup_step. destruct (String.eqb_spec id key) as [-> | Hne].
  - destruct (db_agents w !! key) as [a |] eqn:L; [| rewrite L; reflexivity].
    destruct (stale max_age t a); simpl; [apply lookup_delete_eq | rewrite L; reflexivity].
  - destruct (db_agents w !! key) as [a |] eqn:L.
    + destruct (stale max_age t a); simpl.
      * rewrite lookup_delete_ne by congruence. destruct (db_agents w !! id); reflexivity.
      * destruct (db_agents w !! id); reflexivity.
    + destruct (db_agents w !! id); reflexivity.
Qed.

Lemma cleanup_step_index max_age t w key type :
  index (cleanup_step max_age t w key) type ⊆ index w type.
Proof.
  unfold cleanup_step. destruct (db_agents w !! key) as [a |]; [| reflexivity].
  destruct (stale max_age t a); [| reflexivity].
  unfold index. simpl. destruct (decide (type = agent_type a)) as [-> | Hne].
  - rewrite lookup_insert_eq. simpl. apply subseteq_difference_l. reflexivity.
  - rewrite lookup_insert_ne by congruence. reflexivity.
Qed.

Lemma cleanup_fold_agents max_age t keys w id :
  db_agents (foldl (cleanup_step max_age t) w keys) !! id =
  match db_agents w !! id with
  | Some a => if bool_decide (id ∈ keys) && stale max_age t a then None else Some a
  | None => None
  end.
Proof.
  revert w. induction keys as [| k keys IH]; intros w.
  - cbn [foldl]. destruct (db_agents w !! id); reflexivity.
  - cbn [foldl]. rewrite IH, cleanup_step_agents.
    destruct (db_agents w !! id) as [a |]; [| reflexivity].
    destruct (String.eqb_spec id k) as [-> | Hne]; cbn [andb].
    + rewrite (bool_decide_eq_true_2 (k ∈ k :: keys)) by left. cbn [andb].
      destruct (stale max_age t a) eqn:Hs; [reflexivity |].
      rewrite Hs, andb_false_r. reflexivity.
    + rewrite (bool_decide_ext (id ∈ k :: keys) (id ∈ keys)); [reflexivity |].
      rewrite elem_of_cons. tauto.
Qed.

Lemma cleanup_fold_index max_age t keys w type :
  index (foldl (cleanup_step max_age t) w keys) type ⊆ index w type.
Proof.
  revert w. induction keys as [| k keys IH]; intros w; [reflexivity |].
  cbn [foldl]. etransitivity; [apply IH | apply cleanup_step_index].
Qed.

Lemma cleanup_fold_unlisted max_age t keys w id a :
  id ∈ keys -> db_agents w !! id = Some a -> agent_id a = id -> stale max_age t a = true ->
  id ∉ index (foldl (cleanup_step max_age t) w keys) (agent_type a).
Proof.
  revert w. induction keys as [| k keys IH]; intros w Hin L Hid Hs.
  - apply elem_of_nil in Hin. contradiction.
  - cbn [foldl]. destruct (decide (id = k)) as [-> | Hne].
    + intros Hc. apply cleanup_fold_index in Hc. revert Hc.
      unfold cleanup_step. rewrite L, Hs. unfold index. simpl.
      rewrite lookup_insert_eq. simpl. rewrite Hid, elem_of_difference, elem_of_singleton.
      tauto.
    + apply IH; [| | exact Hid | exact Hs].
      * apply elem_of_cons in Hin as [? | ?]; [contradiction | assumption].
      * rewrite cleanup_step_agents, L.
        destruct (String.eqb_spec id k); [contradiction | reflexivity].
Qed.

Lemma cleanup_step_keyed max_age t w key :
  keyed_by_id w -> keyed_by_id (cleanup_step max_age t w key).
Proof.
  intros Hk id a. rewrite cleanup_step_agents.
  destruct (db_agents w !! id) as [b |] eqn:L; [| discriminate].
  destruct (_ && _); [discriminate |]. intros [= <-]. apply Hk. exact L.
Qed.

Lemma cleanup_fold_keeps_fresh max_age t keys w id a type :
  keyed_by_id w ->
  db_agents (foldl (cleanup_step max_age t) w keys) !! id = Some a ->
  id ∈ index w type ->
  id ∈ index (foldl (cleanup_step max_age t) w keys) type.
Proof.
  revert w. induction keys as [| k keys IH]; intros w Hk L Hin; [exact Hin |].
  cbn [foldl] in *. apply IH; [apply cleanup_step_keyed; exact Hk | exact L |].
  assert (is_Some (db_agents (cleanup_step max_age t w k) !! id)) as [b Hb].
  { rewrite cleanup_fold_agents in L.
    destruct (db_agents (cleanup_step max_age t w k) !! id); [eauto | discriminate]. }
  rewrite cleanup_step_agents in Hb.
  unfold cleanup_step.
  destruct (db_agents w !! k) as [c |] eqn:Lk; [| exact Hin].
  destruct (stale max_age t c) eqn:Hs; [| exact Hin].
  assert (id <> k) as Hne.
  { intros ->. rewrite Lk, String.eqb_refl, Hs in Hb. discriminate. }
  unfold index. simpl. destruct (decide (type = agent_type c)) as [-> | Hty].
  - rewrite lookup_insert_eq. simpl. rewrite (Hk k c Lk). unfold index in Hin. set_solver.
  - rewrite lookup_insert_ne by congruence. exact Hin.
Qed.

(** X6: on a backend that answers and a store whose worker ids do not
    begin with [type:], [cleanup_stale_agents] deletes exactly
    the records whose heartbeat is older than [max_age_seconds] and keeps
    the others unchanged; it only removes ids from the type indexes; the id
    of a deleted record is no longer listed under the record's type; when
    every record is stored under its own id, every kept worker stays listed
    wherever it was; tasks and queues are not touched. *)
Theorem cleanup_stale_agents_removes_stale (max_age : Z) (w : world) :
  quiet w ->
  plain_ids w ->
  exists w',
    RedisStateManager.cleanup_stale_agents max_age w = (Ok tt, w') /\
    (forall id,
        db_agents w' !! id =
        match db_agents w !! id with
        | Some a => if stale max_age (now w) a then None else Some a
        | None => None
        end) /\
    (forall type, index w' type ⊆ index w type) /\
    (forall id a,
        db_agents w !! id = Some a -> agent_id a = id -> stale max_age (now w) a = true ->
        id ∉ index w' (agent_type a)) /\
    (keyed_by_id w ->
     forall id type, is_Some (db_agents w' !! id) -> id ∈ index w type -> id ∈ index w' type) /\
    db_tasks w' = db_tasks w /\ db_queues w' = db_queues w.
Proof.
  intros Hq _. unfold RedisStateManager.cleanup_stale_agents, time_time, redis_scan_agents.
  rewrite try_except_run, bind_run, gets_run, bind_run, backend_gets.
  rewrite (quiet_next_fault w Hq), (quiet_tick w Hq).
  rewrite (cleanup_loop_quiet max_age (now w) _ w Hq).
  set (keys := (map_to_list (db_agents w)).*1).
  assert (forall id a, db_agents w !! id = Some a -> id ∈ keys) as Hkeys.
  { intros id a L. unfold keys. apply list_elem_of_fmap. exists (id, a).
    split; [reflexivity |]. apply elem_of_map_to_list. exact L. }
  eexists. split; [reflexivity |].
  split.
  { intros id. rewrite cleanup_fold_agents.
    destruct (db_agents w !! id) as [a |] eqn:L; [| reflexivity].
    rewrite (bool_decide_eq_true_2 _ (Hkeys id a L)). reflexivity. }
  split; [intros type; apply cleanup_fold_index |].
  split.
  { intros id a L Hid Hs. apply cleanup_fold_unlisted; eauto. }
  split.
  { intros Hk id type [a La] Hin. eapply cleanup_fold_keeps_fresh; eauto. }
  clear Hkeys. generalize keys. clear keys. intros keys. revert w Hq.
  induction keys as [| k keys IH]; intros w Hq; [split; reflexivity |].
  cbn [foldl]. destruct (IH (cleanup_step max_age (now w) w k)) as [E1 E2].
  { apply cleanup_step_quiet. exact Hq. }
  assert (now (cleanup_step max_age (now w) w k) = now w) as En.
  { unfold cleanup_step. destruct (db_agents w !! k) as [a |]; [| reflexivity].
    destruct (stale max_age (now w) a); reflexivity. }
  rewrite En in E1, E2. rewrite E1, E2.
  unfold cleanup_step. destruct (db_agents w !! k) as [a |]; [| split; reflexivity].
  destruct (stale max_age (now w) a); split; reflexivity.
Qed.

Lemma cleanup_stale_agents_removes_stale_witness :
  exists w',
    RedisStateManager.cleanup_stale_agents 30 stale_and_fresh = (Ok tt, w') /\
    db_tasks w' = db_tasks stale_and_fresh.
Proof.
  destruct (cleanup_stale_agents_removes_stale 30 stale_and_fresh eq_refl
              stale_and_fresh_plain_ids)
    as (w' & E & _ & _ & _ & _ & Ht & _).
  exists w'. split; assumption.
Defined.

(** ** Queue length *)




(** ** Records are stored under their own id *)

Lemma keyed_by_id_same (w w' : world) :
  db_agents w' = db_agents w -> keyed_by_id w -> keyed_by_id w'.
Proof. unfold keyed_by_id. intros ->. auto. Qed.

Lemma keyed_by_id_insert (w w' : world) (a : AgentInfo) :
  db_agents w' = <[agent_id a := a]> (db_agents w) -> keyed_by_id w -> keyed_by_id w'.
Proof.
  unfold keyed_by_id. intros -> Hk id b. destruct (decide (id = agent_id a)) as [-> | Hne].
  - rewrite lookup_insert_eq. intros [= <-]. reflexivity.
  - rewrite lookup_insert_ne by congruence. apply Hk.
Qed.

Lemma register_agent_keyed (a : AgentInfo) (w : world) :
  keyed_by_id w -> keyed_by_id (snd (RedisStateManager.register_agent a w)).
Proof.
  intros Hk. rewrite register_agent_unfold.
  destruct (next_fault w); [exact Hk |]. cbv zeta.
  destruct (next_fault _); cbn [snd];
    apply (keyed_by_id_insert w _ a); [reflexivity | exact Hk | reflexivity | exact Hk].
Qed.

Lemma cleanup_loop_shrinks (max_age : Z) (t : Q) (keys : list string) (w : world) :
  agents_shrink w
    (snd (for_each keys (fun key =>
       agent_data <~ redis_get_agent key ;;
       match agent_data with
       | Some agent =>
           if Qltb (inject_Z max_age) (t - last_heartbeat agent)%Q
           then redis_delete_agent key ;;;
                redis_srem (agent_type agent) (agent_id agent)
           else ret tt
       | None => ret tt
       end) w)).
Proof.
  revert w. induction keys as [| k keys IH]; intros w; [intros id a; auto |].
  cbn [for_each]. rewrite bind_run, bind_run.
  unfold redis_get_agent at 1. rewrite backend_gets.
  destruct (next_fault w); [intros id a; auto |].
  change (db_agents (tick w) !! k) with (db_agents w !! k).
  assert (forall w1, agents_shrink w w1 ->
            agents_shrink w (snd (for_each keys (fun key =>
       agent_data <~ redis_get_agent key ;;
       match agent_data with
       | Some agent =>
           if Qltb (inject_Z max_age) (t - last_heartbeat agent)%Q
           then redis_delete_agent key ;;;
                redis_srem (agent_type agent) (agent_id agent)
           else ret tt
       | None => ret tt
       end) w1))) as Hrest.
  { intros w1 H1 id a L. apply H1. apply (IH w1). exact L. }
  destruct (db_agents w !! k) as [b |]; [| rewrite ret_run; apply Hrest; intros id a; auto].
  destruct (Qltb (inject_Z max_age) (t - last_heartbeat b)%Q);
    [| rewrite ret_run; apply Hrest; intros id a; auto].
  rewrite bind_run. unfold redis_delete_agent, redis_srem. rewrite backend_modify.
  destruct (next_fault (tick w)); [intros id a; auto |].
  rewrite backend_modify.
  destruct (next_fault _).
  - intros id a. simpl. rewrite lookup_delete_Some. tauto.
  - apply Hrest. intros id a. simpl. rewrite lookup_delete_Some. tauto.
Qed.

Lemma saturated_world_keyed : keyed_by_id saturated_world.
Proof.
  intros id a. unfold saturated_world. simpl.
  destruct (decide (id = "w1")) as [-> | Hne].
  - rewrite lookup_insert_eq. intros [= <-]. reflexivity.
  - rewrite lookup_insert_ne, lookup_empty by congruence. discriminate.
Qed.

(** X8: every record stored under its own id is an invariant of the
    operations that write worker records ([register_agent],
    [update_agent_heartbeat], [increment_agent_tasks],
    [cleanup_stale_agents], [report_agent_failure],
    [report_agent_success]), whatever the backend does. *)
Theorem state_manager_keeps_records_keyed_by_id (w : world) :
  keyed_by_id w ->
  (forall a, keyed_by_id (snd (RedisStateManager.register_agent a w))) /\
  (forall id, keyed_by_id (snd (RedisStateManager.update_agent_heartbeat id w))) /\
  (forall id d, keyed_by_id (snd (RedisStateManager.increment_agent_tasks id d w))) /\
  (forall max_age, keyed_by_id (snd (RedisStateManager.cleanup_stale_agents max_age w))) /\
  (forall id error, keyed_by_id (snd (LoadBalancer.report_agent_failure id error w))) /\
  (forall id, keyed_by_id (snd (LoadBalancer.report_agent_success id w))).
Proof.
  intros Hk.
  split; [intros a; apply register_agent_keyed; exact Hk |].
  split.
  { intros id. rewrite update_agent_heartbeat_unfold.
    destruct (next_fault w); [exact Hk |].
    destruct (db_agents w !! id) as [a |] eqn:L; [| exact Hk].
    destruct (next_fault (tick w)); [exact Hk |]. cbn [snd].
    apply (keyed_by_id_insert w _ (set_last_heartbeat (now w) a)); [| exact Hk].
    simpl. rewrite (Hk id a L). reflexivity. }
  split.
  { intros id d. rewrite increment_agent_tasks_unfold.
    destruct (next_fault w); [exact Hk |].
    destruct (db_agents w !! id) as [a |] eqn:L; [| exact Hk].
    destruct (next_fault (tick w)); [exact Hk |]. cbn [snd].
    apply (keyed_by_id_insert w _ (set_current_tasks (Z.max 0 (current_tasks a + d)) a));
      [| exact Hk].
    simpl. rewrite (Hk id a L). reflexivity. }
  split.
  { intros max_age id a L. apply Hk.
    revert L. unfold RedisStateManager.cleanup_stale_agents, time_time, redis_scan_agents.
    rewrite try_except_run, bind_run, gets_run, bind_run, backend_gets.
    destruct (next_fault w); [auto |].
    pose proof (cleanup_loop_shrinks max_age (now w)
                  (map_to_list (db_agents (tick w))).*1 (tick w)) as Hs.
    destruct (for_each _ _ (tick w)) as [[[] | e] w']; intros L; exact (Hs id a L). }
  split.
  { intros id error. unfold LoadBalancer.report_agent_failure.
    rewrite bind_run, get_agent_unfold.
    destruct (next_fault w); [exact Hk |].
    destruct (db_agents w !! id) as [a |]; [| exact Hk].
    rewrite bind_run.
    pose proof (register_agent_keyed (set_healthy false a) (tick w) Hk) as H.
    destruct (RedisStateManager.register_agent (set_healthy false a) (tick w)) as [[b | e] w'];
      exact H. }
  intros id. unfold LoadBalancer.report_agent_success.
  rewrite bind_run, get_agent_unfold.
  destruct (next_fault w); [exact Hk |].
  destruct (db_agents w !! id) as [a |]; [| exact Hk].
  destruct (negb (healthy a)); [| exact Hk].
  rewrite bind_run.
  pose proof (register_agent_keyed (set_healthy true a) (tick w) Hk) as H.
  destruct (RedisStateManager.register_agent (set_healthy true a) (tick w)) as [[b | e] w'];
    exact H.
Qed.

Lemma state_manager_keeps_records_keyed_by_id_witness :
  keyed_by_id
    (snd (RedisStateManager.register_agent (agent_record "w2" "alerting" 5 0 0)
            saturated_world)).
Proof.
  exact (proj1 (state_manager_keeps_records_keyed_by_id saturated_world
                  saturated_world_keyed)
           (agent_record "w2" "alerting" 5 0 0)).
Defined.

(** ** Metrics: the statistics of a histogram *)

Lemma sorted_nth_mono (l : list Q) (i j : nat) :
  StronglySorted (fun x y => Qle_bool x y = true) l ->
  (i <= j < length l)%nat ->
  (nth i l 0 <= nth j l 0)%Q.
Proof.
  intros Hs. revert i j. induction Hs as [| x l Hs IH Hall]; intros i j Hij.
  - simpl in Hij. lia.
  - destruct i as [| i], j as [| j]; simpl in *; try lia.
    + apply Qle_refl.
    + apply Qle_bool_iff. rewrite Forall_forall in Hall. apply Hall.
      apply list_elem_of_In, nth_In. lia.
    + apply IH. lia.
Qed.

Lemma last_nth (l : list Q) : List.last l 0%Q = nth (length l - 1) l 0%Q.
Proof.
  induction l as [| x [| y l] IH]; [reflexivity | reflexivity |].
  change (List.last (x :: y :: l) 0%Q) with (List.last (y :: l) 0%Q). rewrite IH.
  simpl. rewrite Nat.sub_0_r. reflexivity.
Qed.

Lemma percentile_index_mono (p q n : nat) :
  (p <= q)%nat -> (percentile_index p n <= percentile_index q n)%nat.
Proof.
  intros Hpq. unfold percentile_index.
  assert (p * n / 100 <= q * n / 100)%nat by (apply Nat.Div0.div_le_mono; nia).
  lia.
Qed.

Lemma percentile_index_bound (p n : nat) : (percentile_index p n <= n - 1)%nat.
Proof. unfold percentile_index. lia. Qed.

(** X9: the statistics of a histogram are ordered:
    [min <= p50 <= p95 <= p99 <= max], for a histogram with samples and for
    the zeros returned without samples (the only case with count 0). *)
Theorem get_histogram_stats_ordered (m : MetricsCollector.t) (name : string)
    (labels : list (string * string)) :
  let s := MetricsCollector.get_histogram_stats name labels m in
  (MetricsCollector.min s <= MetricsCollector.p50 s)%Q /\
  (MetricsCollector.p50 s <= MetricsCollector.p95 s)%Q /\
  (MetricsCollector.p95 s <= MetricsCollector.p99 s)%Q /\
  (MetricsCollector.p99 s <= MetricsCollector.max s)%Q /\
  (MetricsCollector.count s = 0%nat -> MetricsCollector.max s == 0)%Q.
Proof.
  cbv zeta.
  destruct (MetricsCollector._histograms m !! MetricsCollector._make_key name labels)
    as [samples |] eqn:L.
  2: { unfold MetricsCollector.get_histogram_stats. rewrite L. simpl.
       repeat split; try apply Qle_refl. }
  destruct (decide (samples = [])) as [-> | Hne].
  { unfold MetricsCollector.get_histogram_stats. rewrite L. simpl.
    repeat split; try apply Qle_refl. }
  rewrite (get_histogram_stats_unfold m name labels samples L Hne). cbv zeta.
  cbn [MetricsCollector.min MetricsCollector.p50 MetricsCollector.p95 MetricsCollector.p99
       MetricsCollector.max MetricsCollector.count].
  set (vs := sorted_by Qle_bool (map MetricsCollector.value samples)).
  assert (StronglySorted (fun x y => Qle_bool x y = true) vs) as Hs
    by apply (sorted_by_sorted Qle_bool Qle_bool_total Qle_bool_trans).
  assert (length vs = length samples) as Hlen
    by (unfold vs; rewrite length_sorted_by, length_map; reflexivity).
  assert (0 < length vs)%nat as Hpos.
  { rewrite Hlen. destruct samples; [congruence | simpl; lia]. }
  assert (vs <> []) as Hvs by (intros E; rewrite E in Hpos; simpl in Hpos; lia).
  rewrite !(percentile_unfold vs _ Hvs), last_nth.
  pose proof (percentile_index_bound 99 (length vs)) as B99.
  pose proof (percentile_index_mono 50 95 (length vs) ltac:(lia)) as M1.
  pose proof (percentile_index_mono 95 99 (length vs) ltac:(lia)) as M2.
  split; [apply sorted_nth_mono; [exact Hs | lia] |].
  split; [apply sorted_nth_mono; [exact Hs | lia] |].
  split; [apply sorted_nth_mono; [exact Hs | lia] |].
  split; [apply sorted_nth_mono; [exact Hs | lia] |].
  intros Hz. lia.
Qed.

(** ** Metrics: the ring of samples *)

Lemma histogram_count (m : MetricsCollector.t) (name : string)
    (labels : list (string * string)) :
  MetricsCollector.count (MetricsCollector.get_histogram_stats name labels m) =
  length (default [] (MetricsCollector._histograms m
                        !! MetricsCollector._make_key name labels)).
Proof.
  unfold MetricsCollector.get_histogram_stats.
  destruct (default [] _) as [| s old']; [reflexivity |].
  cbn [MetricsCollector.count]. rewrite length_sorted_by, length_map. reflexivity.
Qed.

Lemma record_count (m : MetricsCollector.t) (name : string) (v now : Q)
    (labels : list (string * string)) :
  MetricsCollector.count
    (MetricsCollector.get_histogram_stats name labels
       (MetricsCollector.record name v labels now m)) =
  Nat.min (MetricsCollector.max_histogram_samples m)
    (MetricsCollector.count (MetricsCollector.get_histogram_stats name labels m) + 1).
Proof.
  rewrite !histogram_count. simpl. rewrite lookup_insert_eq. simpl.
  apply deque_append_spec.
Qed.

(** X10: [record] keeps the latest [max_histogram_samples] samples.  The
    samples stored for the key after it are the end of the old ones
    followed by the new one, as many as fit: all of them while there is
    room, and the old ones without the oldest, then the new one, when the
    ring is full.  The count reported after it is
    [min(max_histogram_samples, count + 1)], and with room for at least one
    sample the value just recorded lies between the new [min] and [max].
    The capacity, the counters and the histograms under other keys are not
    touched. *)
Theorem record_keeps_latest_samples (m : MetricsCollector.t) (name : string) (v now : Q)
    (labels : list (string * string)) :
  let before := MetricsCollector.get_histogram_stats name labels m in
  let m' := MetricsCollector.record name v labels now m in
  let after := MetricsCollector.get_histogram_stats name labels m' in
  let key := MetricsCollector._make_key name labels in
  let sample := MetricsCollector.mkSample v now in
  let old := default [] (MetricsCollector._histograms m !! key) in
  let new := default [] (MetricsCollector._histograms m' !! key) in
  MetricsCollector.count after =
    Nat.min (MetricsCollector.max_histogram_samples m) (MetricsCollector.count before + 1) /\
  ((0 < MetricsCollector.max_histogram_samples m)%nat ->
   (MetricsCollector.min after <= v)%Q /\ (v <= MetricsCollector.max after)%Q) /\
  MetricsCollector.max_histogram_samples m' = MetricsCollector.max_histogram_samples m /\
  MetricsCollector._counters m' = MetricsCollector._counters m /\
  new `suffix_of` (old ++ [sample])%list /\
  length new = Nat.min (MetricsCollector.max_histogram_samples m) (length old + 1) /\
  ((length old < MetricsCollector.max_histogram_samples m)%nat -> new = (old ++ [sample])%list) /\
  ((0 < MetricsCollector.max_histogram_samples m)%nat ->
   length old = MetricsCollector.max_histogram_samples m -> new = (drop 1 old ++ [sample])%list) /\
  (forall key', key' <> key ->
     MetricsCollector._histograms m' !! key' = MetricsCollector._histograms m !! key').
Proof.
  cbv zeta.
  set (key := MetricsCollector._make_key name labels).
  set (old := default [] (MetricsCollector._histograms m !! key)).
  set (new := MetricsCollector.deque_append (MetricsCollector.max_histogram_samples m) old
                (MetricsCollector.mkSample v now)).
  assert (MetricsCollector._histograms (MetricsCollector.record name v labels now m) !! key
          = Some new) as L by (simpl; apply lookup_insert_eq).
  destruct (deque_append_spec (MetricsCollector.max_histogram_samples m) old
              (MetricsCollector.mkSample v now)) as [Hsuf Hlen]. fold new in Hsuf, Hlen.
  split; [apply record_count |].
  split.
  { destruct (decide (new = [])) as [E | Hne].
    - intros Hpos. rewrite E in Hlen. simpl in Hlen. lia.
    - rewrite (get_histogram_stats_unfold _ name labels new L Hne). cbv zeta.
      cbn [MetricsCollector.min MetricsCollector.max].
      intros Hpos.
      set (vs := sorted_by Qle_bool (map MetricsCollector.value new)).
      assert (StronglySorted (fun x y => Qle_bool x y = true) vs) as Hs
        by apply (sorted_by_sorted Qle_bool Qle_bool_total Qle_bool_trans).
      assert (v ∈ vs) as Hin.
      { unfold vs. rewrite (sorted_by_perm Qle_bool).
        apply list_elem_of_fmap. exists (MetricsCollector.mkSample v now).
        split; [reflexivity |].
        unfold new, MetricsCollector.deque_append.
        rewrite length_app. simpl.
        apply list_elem_of_lookup.
        exists (Nat.min (MetricsCollector.max_histogram_samples m) (length old + 1) - 1)%nat.
        rewrite lookup_drop, lookup_app_r by lia.
        replace (_ + _ - length old)%nat with 0%nat by lia. reflexivity. }
      destruct vs as [| x vs'] eqn:Evs; [apply elem_of_nil in Hin; contradiction |].
      split.
      + apply Qle_bool_iff.
        apply (sorted_head_least Qle_bool Qle_bool_total x vs' v Hs Hin).
      + apply Qle_bool_iff.
        apply (sorted_last_greatest Qle_bool Qle_bool_total Qle_bool_trans (x :: vs') 0%Q v
                 Hs Hin). }
  split; [reflexivity |]. split; [reflexivity |].
  rewrite L. cbn [default].
  split; [exact Hsuf |]. split; [exact Hlen |].
  split.
  { intros Hroom. unfold new, MetricsCollector.deque_append. cbv zeta.
    rewrite length_app. simpl.
    replace (length old + 1 - MetricsCollector.max_histogram_samples m)%nat with 0%nat by lia.
    reflexivity. }
  split.
  { intros Hpos Hfull. unfold new, MetricsCollector.deque_append. cbv zeta.
    rewrite length_app. simpl.
    replace (length old + 1 - MetricsCollector.max_histogram_samples m)%nat with 1%nat by lia.
    destruct old as [| s old']; [simpl in Hfull; lia | reflexivity]. }
  intros key' Hne. simpl. apply lookup_insert_ne. intros E. apply Hne. symmetry. exact E.
Qed.

(** ** Metrics: keys *)

Lemma pair_leb_total (a b : string * string) :
  MetricsCollector.pair_leb a b = true \/ MetricsCollector.pair_leb b a = true.
Proof.
  unfold MetricsCollector.pair_leb.
  destruct (String.ltb a.1 b.1) eqn:E1; [left; reflexivity |].
  destruct (String.ltb b.1 a.1) eqn:E2; [right; reflexivity |].
  apply string_ltb_false_leb in E1, E2.
  pose proof (String.leb_antisym _ _ E2 E1) as E. rewrite E, !String.eqb_refl. simpl.
  apply String.leb_total.
Qed.

Lemma string_ltb_trans (a b c : string) :
  String.ltb a b = true -> String.ltb b c = true -> String.ltb a c = true.
Proof.
  unfold String.ltb.
  destruct (String.compare a b) eqn:Eab; try discriminate.
  destruct (String.compare b c) eqn:Ebc; try discriminate.
  rewrite (string_compare_trans _ _ _ Eab Ebc). reflexivity.
Qed.

Lemma string_ltb_irrefl (a : string) : String.ltb a a = false.
Proof.
  unfold String.ltb. pose proof (String.compare_antisym a a) as H.
  destruct (String.compare a a); try reflexivity; simpl in H; discriminate.
Qed.

Lemma pair_leb_trans (a b c : string * string) :
  MetricsCollector.pair_leb a b = true -> MetricsCollector.pair_leb b c = true ->
  MetricsCollector.pair_leb a c = true.
Proof.
  unfold MetricsCollector.pair_leb. rewrite !orb_true_iff, !andb_true_iff.
  intros [H1 | [H1 L1]] [H2 | [H2 L2]].
  - left. eapply string_ltb_trans; eassumption.
  - apply String.eqb_eq in H2. rewrite <- H2. left. exact H1.
  - apply String.eqb_eq in H1. rewrite H1. left. exact H2.
  - apply String.eqb_eq in H1, H2. right. split; [apply String.eqb_eq; congruence |].
    eapply string_leb_trans; eassumption.
Qed.

Lemma pair_leb_antisym (a b : string * string) :
  MetricsCollector.pair_leb a b = true -> MetricsCollector.pair_leb b a = true -> a = b.
Proof.
  unfold MetricsCollector.pair_leb. rewrite !orb_true_iff, !andb_true_iff.
  destruct a as [a1 a2], b as [b1 b2]. simpl.
  intros [H1 | [H1 L1]] [H2 | [H2 L2]].
  - pose proof (string_ltb_trans _ _ _ H1 H2) as H. rewrite string_ltb_irrefl in H. discriminate.
  - apply String.eqb_eq in H2. subst. rewrite string_ltb_irrefl in H1. discriminate.
  - apply String.eqb_eq in H1. subst. rewrite string_ltb_irrefl in H2. discriminate.
  - apply String.eqb_eq in H1. subst. f_equal. apply String.leb_antisym; assumption.
Qed.

(** X11: a metric key does not depend on the order in which the labels
    are given: [increment] with the labels in one order is read back by
    [get_counter] with the labels in another, and likewise [record] by
    [get_histogram_stats]. *)
Theorem make_key_ignores_label_order (name : string) (labels labels' : list (string * string)) :
  labels ≡ₚ labels' ->
  MetricsCollector._make_key name labels = MetricsCollector._make_key name labels' /\
  (forall v m,
      MetricsCollector.get_counter name labels' (MetricsCollector.increment name v labels m)
      = (MetricsCollector.get_counter name labels m + v)%Q) /\
  (forall v now m,
      MetricsCollector.count
        (MetricsCollector.get_histogram_stats name labels'
           (MetricsCollector.record name v labels now m)) =
      Nat.min (MetricsCollector.max_histogram_samples m)
        (MetricsCollector.count (MetricsCollector.get_histogram_stats name labels m) + 1)).
Proof.
  intros Hp.
  assert (sorted_by MetricsCollector.pair_leb labels = sorted_by MetricsCollector.pair_leb labels')
    as Hsorted.
  { apply (StronglySorted_unique_strong (fun x y => MetricsCollector.pair_leb x y = true)).
    - intros x y _ _. apply pair_leb_antisym.
    - apply (sorted_by_sorted _ pair_leb_total pair_leb_trans).
    - apply (sorted_by_sorted _ pair_leb_total pair_leb_trans).
    - rewrite !sorted_by_perm. exact Hp. }
  assert (MetricsCollector._make_key name labels = MetricsCollector._make_key name labels')
    as Hkey.
  { unfold MetricsCollector._make_key. rewrite Hsorted.
    destruct labels as [| x l], labels' as [| y l']; try reflexivity.
    - apply Permutation_nil_l in Hp. discriminate.
    - symmetry in Hp. apply Permutation_nil_l in Hp. discriminate. }
  split; [exact Hkey |]. split.
  - intros v m. unfold MetricsCollector.get_counter. rewrite <- Hkey. simpl.
    rewrite lookup_insert_eq. reflexivity.
  - intros v now m.
    rewrite <- (record_count m name v now labels).
    unfold MetricsCollector.get_histogram_stats. rewrite <- Hkey. reflexivity.
Qed.

Lemma make_key_ignores_label_order_witness :
  MetricsCollector._make_key "latency" [("zone", "eu"); ("agent", "a1")]
  = MetricsCollector._make_key "latency" [("agent", "a1"); ("zone", "eu")].
Proof.
  exact (proj1 (make_key_ignores_label_order "latency"
                  [("zone", "eu"); ("agent", "a1")] [("agent", "a1"); ("zone", "eu")]
                  (perm_swap _ _ _))).
Defined.

(** ** Metrics: the lock *)

Lemma outcome_map_deadlock {A B} (f : A -> MetricsCollector.outcome B) (l : list A) :
  (forall x, f x = MetricsCollector.Deadlock) ->
  MetricsCollector.outcome_map f l =
  match l with [] => MetricsCollector.Returns [] | _ => MetricsCollector.Deadlock end.
Proof. intros Hf. destruct l as [| x l]; [reflexivity |]. simpl. rewrite Hf. reflexivity. Qed.

Lemma get_all_metrics_unfold (now : Q) (m : MetricsCollector.t) :
  MetricsCollector.get_all_metrics false now m =
  if decide (MetricsCollector._histograms m = ∅)
  then MetricsCollector.Returns
         (MetricsCollector.mkAllMetrics (MetricsCollector._counters m)
            (MetricsCollector._gauges m) [] (now - MetricsCollector._start_time m)%Q)
  else MetricsCollector.Deadlock.
Proof.
  unfold MetricsCollector.get_all_metrics, MetricsCollector.with_lock.
  rewrite outcome_map_deadlock by reflexivity.
  destruct (decide (MetricsCollector._histograms m = ∅)) as [E | Hne].
  - rewrite E, map_to_list_empty. reflexivity.
  - destruct (map_to_list (MetricsCollector._histograms m)) as [| x l] eqn:El; [| reflexivity].
    apply map_to_list_empty_iff in El. contradiction.
Qed.

(** X12: [get_task_metrics] calls [get_histogram_stats] while it holds
    the collector's lock, which is not re-entrant, so it never returns, and
    neither does [check_sla_compliance]; [get_all_metrics] returns exactly
    when no histogram exists, so it never returns after a [record], and the
    same holds for [Orchestrator.get_stats]. *)
Theorem metrics_reports_wait_for_their_own_lock :
  (forall held now m, MetricsCollector.get_task_metrics held now m = MetricsCollector.Deadlock) /\
  (forall held now m,
      MetricsCollector.check_sla_compliance held now m = MetricsCollector.Deadlock) /\
  (forall now m,
      MetricsCollector.get_all_metrics false now m = MetricsCollector.Deadlock <->
      MetricsCollector._histograms m <> ∅) /\
  (forall name v labels now m,
      MetricsCollector.get_all_metrics false now (MetricsCollector.record name v labels now m)
      = MetricsCollector.Deadlock) /\
  (forall name v p,
      Orchestrator.get_stats (snd (Orchestrator.metric_record name v p))
      = MetricsCollector.Deadlock).
Proof.
  assert (forall name v labels now m,
             MetricsCollector._histograms (MetricsCollector.record name v labels now m) <> ∅)
    as Hrec.
  { intros name v labels now m E. simpl in E.
    apply (insert_non_empty _ _ _ E). }
  split; [intros [] now m; reflexivity |].
  split; [intros [] now m; reflexivity |].
  split.
  { intros now m. rewrite get_all_metrics_unfold.
    destruct (decide (MetricsCollector._histograms m = ∅)); split; try congruence; tauto. }
  split.
  { intros name v labels now m. rewrite get_all_metrics_unfold.
    destruct (decide _) as [E | _]; [exfalso; exact (Hrec _ _ _ _ _ E) | reflexivity]. }
  intros name v p. unfold Orchestrator.get_stats, Orchestrator.metric_record.
  cbn [snd modify metrics with_metrics_collector]. rewrite get_all_metrics_unfold.
  destruct (decide _) as [E | _]; [exfalso; exact (Hrec _ _ _ _ _ E) | reflexivity].
Qed.

(** ** Load balancer: the strategies *)

(** The head of a stable sort is the first of the least elements. *)
Lemma sorted_by_head_first_least {A} (leb : A -> A -> bool) (l : list A) (x : A)
    (rest : list A) :
  (forall a b, leb a b = true \/ leb b a = true) ->
  (forall a b c, leb a b = true -> leb b c = true -> leb a c = true) ->
  sorted_by leb l = x :: rest ->
  exists i,
    l !! i = Some x /\
    (forall y, y ∈ l -> leb x y = true) /\
    (forall j y, (j < i)%nat -> l !! j = Some y -> leb y x = false).
Proof.
  intros Htot Htrans. revert x rest. induction l as [| a l IH]; intros x rest E.
  - discriminate.
  - change (sorted_by leb (a :: l)) with (insert_sorted leb a (sorted_by leb l)) in E.
    destruct (sorted_by leb l) as [| y ys] eqn:Es.
    + apply sorted_by_nil_inv in Es. subst l. simpl in E. injection E as <- <-.
      exists 0%nat. split; [reflexivity |]. split.
      * intros y Hy. apply list_elem_of_singleton in Hy as ->.
        destruct (Htot a a); assumption.
      * intros j y Hj. lia.
    + destruct (IH y ys eq_refl) as (i & Li & Hmin & Hfirst).
      simpl in E. destruct (leb a y) eqn:Eay.
      * injection E as <- <-. exists 0%nat. split; [reflexivity |]. split.
        -- intros z Hz. apply elem_of_cons in Hz as [-> | Hz].
           ++ destruct (Htot a a); assumption.
           ++ eapply Htrans; [exact Eay | apply Hmin; exact Hz].
        -- intros j z Hj. lia.
      * injection E as <- <-. exists (S i). split; [exact Li |]. split.
        -- intros z Hz. apply elem_of_cons in Hz as [-> | Hz].
           ++ destruct (Htot y a) as [H | H]; [exact H | congruence].
           ++ apply Hmin. exact Hz.
        -- intros [| j] z Hj Lz; simpl in Lz.
           ++ injection Lz as <-. exact Eay.
           ++ apply (Hfirst j z); [lia | exact Lz].
Qed.

(** X13: on a list that is not empty [_select_least_loaded] returns
    the first agent of the list whose [current_tasks] is least, and changes
    nothing. *)
Theorem select_least_loaded_first_minimum (l : list AgentInfo) (p : process) :
  l <> [] ->
  exists (a : AgentInfo) (i : nat),
    LoadBalancer._select_least_loaded l p = (Ok a, p) /\
    l !! i = Some a /\
    (forall b, b ∈ l -> current_tasks a <= current_tasks b) /\
    (forall j b, (j < i)%nat -> l !! j = Some b -> current_tasks a < current_tasks b).
Proof.
  intros Hne. unfold LoadBalancer._select_least_loaded.
  destruct (sorted_by _ l) as [| x rest] eqn:E.
  { apply sorted_by_nil_inv in E. contradiction. }
  destruct (sorted_by_head_first_least
              (fun a b : AgentInfo => (current_tasks a <=? current_tasks b)%Z) l x rest)
    as (i & Li & Hmin & Hfirst); [| | exact E |].
  - intros a b. rewrite !Z.leb_le. lia.
  - intros a b c. rewrite !Z.leb_le. lia.
  - exists x, i. split; [reflexivity |]. split; [exact Li |]. split.
    + intros b Hb. apply Z.leb_le, Hmin, Hb.
    + intros j b Hj Lb. apply Z.leb_gt. exact (Hfirst j b Hj Lb).
Qed.

Lemma select_least_loaded_first_minimum_witness :
  exists (a : AgentInfo) (i : nat),
    LoadBalancer._select_least_loaded three_agents analysis_process
      = (Ok a, analysis_process) /\
    three_agents !! i = Some a.
Proof.
  destruct (select_least_loaded_first_minimum three_agents analysis_process
              ltac:(discriminate)) as (a & i & E & L & _).
  exists a, i. split; assumption.
Defined.

(** X14: on a list that is not empty [_select_weighted] returns an
    agent of the list whose score is greatest; the score of an agent with a
    free slot and a load that is not negative is positive. *)
Theorem select_weighted_highest_score (l : list AgentInfo) (p : process) :
  l <> [] ->
  exists a : AgentInfo,
    LoadBalancer._select_weighted l p = (Ok a, p) /\
    a ∈ l /\
    (forall b, b ∈ l -> (LoadBalancer.weighted_score b <= LoadBalancer.weighted_score a)%Q) /\
    (0 <= current_tasks a < max_concurrent_tasks a ->
     (0 < LoadBalancer.weighted_score a)%Q).
Proof.
  intros Hne. unfold LoadBalancer._select_weighted.
  set (scores := map (fun agent => (LoadBalancer.weighted_score agent, agent)) l).
  destruct (sorted_by _ scores) as [| [q x] rest] eqn:E.
  { apply sorted_by_nil_inv in E. unfold scores in E. destruct l; [contradiction | discriminate]. }
  destruct (sorted_by_head_first_least
              (fun x y : Q * AgentInfo => Qle_bool y.1 x.1) scores (q, x) rest)
    as (i & Li & Hmin & _); [| | exact E |].
  - intros a b. apply Qle_bool_total.
  - intros a b c H1 H2. eapply Qle_bool_trans; eassumption.
  - assert ((q, x) ∈ scores) as Hin by (eapply list_elem_of_lookup_2; exact Li).
    apply list_elem_of_fmap in Hin as (y & [= -> ->] & Hy).
    exists y. split; [reflexivity |]. split; [exact Hy |]. split.
    + intros b Hb. apply Qle_bool_iff.
      apply (Hmin (LoadBalancer.weighted_score b, b)).
      apply list_elem_of_fmap. exists b. split; [reflexivity | exact Hb].
    + intros [H0 H1]. unfold LoadBalancer.weighted_score.
      assert ((0 <? max_concurrent_tasks y)%Z = true) as -> by (apply Z.ltb_lt; lia).
      assert (0 < inject_Z (max_concurrent_tasks y))%Q as Hm.
      { change 0%Q with (inject_Z 0). rewrite <- Zlt_Qlt. lia. }
      assert (inject_Z (current_tasks y) < inject_Z (max_concurrent_tasks y))%Q as Hc.
      { rewrite <- Zlt_Qlt. lia. }
      assert (inject_Z (current_tasks y) / inject_Z (max_concurrent_tasks y) < 1)%Q as Hu.
      { apply Qlt_shift_div_r; [exact Hm | lra]. }
      assert (0 < inject_Z (max_concurrent_tasks y - current_tasks y))%Q as Ha.
      { change 0%Q with (inject_Z 0). rewrite <- Zlt_Qlt. lia. }
      apply Qmult_lt_0_compat; [exact Ha | lra].
Qed.

Lemma select_weighted_highest_score_witness :
  exists a : AgentInfo,
    LoadBalancer._select_weighted three_agents analysis_process = (Ok a, analysis_process) /\
    a ∈ three_agents.
Proof.
  destruct (select_weighted_highest_score three_agents analysis_process
              ltac:(discriminate)) as (a & E & Hin & _).
  exists a. split; assumption.
Defined.

Lemma select_round_robin_run (ty : string) (l : list AgentInfo) (p : process) :
  l <> [] ->
  exists (a : AgentInfo) (p' : process),
    LoadBalancer._select_round_robin ty l p = (Ok a, p') /\
    l !! Z.to_nat (round_robin_counter p ty mod Z.of_nat (length l)) = Some a /\
    round_robin_counter p' ty = round_robin_counter p ty + 1 /\
    (forall ty', ty' <> ty -> round_robin_counter p' ty' = round_robin_counter p ty') /\
    store p' = store p /\ metrics p' = metrics p /\ strategy p' = strategy p /\
    task_processors p' = task_processors p.
Proof.
  intros Hne. unfold LoadBalancer._select_round_robin, round_robin_counter.
  assert (0 < Z.of_nat (length l)) as Hlen by (destruct l; [contradiction | simpl; lia]).
  set (c := default 0 (round_robin_counters p !! ty)).
  assert (exists a, l !! Z.to_nat (c mod Z.of_nat (length l)) = Some a) as [a La].
  { apply lookup_lt_is_Some_2.
    pose proof (Z.mod_pos_bound c (Z.of_nat (length l)) Hlen). lia. }
  exists a. run.
  destruct (round_robin_counters p !! ty) as [c0 |] eqn:Lc; run.
  - simpl in c. subst c. rewrite Lc. simpl.
    destruct l as [| x rest]; [contradiction |]. run. rewrite La. run.
    eexists. split; [reflexivity |]. split; [first [exact La | reflexivity] |].
    cbn [round_robin_counters with_round_robin_counters store metrics strategy
         task_processors].
    split; [rewrite lookup_insert_eq; reflexivity |].
    split; [| repeat split].
    intros ty' Hty. rewrite lookup_insert_ne by congruence. reflexivity.
  - simpl in c. subst c.
    cbn [round_robin_counters with_round_robin_counters]. rewrite lookup_insert_eq. simpl.
    destruct l as [| x rest]; [contradiction |]. run. rewrite La. run.
    eexists. split; [reflexivity |]. split; [first [exact La | reflexivity] |].
    cbn [round_robin_counters with_round_robin_counters store metrics strategy
         task_processors].
    split; [rewrite lookup_insert_eq; reflexivity |].
    split; [| repeat split].
    intros ty' Hty. rewrite !lookup_insert_ne by congruence. reflexivity.
Qed.

Lemma round_robin_calls_spec (k : nat) (ty : string) (l : list AgentInfo) (p : process) :
  l <> [] ->
  exists (picked : list AgentInfo) (p' : process),
    round_robin_calls k ty l p = (Ok picked, p') /\
    length picked = k /\
    (forall i, (i < k)%nat ->
       picked !! i =
       l !! Z.to_nat ((round_robin_counter p ty + Z.of_nat i) mod Z.of_nat (length l))) /\
    round_robin_counter p' ty = round_robin_counter p ty + Z.of_nat k.
Proof.
  intros Hne. revert p. induction k as [| k IH]; intros p.
  - exists [], p. split; [reflexivity |]. split; [reflexivity |].
    split; [intros i Hi; lia | lia].
  - destruct (select_round_robin_run ty l p Hne) as (a & p1 & E1 & La & Hc & _).
    destruct (IH p1) as (picked & p' & E & Hlen & Hpick & Hc').
    exists (a :: picked), p'. cbn [round_robin_calls]. rewrite bind_run, E1, bind_run, E.
    split; [reflexivity |]. split; [simpl; lia |]. split.
    + intros [| i] Hi.
      * rewrite Z.add_0_r. rewrite La. reflexivity.
      * change ((a :: picked) !! S i) with (picked !! i).
        rewrite (Hpick i) by lia. rewrite Hc.
        do 3 f_equal. lia.
    + rewrite Hc', Hc. lia.
Qed.

(** X15: [_select_round_robin] rotates: as many selections in a row as
    the list has agents return the list rotated by the counter, so every
    agent once, and advance the counter of the type by that number; it does
    not raise on a list that is not empty, whatever the counter. *)
Theorem select_round_robin_visits_every_agent (ty : string) (l : list AgentInfo)
    (p : process) :
  l <> [] ->
  exists (picked : list AgentInfo) (p' : process),
    round_robin_calls (length l) ty l p = (Ok picked, p') /\
    picked =
      rotate (Z.to_nat (round_robin_counter p ty mod Z.of_nat (length l))) l /\
    picked ≡ₚ l /\
    round_robin_counter p' ty = round_robin_counter p ty + Z.of_nat (length l).
Proof.
  intros Hne.
  destruct (round_robin_calls_spec (length l) ty l p Hne) as (picked & p' & E & Hlen & Hpick & Hc).
  assert (0 < Z.of_nat (length l)) as Hpos by (destruct l; [contradiction | simpl; lia]).
  assert (picked = rotate (Z.to_nat (round_robin_counter p ty mod Z.of_nat (length l))) l) as Hrot.
  { apply list_eq. intros i. destruct (decide (i < length l)%nat) as [Hi | Hi].
    - rewrite (Hpick i Hi), lookup_rotate_r by exact Hi. f_equal.
      unfold rotate_nat_add.
      pose proof (Z.mod_pos_bound (round_robin_counter p ty) (Z.of_nat (length l)) Hpos).
      rewrite Z2Nat.id by lia. f_equal.
      rewrite Zplus_mod_idemp_l. reflexivity.
    - rewrite !lookup_ge_None_2; [reflexivity | rewrite length_rotate; lia | lia]. }
  exists picked, p'. split; [exact E |]. split; [exact Hrot |]. split; [| exact Hc].
  rewrite Hrot. unfold rotate. rewrite Permutation_app_comm, take_drop. reflexivity.
Qed.

Lemma select_round_robin_visits_every_agent_witness :
  exists (picked : list AgentInfo) (p' : process),
    round_robin_calls 3 "data_analysis" three_agents analysis_process = (Ok picked, p') /\
    picked ≡ₚ three_agents.
Proof.
  destruct (select_round_robin_visits_every_agent "data_analysis" three_agents
              analysis_process ltac:(discriminate)) as (picked & p' & E & _ & Hp & _).
  exists picked, p'. split; assumption.
Defined.

Lemma select_strategy_total (ty : string) (av : list AgentInfo) (q : process) :
  av <> [] ->
  exists (a : AgentInfo) (q' : process),
    match strategy q with
    | LEAST_LOADED => LoadBalancer._select_least_loaded av
    | ROUND_ROBIN => LoadBalancer._select_round_robin ty av
    | WEIGHTED => LoadBalancer._select_weighted av
    | RANDOM => LoadBalancer._select_random av
    end q = (Ok a, q') /\ a ∈ av /\ store q' = store q /\
    metrics q' = metrics q /\ task_processors q' = task_processors q.
Proof.
  intros Hne. destruct (strategy q).
  - destruct (select_round_robin_run ty av q Hne)
      as (a & q' & E & La & _ & _ & Hs & Hm & _ & Htp).
    exists a, q'. split; [exact E |]. split; [eapply list_elem_of_lookup_2; exact La |].
    repeat split; assumption.
  - unfold LoadBalancer._select_least_loaded.
    destruct (sorted_by _ av) as [| x rest] eqn:E.
    { apply sorted_by_nil_inv in E. contradiction. }
    exists x, q. split; [reflexivity |].
    split; [eapply sorted_by_head_in; exact E | repeat split].
  - unfold LoadBalancer._select_random. run.
    destruct av as [| x rest] eqn:Eav; [contradiction |]. rewrite <- Eav.
    assert (exists a, av !! (default 0%nat (head (random_source q)) mod length av)%nat = Some a)
      as [a La].
    { apply lookup_lt_is_Some_2. apply Nat.mod_upper_bound. subst av. simpl. lia. }
    subst av. run. rewrite La. run.
    exists a. eexists. split; [reflexivity |].
    split; [eapply list_elem_of_lookup_2; exact La | repeat split].
  - unfold LoadBalancer._select_weighted.
    destruct (sorted_by _ (map _ av)) as [| [s x] rest] eqn:E.
    { apply sorted_by_nil_inv in E. destruct av; [contradiction | discriminate]. }
    exists x, q. split; [reflexivity |]. split; [| repeat split].
    assert ((s, x) ∈ map (fun agent => (LoadBalancer.weighted_score agent, agent)) av) as Hin
      by (eapply sorted_by_head_in; exact E).
    apply list_elem_of_fmap in Hin as (y & [= _ ->] & Hy). exact Hy.
Qed.

Lemma select_agent_sound (ty : string) (p : process) :
  exists (r : option AgentInfo) (p' : process),
    LoadBalancer.select_agent ty p = (Ok r, p') /\
    same_agents (store p) (store p') /\
    metrics p' = metrics p /\ task_processors p' = task_processors p /\
    forall a, r = Some a ->
      registered (store p) ty a /\ available_at (now (store p)) a.
Proof.
  unfold LoadBalancer.select_agent.
  rewrite try_except_run, bind_run, in_store_unfold.
  destruct (get_agents_by_type_spec ty (store p)) as (l & w' & E & Hs & Hl).
  rewrite E. cbn [fst snd]. cbv beta iota.
  destruct l as [| a0 l0].
  { run. exists None. eexists. split; [reflexivity |].
    split; [exact Hs |]. split; [reflexivity |]. split; [reflexivity | discriminate]. }
  set (l := a0 :: l0) in *.
  rewrite bind_run, in_store_unfold.
  unfold LoadBalancer.filter_available. rewrite filter_available_unfold.
  cbn [fst snd store with_store app]. cbv beta iota.
  destruct (filter (fun a => is_available (now w') a = true) l) as [| b0 av0] eqn:Ef.
  { run. exists None. eexists. split; [reflexivity |].
    split; [exact Hs |]. split; [reflexivity |]. split; [reflexivity | discriminate]. }
  set (av := b0 :: av0) in *.
  rewrite bind_run, gets_run. cbv beta iota.
  match goal with
  | |- context [strategy ?q] =>
      destruct (select_strategy_total ty av q) as (a & p'' & Es & Hin & Hst & Hm & Htp);
        [discriminate |]
  end.
  rewrite bind_run, Es, ret_run.
  exists (Some a), p''. split; [reflexivity |].
  split; [rewrite Hst; exact Hs |]. split; [rewrite Hm; reflexivity |].
  split; [rewrite Htp; reflexivity |].
  intros a' [= <-].
  subst av. rewrite <- Ef in Hin.
  apply list_elem_of_filter in Hin as [Hav Hin].
  apply is_available_iff in Hav. destruct Hs as (_ & _ & Hnow). rewrite Hnow in Hav.
  split; [apply Hl, Hin | exact Hav].
Qed.

(** ** Load balancer: reports on workers *)

Lemma report_agent_failure_quiet (id error : string) (w : world) (a : AgentInfo) :
  quiet w -> db_agents w !! id = Some a ->
  LoadBalancer.report_agent_failure id error w =
  (Ok tt,
   with_agent_types
     (fun ix => <[agent_type a := {[agent_id a]} ∪ default ∅ (ix !! agent_type a)]> ix)
     (with_agents (insert (agent_id a) (set_healthy false a)) w)).
Proof.
  intros Hq L. unfold LoadBalancer.report_agent_failure.
  rewrite bind_run, (get_agent_quiet id w Hq), L, bind_run.
  rewrite (register_agent_quiet _ w Hq). reflexivity.
Qed.

Lemma report_agent_success_quiet (id : string) (w : world) (a : AgentInfo) :
  quiet w -> db_agents w !! id = Some a ->
  LoadBalancer.report_agent_success id w =
  (Ok tt,
   if healthy a then w
   else with_agent_types
          (fun ix => <[agent_type a := {[agent_id a]} ∪ default ∅ (ix !! agent_type a)]> ix)
          (with_agents (insert (agent_id a) (set_healthy true a)) w)).
Proof.
  intros Hq L. unfold LoadBalancer.report_agent_success.
  rewrite bind_run, (get_agent_quiet id w Hq), L.
  destruct (healthy a); [reflexivity |]. cbn [negb].
  rewrite bind_run, (register_agent_quiet _ w Hq). reflexivity.
Qed.

(** X16: on a backend that answers and a store keyed by ids,
    [report_agent_failure] stores the worker with [healthy] cleared, after
    which [select_agent] returns no worker with that id, for any type and
    strategy; [report_agent_success] then stores it with [healthy] set, and
    no other record has changed. *)
Theorem report_agent_failure_excludes_until_success (id error : string) (w : world)
    (a : AgentInfo) :
  quiet w -> keyed_by_id w -> db_agents w !! id = Some a ->
  exists w1 w2,
    LoadBalancer.report_agent_failure id error w = (Ok tt, w1) /\
    db_agents w1 !! id = Some (set_healthy false a) /\
    (forall type p, exists r p',
        LoadBalancer.select_agent type (with_store (fun _ => w1) p) = (Ok r, p') /\
        forall b, r = Some b -> agent_id b <> id) /\
    LoadBalancer.report_agent_success id w1 = (Ok tt, w2) /\
    db_agents w2 !! id = Some (set_healthy true a) /\
    (forall id', id' <> id -> db_agents w2 !! id' = db_agents w !! id').
Proof.
  intros Hq Hk L. pose proof (Hk id a L) as Hid.
  rewrite (report_agent_failure_quiet id error w a Hq L), Hid.
  set (w1 := with_agent_types _ (with_agents (insert id (set_healthy false a)) w)).
  assert (quiet w1) as Hq1 by exact Hq.
  assert (db_agents w1 !! id = Some (set_healthy false a)) as L1
    by (simpl; apply lookup_insert_eq).
  exists w1. rewrite (report_agent_success_quiet id w1 _ Hq1 L1).
  cbn [healthy set_healthy agent_id agent_type].
  eexists. split; [reflexivity |]. split; [exact L1 |]. split.
  { intros type p.
    destruct (select_agent_sound type (with_store (fun _ => w1) p))
      as (r & p' & E & _ & _ & _ & Hr).
    exists r, p'. split; [exact E |]. intros b ->.
    destruct (Hr b eq_refl) as [(id' & _ & Lb) (Hh & _)].
    cbn [store with_store] in Lb. intros Hb.
    destruct (decide (id' = id)) as [-> | Hne].
    - rewrite L1 in Lb. injection Lb as <-. discriminate.
    - simpl in Lb. rewrite lookup_insert_ne in Lb by congruence.
      apply Hk in Lb. congruence. }
  split; [reflexivity |]. rewrite Hid. split.
  - simpl. rewrite lookup_insert_eq. reflexivity.
  - intros id' Hne. simpl. rewrite !lookup_insert_ne by congruence. reflexivity.
Qed.

Lemma report_agent_failure_excludes_until_success_witness :
  exists w1 w2,
    LoadBalancer.report_agent_failure "w1" "connection refused" saturated_world
      = (Ok tt, w1) /\
    LoadBalancer.report_agent_success "w1" w1 = (Ok tt, w2).
Proof.
  destruct (report_agent_failure_excludes_until_success "w1" "connection refused"
              saturated_world (agent_record "w1" "data_analysis" 1 1 0)
              eq_refl saturated_world_keyed (lookup_insert_eq _ _ _))
    as (w1 & w2 & E1 & _ & _ & E2 & _).
  exists w1, w2. split; assumption.
Defined.

(** X17: [get_agent_stats] never raises, and [healthy_agents] always
    equals [total_agents], since the agents counted are the healthy ones
    already; the utilization is 0 when the capacity is not positive. *)
Theorem get_agent_stats_counts_healthy_only (type : string) (w : world) :
  exists (s : LoadBalancer.agent_stats) (w' : world),
    LoadBalancer.get_agent_stats type w = (Ok s, w') /\
    LoadBalancer.stats_agent_type s = type /\
    LoadBalancer.healthy_agents s = LoadBalancer.total_agents s /\
    (LoadBalancer.total_capacity s <= 0 -> LoadBalancer.utilization s = 0%Q) /\
    same_agents w w'.
Proof.
  unfold LoadBalancer.get_agent_stats. rewrite bind_run.
  destruct (get_agents_by_type_spec type w) as (l & w' & E & Hs & Hl).
  rewrite E, ret_run. eexists _, _. split; [reflexivity |].
  cbn [LoadBalancer.stats_agent_type LoadBalancer.healthy_agents LoadBalancer.total_agents
       LoadBalancer.total_capacity LoadBalancer.utilization].
  split; [reflexivity |].
  split.
  { clear E. induction l as [| x l IH]; [reflexivity |].
    cbn [List.filter]. rewrite (proj1 (Hl x ltac:(left))). simpl. f_equal.
    apply IH. intros a Ha. apply Hl. right. exact Ha. }
  split; [| exact Hs].
  intros Hcap. destruct (0 <? _)%Z eqn:Ez; [apply Z.ltb_lt in Ez; lia | reflexivity].
Qed.

Lemma fresh_worker_registered :
  registered stale_and_fresh "data_analysis" (agent_record "w-fresh" "data_analysis" 10 7 95).
Proof.
  exists "w-fresh". split.
  - unfold stale_and_fresh. simpl. rewrite lookup_insert_eq. simpl.
    apply elem_of_union_r, elem_of_singleton. reflexivity.
  - unfold stale_and_fresh. simpl.
    rewrite lookup_insert_ne by discriminate. apply lookup_insert_eq.
Qed.

Lemma fresh_worker_available :
  available_at (now stale_and_fresh) (agent_record "w-fresh" "data_analysis" 10 7 95).
Proof.
  split; [reflexivity |]. split; [| simpl; lia].
  simpl. unfold Qle. simpl. lia.
Qed.

(** X18: on a backend that answers, [select_agent] returns a worker
    whenever some registered worker of the type is available: the worker
    returned is registered and available, and the store is unchanged. *)
Theorem select_agent_finds_available_worker (ty : string) (p : process) (a : AgentInfo) :
  quiet (store p) ->
  registered (store p) ty a ->
  available_at (now (store p)) a ->
  exists (b : AgentInfo) (p' : process),
    LoadBalancer.select_agent ty p = (Ok (Some b), p') /\
    registered (store p) ty b /\
    available_at (now (store p)) b /\
    store p' = store p.
Proof.
  intros Hq Hreg Hav.
  unfold LoadBalancer.select_agent.
  rewrite try_except_run, bind_run, in_store_unfold.
  rewrite (get_agents_by_type_quiet ty (store p) Hq). cbn [fst snd].
  set (l := List.filter healthy _).
  assert (forall b, b ∈ l <-> healthy b = true /\ registered (store p) ty b) as Hl.
  { intros b. unfold l.
    rewrite list_elem_of_In, filter_In, <- list_elem_of_In, list_elem_of_omap.
    unfold registered, index. split.
    - intros [(id & Hin & L) Hh]. split; [exact Hh |].
      exists id. split; [apply elem_of_elements in Hin; exact Hin | exact L].
    - intros [Hh (id & Hin & L)]. split; [| exact Hh].
      exists id. split; [apply elem_of_elements; exact Hin | exact L]. }
  assert (a ∈ l) as Ha by (apply Hl; split; [apply Hav | exact Hreg]).
  destruct l as [| a0 l0] eqn:El; [apply elem_of_nil in Ha; contradiction |].
  rewrite <- El in *. cbv beta iota.
  rewrite bind_run, in_store_unfold.
  unfold LoadBalancer.filter_available. rewrite filter_available_unfold.
  cbn [fst snd store with_store app].
  set (av := filter (fun a => is_available (now (store p)) a = true) l).
  assert (a ∈ av) as Hin.
  { apply list_elem_of_filter. split; [apply is_available_iff; exact Hav | exact Ha]. }
  destruct av as [| b0 av0] eqn:Eav; [apply elem_of_nil in Hin; contradiction |].
  rewrite <- Eav in *. cbv beta iota.
  rewrite bind_run, gets_run. cbv beta iota.
  match goal with
  | |- context [strategy ?q] =>
      destruct (select_strategy_total ty av q) as (b & q' & Es & Hb & Hst & _);
        [rewrite Eav; discriminate |]
  end.
  rewrite bind_run, Es, ret_run.
  exists b, q'. split; [reflexivity |].
  unfold av in Hb. apply list_elem_of_filter in Hb as [Hb1 Hb2].
  split; [apply Hl; exact Hb2 |].
  split; [apply is_available_iff; exact Hb1 |].
  rewrite Hst. destruct p; reflexivity.
Qed.

Lemma select_agent_finds_available_worker_witness :
  exists (b : AgentInfo) (p' : process),
    LoadBalancer.select_agent "data_analysis" (process_on stale_and_fresh WEIGHTED)
      = (Ok (Some b), p').
Proof.
  destruct (select_agent_finds_available_worker "data_analysis"
              (process_on stale_and_fresh WEIGHTED)
              (agent_record "w-fresh" "data_analysis" 10 7 95)
              eq_refl fresh_worker_registered fresh_worker_available)
    as (b & p' & E & _).
  exists b, p'. exact E.
Defined.

(** ** Sequential execution *)

Section Sequential.

Variable rpc : string -> string -> string -> json -> json -> Q -> rpc_reply.

Lemma sequential_step_spec (task_id : string) (p : plan_entry) (acc : list AgentTaskResult)
    (w : world) :
  exists (r : AgentTaskResult) (b : bool) (w' : world),
    ExecutionEngine.sequential_step rpc task_id p acc w = (Ok ((acc ++ [r])%list, b), w') /\
    res_agent_type r = plan_agent_type p /\
    res_status r = (if b then "completed" else "failed") /\
    ((forall e t i x y, is_ok (reply_result (rpc e t i x y (now w)))) -> b = true).
Proof.
  unfold ExecutionEngine.sequential_step. cbv zeta.
  set (p' := match last acc with
             | Some prev => set_plan_inputs (opt_json (res_output prev)) p
             | None => p
             end).
  assert (plan_agent_type p' = plan_agent_type p) as Hty
    by (unfold p'; destruct (last acc); reflexivity).
  destruct (execute_agent_task_result rpc task_id p' w)
    as (r & w1 & E & _ & Hrt & _ & _ & Hres).
  cbv zeta in Hres.
  rewrite bind_run. unfold attempt at 1. rewrite E.
  destruct (add_agent_execution_total task_id (ExecutionEngine.execution_record r) w1)
    as (b1 & w2 & E2 & _).
  rewrite bind_run. unfold attempt at 1. rewrite E2.
  destruct (reply_result (rpc (plan_endpoint p') task_id (plan_agent_type p')
                            (plan_inputs p') (plan_parameters p') (now w))) as [out | e] eqn:Er.
  - destruct Hres as (Hs & _ & _). rewrite Hs. simpl. rewrite ret_run.
    exists r, true, w2. split; [reflexivity |]. split; [congruence |].
    split; [exact Hs | reflexivity].
  - destruct Hres as (Hs & _ & _). rewrite Hs. simpl. rewrite ret_run.
    exists r, false, w2. split; [reflexivity |]. split; [congruence |].
    split; [exact Hs |].
    intros Hok. specialize (Hok (plan_endpoint p') task_id (plan_agent_type p')
                              (plan_inputs p') (plan_parameters p')).
    rewrite Er in Hok. contradiction.
Qed.

Lemma sequential_loop_spec (task_id : string) (plan : list plan_entry)
    (acc : list AgentTaskResult) (w : world) :
  exists (new : list AgentTaskResult) (w' : world),
    ExecutionEngine.sequential_loop rpc task_id plan acc w = (Ok (acc ++ new)%list, w') /\
    pipeline_shape plan new /\
    ((forall e t i x y q, is_ok (reply_result (rpc e t i x y q))) ->
     length new = length plan /\ Forall (fun r => res_status r = "completed") new).
Proof.
  revert acc w. induction plan as [| p plan IH]; intros acc w.
  - exists [], w. cbn [ExecutionEngine.sequential_loop]. rewrite ret_run, app_nil_r.
    split; [reflexivity |]. split; [| intros _; split; [reflexivity | constructor]].
    split; [reflexivity |]. split; [| reflexivity].
    intros i r L. rewrite lookup_nil in L. discriminate.
  - cbn [ExecutionEngine.sequential_loop]. rewrite bind_run.
    destruct (sequential_step_spec task_id p acc w) as (r & b & w1 & E & Hrt & Hs & Hok).
    rewrite E. cbn [fst snd]. destruct b.
    + destruct (IH (acc ++ [r])%list w1) as (new & w' & E' & (Hty & Hinit & Hlast) & Hall).
      exists (r :: new), w'. rewrite E', <- app_assoc. split; [reflexivity |]. split.
      * split; [simpl; rewrite Hty, Hrt; reflexivity |]. split.
        -- intros [| i] r0 L Hi; simpl in L, Hi.
           ++ injection L as <-. exact Hs.
           ++ apply (Hinit i r0 L). lia.
        -- destruct new as [| r1 new'].
           ++ simpl. right. split; [exact Hs |]. simpl in Hlast. rewrite Hlast. reflexivity.
           ++ change (last (r :: r1 :: new')) with (last (r1 :: new')).
              destruct (last (r1 :: new')) as [rl |] eqn:El.
              ** destruct Hlast as [Hf | [Hc Hlen]]; [left; exact Hf | right].
                 split; [exact Hc |]. simpl in *. lia.
              ** apply last_None in El. discriminate.
      * intros Hrpc. destruct (Hall Hrpc) as [Hlen Hc].
        split; [simpl; lia | constructor; [exact Hs | exact Hc]].
    + rewrite ret_run. exists [r], w1. split; [reflexivity |]. split.
      * split; [simpl; rewrite Hrt, take_0; reflexivity |]. split.
        -- intros [| i] r0 L Hi; simpl in Hi; lia.
        -- simpl. left. exact Hs.
      * intros Hrpc. assert (false = true) as Hc; [| discriminate Hc].
        apply Hok. intros e t i x y. apply Hrpc.
Qed.

End Sequential.

Lemma execute_sequential_unfold
    (rpc : string -> string -> string -> json -> json -> Q -> rpc_reply)
    (task_id : string) (plan : list plan_entry) (task_state : TaskState) (w : world) :
  exists (rs : list AgentTaskResult) (w' : world),
    ExecutionEngine.execute_sequential rpc task_id plan task_state w =
    (Ok (JDict [
       ("execution_mode", JStr "sequential");
       ("execution_time_ms", JNum ((now w' - now w) * 1000)%Q);
       ("agents_executed", JInt (Z.of_nat (length rs)));
       ("pipeline_successful",
          JBool (forallb (fun r => String.eqb (res_status r) "completed") rs));
       ("final_output", opt_json (head (ExecutionEngine.outputs_of (reverse rs))));
       ("pipeline_results", JList (map ExecutionEngine.pipeline_record rs))]), w') /\
    pipeline_shape plan rs /\
    ((forall e t i x y q, is_ok (reply_result (rpc e t i x y q))) ->
     length rs = length plan /\ Forall (fun r => res_status r = "completed") rs).
Proof.
  unfold ExecutionEngine.execute_sequential, time_time.
  rewrite bind_run, gets_run, bind_run.
  destruct (sequential_loop_spec rpc task_id plan [] w) as (rs & w' & E & Hshape & Hall).
  rewrite E. cbn [app]. rewrite bind_run, gets_run, ret_run.
  exists rs, w'. split; [reflexivity |]. split; assumption.
Qed.

Lemma pipeline_shape_length (plan : list plan_entry) (rs : list AgentTaskResult) :
  pipeline_shape plan rs ->
  (length rs <= length plan)%nat /\ (plan <> [] -> rs <> []) /\
  (forallb (fun r => String.eqb (res_status r) "completed") rs = true ->
   length rs = length plan).
Proof.
  intros (Hty & Hinit & Hlast).
  split.
  { apply (f_equal length) in Hty. rewrite length_map, length_take, length_map in Hty. lia. }
  split.
  { intros Hne ->. simpl in Hlast. contradiction. }
  intros Hc. destruct (last rs) as [r |] eqn:El.
  - destruct Hlast as [Hf | [_ Hlen]]; [| exact Hlen].
    rewrite forallb_forall in Hc. apply last_Some_elem_of in El.
    apply list_elem_of_In, Hc in El. rewrite Hf in El. discriminate.
  - apply last_None in El. subst. reflexivity.
Qed.

(** X19: [execute_sequential] never raises and stops at the first
    failed stage: the results are those of a prefix of the plan, in order,
    every stage but the last one completed; [agents_executed] is their
    number and [pipeline_successful] holds only if every stage of the plan
    ran.  If no worker call fails, all stages run and the pipeline is
    successful. *)
Theorem execute_sequential_stops_at_first_failure
    (rpc : string -> string -> string -> json -> json -> Q -> rpc_reply)
    (task_id : string) (plan : list plan_entry) (task_state : TaskState) :
  returns (ExecutionEngine.execute_sequential rpc task_id plan task_state)
    (fun v =>
       exists rs : list AgentTaskResult,
         pipeline_shape plan rs /\
         json_get_default "pipeline_results" JNull v
           = JList (map ExecutionEngine.pipeline_record rs) /\
         json_get_default "agents_executed" JNull v = JInt (Z.of_nat (length rs)) /\
         json_get_default "pipeline_successful" JNull v
           = JBool (forallb (fun r => String.eqb (res_status r) "completed") rs) /\
         (length rs <= length plan)%nat /\
         (plan <> [] -> rs <> []) /\
         (forallb (fun r => String.eqb (res_status r) "completed") rs = true ->
          length rs = length plan) /\
         ((forall e t i x y q, is_ok (reply_result (rpc e t i x y q))) ->
          length rs = length plan /\
          forallb (fun r => String.eqb (res_status r) "completed") rs = true)).
Proof.
  intros w.
  destruct (execute_sequential_unfold rpc task_id plan task_state w)
    as (rs & w' & E & Hshape & Hall).
  rewrite E. eexists _, _. split; [reflexivity |]. exists rs.
  split; [exact Hshape |]. split; [reflexivity |]. split; [reflexivity |].
  split; [reflexivity |].
  destruct (pipeline_shape_length plan rs Hshape) as (Hle & Hne & Hc).
  split; [exact Hle |]. split; [exact Hne |]. split; [exact Hc |].
  intros Hrpc. destruct (Hall Hrpc) as [Hlen Hcs]. split; [exact Hlen |].
  apply forallb_forall. intros r Hr. rewrite Forall_forall in Hcs.
  apply list_elem_of_In, Hcs in Hr. rewrite Hr. reflexivity.
Qed.

(** ** Hybrid execution *)

(** X20: [execute_hybrid] never raises.  For a plan of at most one
    stage the second half is empty, the task state is not changed and
    [final_output] is the whole report of the first half; for a longer plan
    the first half of [n / 2] stages runs in parallel, the [inputs] of the
    task's metadata are overwritten with its results, and between 1 and
    [n - n / 2] stages of the second half run.  The report and the store do
    not depend on the task state: the results written into the metadata
    reach no worker. *)
Theorem execute_hybrid_ignores_first_stage_results
    (rpc : string -> string -> string -> json -> json -> Q -> rpc_reply)
    (task_id : string) (plan : list plan_entry) (task_state : TaskState) (w : world) :
  exists (v : json) (task_state' : TaskState) (w' : world),
    ExecutionEngine.execute_hybrid rpc task_id plan (task_state, w)
      = (Ok v, (task_state', w')) /\
    let stage1 := json_get_default "stage1_results" JNull v in
    let stage2 := json_get_default "stage2_results" JNull v in
    ((length plan <= 1)%nat ->
     task_state' = task_state /\
     stage2 = JDict [("final_output", stage1)] /\
     json_get_default "final_output" JNull v = stage1 /\
     json_get_default "successful_agents" JNull stage1 = JInt (Z.of_nat (length plan))) /\
    ((2 <= length plan)%nat ->
     task_state' =
       set_metadata
         (dict_set "inputs" (json_get_default "results" (JList []) stage1)
            (metadata task_state)) task_state /\
     json_get_default "successful_agents" JNull stage1
       = JInt (Z.of_nat (length plan / 2)) /\
     exists n2 : nat,
       json_get_default "agents_executed" JNull stage2 = JInt (Z.of_nat n2) /\
       (1 <= n2 <= length plan - length plan / 2)%nat) /\
    (forall other : TaskState,
        exists other',
          ExecutionEngine.execute_hybrid rpc task_id plan (other, w) = (Ok v, (other', w'))).
Proof.
  unfold ExecutionEngine.execute_hybrid, ExecutionEngine.on_world, time_time.
  set (n := length plan).
  set (mid := if (1 <? n)%nat then (n / 2)%nat else 1%nat).
  destruct (execute_parallel_counts_all_successful rpc task_id (take mid plan) task_state w)
    as (v1 & w1 & E1 & Hs1 & _).
  assert (forall ts, ExecutionEngine.execute_parallel rpc task_id (take mid plan) ts
                     = ExecutionEngine.execute_parallel rpc task_id (take mid plan) task_state)
    as Hpar by reflexivity.
  assert (forall l ts, ExecutionEngine.execute_sequential rpc task_id l ts
                     = ExecutionEngine.execute_sequential rpc task_id l task_state)
    as Hseq by reflexivity.
  destruct (drop mid plan) as [| p2 rest2] eqn:Ed.
  - assert (n <= 1)%nat as Hn.
    { apply (f_equal length) in Ed. rewrite length_drop in Ed. simpl in Ed. fold n in Ed.
      unfold mid in Ed. destruct (1 <? n)%nat eqn:En; [| apply Nat.ltb_ge in En; lia].
      apply Nat.ltb_lt in En. pose proof (Nat.div_lt n 2 ltac:(lia) ltac:(lia)). lia. }
    eexists _, task_state, w1. split.
    { exec. rewrite E1. exec. reflexivity. }
    cbv zeta. cbn [json_get_default dict_get_default dict_get String.eqb Ascii.eqb Bool.eqb].
    split.
    { intros _. repeat split. rewrite Hs1. rewrite length_take. fold n.
      unfold mid. destruct (1 <? n)%nat eqn:En; [apply Nat.ltb_lt in En; lia |].
      do 2 f_equal. lia. }
    split; [intros H2; fold n in H2; lia |].
    intros other. exists other. exec. rewrite (Hpar other), E1. exec. reflexivity.
  - assert (2 <= n)%nat as Hn.
    { destruct (decide (2 <= n)%nat) as [H | H]; [exact H | exfalso].
      assert (length (drop mid plan) = 0)%nat as Hl; [| rewrite Ed in Hl; discriminate].
      rewrite length_drop. fold n. unfold mid.
      destruct (1 <? n)%nat eqn:En; [apply Nat.ltb_lt in En; lia | lia]. }
    assert (mid = n / 2)%nat as Hmid.
    { unfold mid. destruct (1 <? n)%nat eqn:En; [reflexivity | apply Nat.ltb_ge in En; lia]. }
    destruct (execute_sequential_unfold rpc task_id (p2 :: rest2) task_state w1)
      as (rs & w2 & E2 & Hshape & _).
    destruct (pipeline_shape_length _ _ Hshape) as (Hle & Hne & _).
    eexists _, _, w2. split.
    { exec. rewrite E1. exec. rewrite (Hseq _ _), E2. exec. reflexivity. }
    cbv zeta. cbn [json_get_default dict_get_default dict_get String.eqb Ascii.eqb Bool.eqb].
    split; [intros H1; fold n in H1; lia |].
    split.
    { intros _. split; [reflexivity |]. split.
      - rewrite Hs1, length_take. fold n. rewrite Hmid. do 2 f_equal.
        pose proof (Nat.div_lt n 2 ltac:(lia) ltac:(lia)). lia.
      - exists (length rs). split; [reflexivity |].
        assert (length (p2 :: rest2) = n - n / 2)%nat as Hl2.
        { rewrite <- Ed, length_drop. fold n. rewrite Hmid. reflexivity. }
        rewrite <- Hl2. split; [| exact Hle].
        destruct rs; [exfalso; apply Hne; [discriminate | reflexivity] | simpl; lia]. }
    intros other. eexists. exec. rewrite (Hpar other), E1. exec.
    rewrite (Hseq _ _), E2. exec. reflexivity.
Qed.

(** ** Stage dispatch: the load count *)

Lemma increment_agent_tasks_quiet (id : string) (d : Z) (w : world) :
  quiet w ->
  RedisStateManager.increment_agent_tasks id d w =
  match db_agents w !! id with
  | Some a =>
      (Ok true,
       with_agents (insert id (set_current_tasks (Z.max 0 (current_tasks a + d)) a)) w)
  | None => (Ok false, w)
  end.
Proof.
  intros Hq. rewrite increment_agent_tasks_unfold.
  rewrite (quiet_next_fault w Hq), !(quiet_tick w Hq), (quiet_next_fault w Hq).
  destruct (db_agents w !! id); reflexivity.
Qed.

(** X21: on a backend that answers, [_execute_agent_task] always
    returns a result and leaves the load of the worker as it was: the record
    of the stage's worker is restored when its [current_tasks] was not
    negative (a negative one becomes 0), no other worker and no task is
    changed, and a stage whose worker is not registered changes nothing. *)
Theorem execute_agent_task_restores_load
    (rpc : string -> string -> string -> json -> json -> Q -> rpc_reply)
    (task_id : string) (plan : plan_entry) (w : world) :
  quiet w ->
  exists (r : AgentTaskResult) (w' : world),
    ExecutionEngine._execute_agent_task rpc task_id plan w = (Ok r, w') /\
    quiet w' /\
    db_tasks w' = db_tasks w /\
    (forall id, id <> plan_agent_id plan -> db_agents w' !! id = db_agents w !! id) /\
    match db_agents w !! plan_agent_id plan with
    | Some a =>
        db_agents w' !! plan_agent_id plan =
          Some (set_current_tasks (Z.max 0 (current_tasks a)) a) /\
        (0 <= current_tasks a -> db_agents w' = db_agents w)
    | None => db_agents w' = db_agents w
    end.
Proof.
  intros Hq. rewrite execute_agent_task_split.
  unfold ExecutionEngine.agent_task_begin, ExecutionEngine.agent_task_end, time_time, sleep.
  run. rewrite (increment_agent_tasks_quiet _ 1 w Hq).
  destruct (db_agents w !! plan_agent_id plan) as [a |] eqn:L.
  - run. cbn [fst snd].
    match goal with
    | |- context [RedisStateManager.increment_agent_tasks ?i ?d ?w2] =>
        assert (quiet w2) as Hq2 by exact Hq;
        rewrite (increment_agent_tasks_quiet i d w2 Hq2)
    end.
    cbn [db_agents with_agents with_now]. rewrite lookup_insert_eq.
    cbn [current_tasks set_current_tasks].
    assert (Z.max 0 (Z.max 0 (current_tasks a + 1) + -1) = Z.max 0 (current_tasks a)) as ->
      by lia.
    destruct (reply_result _); run; eexists _, _; (split; [reflexivity |]);
      (split; [exact Hq |]); (split; [reflexivity |]);
      (split; [intros id Hne; simpl; rewrite !lookup_insert_ne by congruence; reflexivity |]);
      (split; [simpl; rewrite lookup_insert_eq; reflexivity |]);
      intros Hc; simpl; rewrite insert_insert_eq; apply insert_id;
      rewrite L; f_equal; rewrite Z.max_r by lia; destruct a; reflexivity.
  - run. cbn [fst snd].
    match goal with
    | |- context [RedisStateManager.increment_agent_tasks ?i ?d ?w2] =>
        assert (quiet w2) as Hq2 by exact Hq;
        rewrite (increment_agent_tasks_quiet i d w2 Hq2)
    end.
    cbn [db_agents with_agents with_now]. rewrite L.
    destruct (reply_result _); run; eexists _, _; (split; [reflexivity |]);
      (split; [exact Hq |]); repeat split.
Qed.

Lemma execute_agent_task_restores_load_witness :
  exists (r : AgentTaskResult) (w' : world),
    ExecutionEngine._execute_agent_task simulated_rpc "t1" one_stage saturated_world
      = (Ok r, w') /\
    quiet w'.
Proof.
  destruct (execute_agent_task_restores_load simulated_rpc "t1" one_stage saturated_world
              eq_refl) as (r & w' & E & Hq & _).
  exists r, w'. split; assumption.
Defined.

(** ** Orchestrator: submission *)

Lemma submitted_counter_key (ty : string) : "tasks_submitted_" ++ ty <> "tasks_submitted".
Proof. simpl. discriminate. Qed.

Lemma submit_failed_counter_key (ty : string) :
  "tasks_submitted_" ++ ty <> "tasks_submit_failed".
Proof. simpl. discriminate. Qed.

(** X22: [submit_task] always returns a dict for the task id.  When the
    backend answers, the status is "queued", the stored record is QUEUED
    with no executions, retry count 0 and the definition's metadata, the id
    is queued with the definition's priority and [tasks_submitted] is one
    more; when it does not, the status is "failed" with "State management
    error" and nothing is stored or counted.  The "Submission error" answer
    is never given and [tasks_submit_failed] never changes.  The [inputs],
    [execution_mode] and [timeout_ms] of the definition have no effect. *)
Theorem submit_task_stores_queued_record (task_def : Orchestrator.TaskDefinition)
    (p : process) :
  let id := Orchestrator.def_task_id task_def in
  let type := Orchestrator.def_task_type task_def in
  exists (v : json) (p' : process),
    Orchestrator.submit_task task_def p = (Ok v, p') /\
    json_get_default "task_id" JNull v = JStr id /\
    json_get_default "error" JNull v <> JStr "Submission error" /\
    MetricsCollector.get_counter "tasks_submit_failed" [] (metrics p')
      = MetricsCollector.get_counter "tasks_submit_failed" [] (metrics p) /\
    match next_fault (store p) with
    | None =>
        json_get_default "status" JNull v = JStr "queued" /\
        db_tasks (store p') !! id = Some (submitted_state task_def (now (store p))) /\
        queue (store p') type !! id = Some (Orchestrator.def_priority task_def) /\
        MetricsCollector.get_counter "tasks_submitted" [] (metrics p')
          = (MetricsCollector.get_counter "tasks_submitted" [] (metrics p) + 1)%Q
    | Some _ =>
        json_get_default "status" JNull v = JStr "failed" /\
        json_get_default "error" JNull v = JStr "State management error" /\
        db_tasks (store p') = db_tasks (store p) /\
        db_queues (store p') = db_queues (store p) /\
        metrics p' = metrics p
    end /\
    (forall inputs mode timeout_ms,
        Orchestrator.submit_task
          (Orchestrator.mkTaskDefinition id type inputs mode
             (Orchestrator.def_priority task_def) timeout_ms
             (Orchestrator.def_metadata task_def)) p
        = (Ok v, p')).
Proof.
  cbv zeta. destruct task_def as [id type inputs0 mode0 prio timeout0 md].
  cbn [Orchestrator.def_task_id Orchestrator.def_task_type Orchestrator.def_priority
       Orchestrator.def_metadata].
  assert (forall inputs mode timeout_ms,
             Orchestrator.submit_task
               (Orchestrator.mkTaskDefinition id type inputs mode prio timeout_ms md) p
             = Orchestrator.submit_task
                 (Orchestrator.mkTaskDefinition id type inputs0 mode0 prio timeout0 md) p)
    as Hsame by reflexivity.
  cut (exists (v : json) (p' : process),
    Orchestrator.submit_task
      (Orchestrator.mkTaskDefinition id type inputs0 mode0 prio timeout0 md) p = (Ok v, p') /\
    json_get_default "task_id" JNull v = JStr id /\
    json_get_default "error" JNull v <> JStr "Submission error" /\
    MetricsCollector.get_counter "tasks_submit_failed" [] (metrics p')
      = MetricsCollector.get_counter "tasks_submit_failed" [] (metrics p) /\
    match next_fault (store p) with
    | None =>
        json_get_default "status" JNull v = JStr "queued" /\
        db_tasks (store p') !! id
          = Some (submitted_state
                    (Orchestrator.mkTaskDefinition id type inputs0 mode0 prio timeout0 md)
                    (now (store p))) /\
        queue (store p') type !! id = Some prio /\
        MetricsCollector.get_counter "tasks_submitted" [] (metrics p')
          = (MetricsCollector.get_counter "tasks_submitted" [] (metrics p) + 1)%Q
    | Some _ =>
        json_get_default "status" JNull v = JStr "failed" /\
        json_get_default "error" JNull v = JStr "State management error" /\
        db_tasks (store p') = db_tasks (store p) /\
        db_queues (store p') = db_queues (store p) /\
        metrics p' = metrics p
    end).
  { intros (v & p' & E & H1 & H2 & H3 & H4). exists v, p'.
    split; [exact E |]. split; [exact H1 |]. split; [exact H2 |]. split; [exact H3 |].
    split; [exact H4 |]. intros inputs mode timeout_ms. rewrite Hsame. exact E. }
  unfold Orchestrator.submit_task, Orchestrator.metric_increment, time_time.
  rewrite bind_run, in_store_unfold, gets_run. cbn [fst snd].
  rewrite try_except_run, bind_run, in_store_unfold.
  cbn [store with_store]. rewrite create_task_unfold.
  destruct (next_fault (store p)); cbn [fst snd negb]; run.
  - eexists _, _. split; [reflexivity |].
    split; [reflexivity |]. split; [discriminate |]. split; [reflexivity |].
    repeat split.
  - eexists _, _. split; [reflexivity |].
    split; [reflexivity |]. split; [discriminate |].
    cbn [metrics with_metrics_collector with_store store].
    unfold MetricsCollector.get_counter.
    cbn [MetricsCollector._counters MetricsCollector.increment MetricsCollector._make_key].
    split.
    { rewrite lookup_insert_ne by apply submit_failed_counter_key.
      rewrite lookup_insert_ne by discriminate. reflexivity. }
    split; [reflexivity |].
    split; [simpl; apply lookup_insert_eq |].
    split; [unfold queue; simpl; rewrite lookup_insert_eq; simpl; apply lookup_insert_eq |].
    rewrite lookup_insert_ne by apply submitted_counter_key.
    rewrite lookup_insert_eq. reflexivity.
Qed.

(** ** Orchestrator: cancellation *)

(** X23: on a backend that answers, [cancel_task] on a stored task
    that is not in a terminal state returns [True]: the record becomes
    CANCELLED with the error code CANCELLED and keeps its output and retry
    count, a status message is published and [tasks_cancelled] is one more.
    The queues and [task_processors] are left as they are, so a queued id
    stays queued and a running task is not interrupted. *)
Theorem cancel_task_leaves_task_queued (id reason : string) (p : process) (t : TaskState) :
  quiet (store p) ->
  db_tasks (store p) !! id = Some t ->
  Orchestrator.is_terminal (status t) = false ->
  exists (p' : process) (t' : TaskState),
    Orchestrator.cancel_task id reason p = (Ok true, p') /\
    db_tasks (store p') !! id = Some t' /\
    status t' = CANCELLED /\
    error t' = Some (JDict [("message", JStr ("Cancelled: " ++ reason));
                            ("code", JStr "CANCELLED")]) /\
    output t' = output t /\ retry_count t' = retry_count t /\
    updated_at t' = now (store p) /\
    db_queues (store p') = db_queues (store p) /\
    task_processors p' = task_processors p /\
    MetricsCollector.get_counter "tasks_cancelled" [] (metrics p')
      = (MetricsCollector.get_counter "tasks_cancelled" [] (metrics p) + 1)%Q /\
    head (published (store p'))
      = Some ("task_updates:" ++ id, status_message CANCELLED (now (store p))).
Proof.
  intros Hq L Ht. unfold Orchestrator.cancel_task, Orchestrator.metric_increment.
  rewrite try_except_run, bind_run, in_store_unfold, (get_task_quiet id _ Hq), L.
  cbn [fst snd]. rewrite Ht.
  rewrite bind_run, in_store_unfold.
  assert (store (with_store (fun _ => store p) p) = store p) as -> by reflexivity.
  rewrite (update_task_status_quiet id CANCELLED _ None (store p) t Hq L).
  cbn [fst snd]. run.
  eexists _, _. split; [reflexivity |].
  cbn [store with_store with_metrics_collector metrics task_processors].
  split; [simpl; apply lookup_insert_eq |].
  repeat split.
  unfold MetricsCollector.get_counter. simpl. rewrite lookup_insert_eq. reflexivity.
Qed.

Lemma cancel_task_leaves_task_queued_witness :
  exists (p' : process) (t' : TaskState),
    Orchestrator.cancel_task "q1" "no longer needed" (process_on queued_world LEAST_LOADED)
      = (Ok true, p') /\
    db_tasks (store p') !! "q1" = Some t' /\
    status t' = CANCELLED.
Proof.
  destruct (cancel_task_leaves_task_queued "q1" "no longer needed"
              (process_on queued_world LEAST_LOADED) (queued_task "q1" 5)
              eq_refl (lookup_insert_eq _ _ _) eq_refl)
    as (p' & t' & E & L & Hs & _).
  exists p', t'. repeat split; assumption.
Defined.

(** ** Orchestrator: the execution of one task *)

Lemma total_in_store {A} (m : M world A) : total m -> total (in_store m).
Proof. intros H. unfold in_store. apply total_zoom. exact H. Qed.

Lemma total_on_process {A} (m : M process A) : total m -> total (Orchestrator.on_process m).
Proof. intros H. unfold Orchestrator.on_process. apply total_zoom. exact H. Qed.

Lemma create_task_total (t : TaskState) : total (RedisStateManager.create_task t).
Proof. apply total_handler_ret. Qed.

Lemma execute_task_except_total (task_id : string) (e : exn) :
  total (Orchestrator.execute_task_except task_id e).
Proof.
  unfold Orchestrator.execute_task_except.
  eapply returns_bind; [apply returns_gets |]. intros ts _.
  destruct (retry_count ts <? 3)%Z.
  - eapply returns_bind; [apply returns_modify |]. intros _ _.
    eapply returns_bind;
      [apply total_on_process, total_in_store, update_task_status_total |]. intros _ _.
    eapply returns_bind; [apply returns_gets |]. intros ts' _.
    eapply returns_bind; [apply total_on_process, total_in_store, returns_modify |].
    intros _ _.
    eapply returns_bind; [apply total_on_process, total_in_store, create_task_total |].
    intros _ _.
    apply total_on_process, returns_modify.
  - eapply returns_bind;
      [apply total_on_process, total_in_store, update_task_status_total |]. intros _ _.
    apply total_on_process, returns_modify.
Qed.

(** X24: [_execute_task] never raises.  When the record of the task is
    read, the id is not in [task_processors] afterwards; when it is not (no
    such record, or the backend fails), nothing is run and nothing but the
    backend's call is consumed: [task_processors] keeps the id. *)
Theorem execute_task_always_returns
    (rpc : string -> string -> string -> json -> json -> Q -> rpc_reply)
    (task_id : string) (p : process) :
  exists p' : process,
    Orchestrator._execute_task rpc task_id p = (Ok tt, p') /\
    match next_fault (store p), db_tasks (store p) !! task_id with
    | None, Some _ => task_id ∉ task_processors p'
    | _, _ => p' = with_store tick p
    end.
Proof.
  unfold Orchestrator._execute_task, time_time.
  rewrite bind_run, in_store_unfold, gets_run. cbn [fst snd].
  rewrite bind_run, in_store_unfold. cbn [store with_store]. rewrite get_task_unfold.
  cbn [fst snd].
  assert (with_store (fun _ => tick (store p)) (with_store (fun _ => store p) p)
          = with_store tick p) as -> by reflexivity.
  destruct (next_fault (store p)); [eexists; split; reflexivity |].
  destruct (db_tasks (store p) !! task_id) as [t |]; [| eexists; split; reflexivity].
  rewrite with_local_run, try_finally_run.
  destruct (total_try_except (Orchestrator.execute_task_try rpc task_id (now (store p)))
              (Orchestrator.execute_task_except task_id)
              (execute_task_except_total task_id) (t, with_store tick p))
    as ([] & s' & E & _).
  rewrite E, modify_run. eexists. split; [reflexivity |].
  cbn [snd task_processors with_task_processors].
  rewrite elem_of_difference, elem_of_singleton. tauto.
Qed.

(** ** Orchestrator: the execution plan *)

Lemma registered_same_agents (w w' : world) (ty : string) (a : AgentInfo) :
  same_agents w w' -> registered w' ty a -> registered w ty a.
Proof.
  intros (Ha & Ht & _) (id & Hin & L). exists id. rewrite <- Ha, <- Ht. split; assumption.
Qed.

Lemma build_execution_plan_loop (task_state : TaskState) (required : list string)
    (acc : list plan_entry) (p : process) :
  exists (r : result (list plan_entry)) (p' : process),
    fold_m (fun plan agent_type =>
              agent <~ LoadBalancer.select_agent agent_type ;;
              match agent with
              | None =>
                  raise (Exn RuntimeError ("No available agents for type: " ++ agent_type))
              | Some agent =>
                  ret (plan ++ [mkPlan (agent_id agent) agent_type (endpoint agent)
                                  (dict_get_default "inputs" (JList []) (metadata task_state))
                                  (dict_get_default "parameters" (JDict [])
                                     (metadata task_state))])%list
              end) required acc p = (r, p') /\
    same_agents (store p) (store p') /\
    metrics p' = metrics p /\ task_processors p' = task_processors p /\
    match r with
    | Ok plan =>
        exists new,
          plan = (acc ++ new)%list /\
          map plan_agent_type new = required /\
          Forall (plan_entry_for (store p) task_state) new
    | Raise e =>
        exists type,
          type ∈ required /\
          e = Exn RuntimeError ("No available agents for type: " ++ type)
    end.
Proof.
  revert acc p. induction required as [| ty required IH]; intros acc p.
  - exists (Ok acc), p. split; [reflexivity |]. split; [apply same_agents_refl |].
    split; [reflexivity |]. split; [reflexivity |].
    exists []. rewrite app_nil_r. repeat split. constructor.
  - cbn [fold_m]. rewrite bind_run, bind_run.
    destruct (select_agent_sound ty p) as (r & p1 & E & Hs & Hm & Htp & Hr). rewrite E.
    destruct r as [a |].
    + rewrite ret_run.
      match goal with
      | |- context [fold_m _ required ?acc1 p1] =>
          destruct (IH acc1 p1) as (r' & p' & E' & Hs' & Hm' & Htp' & Hr')
      end.
      exists r', p'. split; [exact E' |].
      split; [eapply same_agents_trans; eassumption |].
      split; [congruence |]. split; [congruence |].
      destruct r' as [plan | e].
      * destruct Hr' as (new & -> & Hty & Hall). eexists (_ :: new).
        split; [rewrite <- app_assoc; reflexivity |].
        split; [simpl; rewrite Hty; reflexivity |].
        constructor.
        -- destruct (Hr a eq_refl) as [Hreg Hav].
           split; [reflexivity |]. split; [reflexivity |].
           exists a. repeat split; try assumption; apply Hav.
        -- eapply Forall_impl; [exact Hall |].
           intros e (Hi & Hp & b & Hreg & Hav & Hid & Hep).
           split; [exact Hi |]. split; [exact Hp |]. exists b.
           split; [eapply registered_same_agents; eassumption |].
           destruct Hs as (_ & _ & Hnow). rewrite <- Hnow.
           repeat split; try assumption; apply Hav.
      * destruct Hr' as (type & Hin & ->). exists type. split; [right; exact Hin | reflexivity].
    + rewrite raise_run. eexists _, p1. split; [reflexivity |].
      split; [exact Hs |]. split; [exact Hm |]. split; [exact Htp |].
      exists ty. split; [left | reflexivity].
Qed.

(** X25: [_build_execution_plan] gives one entry per required agent
    type, in order, each with the inputs and parameters of the task's
    metadata and the id and endpoint of a worker that is registered for the
    type and available; or it raises [RuntimeError] naming a required type
    for which no worker was selected.  It leaves the workers as they are. *)
Theorem build_execution_plan_one_worker_per_stage (task_state : TaskState)
    (required : list string) (p : process) :
  exists (r : result (list plan_entry)) (p' : process),
    Orchestrator._build_execution_plan task_state required p = (r, p') /\
    same_agents (store p) (store p') /\
    match r with
    | Ok plan =>
        map plan_agent_type plan = required /\
        Forall (plan_entry_for (store p) task_state) plan
    | Raise e =>
        exists type,
          type ∈ required /\
          e = Exn RuntimeError ("No available agents for type: " ++ type)
    end.
Proof.
  unfold Orchestrator._build_execution_plan.
  destruct (build_execution_plan_loop task_state required [] p)
    as (r & p' & E & Hs & _ & _ & Hr).
  exists r, p'. split; [exact E |]. split; [exact Hs |].
  destruct r as [plan | e]; [| exact Hr].
  destruct Hr as (new & -> & Hty & Hall). split; assumption.
Qed.

(** ** Orchestrator: the queue sweep *)

Lemma get_queue_length_unfold (type : string) (w : world) :
  RedisStateManager.get_queue_length type w =
  (Ok (match next_fault w with
       | Some _ => 0
       | None => Z.of_nat (size (queue w type))
       end), tick w).
Proof.
  unfold RedisStateManager.get_queue_length.
  rewrite try_except_run, backend_gets. destruct (next_fault w); reflexivity.
Qed.

Lemma zset_min_empty : zset_min ∅ = None.
Proof. unfold zset_min. rewrite map_to_list_empty. reflexivity. Qed.

Lemma queue_tick (w : world) (type : string) : queue (tick w) type = queue w type.
Proof. reflexivity. Qed.

Lemma queue_pop_other (w : world) (type type' : string) (q : gmap string Z) :
  type' <> type -> queue (with_queues (insert type q) w) type' = queue w type'.
Proof. intros Hne. unfold queue. simpl. rewrite lookup_insert_ne by congruence. reflexivity. Qed.

Lemma queue_pop_same (w : world) (type : string) (q : gmap string Z) :
  queue (with_queues (insert type q) w) type = q.
Proof. unfold queue. simpl. rewrite lookup_insert_eq. reflexivity. Qed.

Lemma drain_task_type_spec (type : string) (p : process) :
  exists p' : process,
    Orchestrator.drain_task_type type p = (Ok tt, p') /\ sweep_effect [type] p p'.
Proof.
  unfold Orchestrator.drain_task_type, sweep_effect.
  rewrite bind_run, in_store_unfold, get_queue_length_unfold. cbn [fst snd].
  assert (forall ty, ty ∉ [type] -> ty <> type) as Hother.
  { intros ty Hty ->. apply Hty. left. }
  destruct (0 <? _)%Z eqn:Elen.
  - rewrite bind_run, in_store_unfold. cbn [store with_store].
    rewrite get_next_task_unfold.
    destruct (next_fault (tick (store p))) eqn:F2.
    + cbn [fst snd]. rewrite ret_run. eexists. split; [reflexivity |].
      cbn [store with_store task_processors metrics].
      split; [reflexivity |]. split; [reflexivity |]. split; [reflexivity |].
      split; [reflexivity |]. split; [reflexivity |]. split; [reflexivity |].
      split; [auto |].
      intros Hq. exfalso.
      rewrite (quiet_tick _ Hq), (quiet_next_fault _ Hq) in F2. discriminate.
    + rewrite queue_tick.
      destruct (zset_min (queue (store p) type)) as [[m s] |] eqn:Ez.
      * cbn [fst snd]. destruct (String.eqb_spec m "") as [-> | Hm]; cbn [negb]; run.
        -- eexists. split; [reflexivity |].
           cbn [store with_store task_processors metrics].
           split; [intros ty Hty; rewrite queue_pop_other by (apply Hother; exact Hty);
                   reflexivity |].
           split; [reflexivity |]. split; [reflexivity |]. split; [reflexivity |].
           split; [reflexivity |]. split; [reflexivity |]. split; [auto |].
           intros Hq. split; [rewrite ?(quiet_tick _ Hq); exact Hq |].
           intros ty Hty. apply list_elem_of_singleton in Hty as ->.
           rewrite Ez, queue_pop_same. split; [reflexivity | congruence].
        -- eexists. split; [reflexivity |].
           cbn [store with_store task_processors with_task_processors metrics].
           split; [intros ty Hty; rewrite queue_pop_other by (apply Hother; exact Hty);
                   reflexivity |].
           split; [reflexivity |]. split; [reflexivity |]. split; [reflexivity |].
           split; [reflexivity |].
           split; [apply union_subseteq_r |].
           split.
           { rewrite elem_of_union, elem_of_singleton. intros [H | H]; [congruence | exact H]. }
           intros Hq. split; [rewrite ?(quiet_tick _ Hq); exact Hq |].
           intros ty Hty. apply list_elem_of_singleton in Hty as ->.
           rewrite Ez, queue_pop_same. split; [reflexivity |].
           intros _. apply elem_of_union_l, elem_of_singleton. reflexivity.
      * cbn [fst snd]. rewrite ret_run. eexists. split; [reflexivity |].
        cbn [store with_store task_processors metrics].
        split; [reflexivity |]. split; [reflexivity |]. split; [reflexivity |].
        split; [reflexivity |]. split; [reflexivity |]. split; [reflexivity |].
        split; [auto |].
        intros Hq. split; [rewrite ?(quiet_tick _ Hq); exact Hq |].
        intros ty Hty. apply list_elem_of_singleton in Hty as ->. rewrite Ez. reflexivity.
  - rewrite ret_run. eexists. split; [reflexivity |].
    cbn [store with_store task_processors metrics].
    split; [reflexivity |]. split; [reflexivity |]. split; [reflexivity |].
    split; [reflexivity |]. split; [reflexivity |]. split; [reflexivity |].
    split; [auto |].
    intros Hq. split; [rewrite ?(quiet_tick _ Hq); exact Hq |].
    intros ty Hty. apply list_elem_of_singleton in Hty as ->.
    rewrite (quiet_next_fault _ Hq) in Elen. apply Z.ltb_ge in Elen.
    assert (size (queue (store p) type) = 0%nat) as Hz by lia.
    apply map_size_empty_inv in Hz. rewrite Hz, zset_min_empty. exact Hz.
Qed.

Lemma sweep_spec (types : list string) (p : process) :
  NoDup types ->
  exists p' : process,
    for_each types Orchestrator.drain_task_type p = (Ok tt, p') /\
    sweep_effect types p p'.
Proof.
  intros Hnd. revert p. induction Hnd as [| ty types Hnotin Hnd IH]; intros p.
  - exists p. split; [reflexivity |]. unfold sweep_effect.
    split; [reflexivity |]. split; [reflexivity |]. split; [reflexivity |].
    split; [reflexivity |]. split; [reflexivity |]. split; [reflexivity |].
    split; [auto |]. intros Hq. split; [exact Hq |].
    intros ty Hty. apply elem_of_nil in Hty. contradiction.
  - cbn [for_each]. rewrite bind_run.
    destruct (drain_task_type_spec ty p)
      as (p1 & E1 & Hq1 & Ht1 & Ha1 & Hn1 & Hm1 & Hs1 & He1 & Hquiet1).
    destruct (IH p1) as (p' & E' & Hq' & Ht' & Ha' & Hn' & Hm' & Hs' & He' & Hquiet').
    rewrite E1. exists p'. split; [exact E' |]. unfold sweep_effect.
    split.
    { intros type Htype. rewrite Hq', Hq1; [reflexivity | |].
      - intros H. apply Htype. apply list_elem_of_singleton in H as ->. left.
      - intros H. apply Htype. right. exact H. }
    split; [congruence |]. split; [congruence |]. split; [congruence |].
    split; [congruence |].
    split; [etransitivity; eassumption |].
    split; [auto |].
    intros Hq. destruct (Hquiet1 Hq) as [Hqa Hpop1]. destruct (Hquiet' Hqa) as [Hqb Hpop'].
    split; [exact Hqb |].
    intros type Htype. apply elem_of_cons in Htype as [-> | Htype].
    + specialize (Hpop1 ty ltac:(left)).
      rewrite (Hq' ty Hnotin).
      destruct (zset_min (queue (store p) ty)) as [[m s] |]; [| exact Hpop1].
      destruct Hpop1 as [Hpop Hin]. split; [exact Hpop |].
      intros Hm. apply Hs', Hin, Hm.
    + specialize (Hpop' type Htype).
      assert (type <> ty) as Hne by (intros ->; contradiction).
      rewrite (Hq1 type) in Hpop'.
      2: { intros H. apply list_elem_of_singleton in H. contradiction. }
      exact Hpop'.
Qed.

Lemma swept_types_NoDup : NoDup swept_types.
Proof. apply (bool_decide_unpack _). vm_compute. reflexivity. Qed.

(** X26: one sweep of [_process_task_queues] never raises, takes 0.1 s
    and by itself (the executions it schedules apart) changes neither
    records nor metrics.  It never touches the queue of
    a task type that is not a key of [task_agent_mapping], and never
    schedules the empty id.  When the backend answers it removes from the
    queue of every mapped type the id of least priority, and schedules it
    unless it is empty. *)
Theorem process_task_queues_sweeps_mapped_types_only (p : process) :
  exists p' : process,
    Orchestrator.process_task_queues_once p = (Ok tt, p') /\
    (forall type, type ∉ swept_types -> queue (store p') type = queue (store p) type) /\
    db_tasks (store p') = db_tasks (store p) /\
    db_agents (store p') = db_agents (store p) /\
    metrics p' = metrics p /\
    now (store p') = (now (store p) + (1 # 10))%Q /\
    task_processors p ⊆ task_processors p' /\
    ("" ∈ task_processors p' -> "" ∈ task_processors p) /\
    (quiet (store p) ->
     forall type, type ∈ swept_types ->
       match zset_min (queue (store p) type) with
       | Some (m, _) =>
           queue (store p') type = delete m (queue (store p) type) /\
           (m <> "" -> m ∈ task_processors p')
       | None => queue (store p') type = queue (store p) type
       end).
Proof.
  unfold Orchestrator.process_task_queues_once.
  rewrite try_except_run, bind_run. fold swept_types.
  destruct (sweep_spec swept_types p swept_types_NoDup)
    as (p1 & E & Hq & Ht & Ha & Hn & Hm & Hs & He & Hquiet).
  rewrite E. unfold sleep. rewrite in_store_unfold, modify_run. cbn [fst snd].
  eexists. split; [reflexivity |].
  cbn [store with_store task_processors metrics now with_now db_tasks db_agents].
  split; [intros type Htype; rewrite <- (Hq type Htype); reflexivity |].
  split; [exact Ht |]. split; [exact Ha |]. split; [exact Hm |].
  split; [rewrite Hn; reflexivity |]. split; [exact Hs |]. split; [exact He |].
  intros Hquiet0 type Htype. destruct (Hquiet Hquiet0) as [_ Hpop].
  specialize (Hpop type Htype).
  destruct (zset_min (queue (store p) type)) as [[m s] |]; exact Hpop.
Qed.

(** ** Worker agents: the bookkeeping of [execute] *)

Lemma validate_inputs_result (inputs : list BaseAgent.AgentInput) (a : BaseAgent.t) :
  exists r,
    BaseAgent._validate_inputs inputs a = (r, a) /\
    match r with
    | Ok _ =>
        inputs <> [] /\
        Forall (fun inp => BaseAgent.input_type inp <> "" /\ BaseAgent.data inp <> JNull) inputs
    | Raise e =>
        exn_cls e = ValueError /\
        (inputs = [] \/
         Exists (fun inp => BaseAgent.input_type inp = "" \/ BaseAgent.data inp = JNull) inputs)
    end.
Proof.
  unfold BaseAgent._validate_inputs. destruct inputs as [| i0 rest].
  { eexists. split; [reflexivity |]. split; [reflexivity | left; reflexivity]. }
  assert (i0 :: rest <> []) as Hne by discriminate.
  revert Hne. generalize (i0 :: rest) as l. clear. intros l Hne.
  cut (exists r,
          for_each l (fun inp =>
            if String.eqb (BaseAgent.input_type inp) ""
            then raise (Exn ValueError "Input type is required")
            else if BaseAgent.is_null (BaseAgent.data inp)
                 then raise (Exn ValueError "Input data is required")
                 else ret tt) a = (r, a) /\
          match r with
          | Ok _ =>
              Forall (fun inp => BaseAgent.input_type inp <> "" /\ BaseAgent.data inp <> JNull) l
          | Raise e =>
              exn_cls e = ValueError /\
              Exists (fun inp => BaseAgent.input_type inp = "" \/ BaseAgent.data inp = JNull) l
          end).
  { intros (r & E & Hr). exists r. split; [exact E |].
    destruct r; [split; assumption | destruct Hr; split; [assumption | right; assumption]]. }
  clear Hne. induction l as [| x l IH].
  - exists (Ok tt). split; [reflexivity | constructor].
  - cbn [for_each]. rewrite bind_run.
    destruct (String.eqb_spec (BaseAgent.input_type x) "") as [Ht | Ht].
    { rewrite raise_run. eexists. split; [reflexivity |].
      split; [reflexivity | left; left; exact Ht]. }
    destruct (BaseAgent.data x) eqn:Ed; cbn [BaseAgent.is_null];
      try (rewrite ret_run; destruct IH as ([[] | e] & E & Hr);
           [exists (Ok tt); split; [exact E |];
            constructor; [split; [exact Ht | rewrite Ed; discriminate] | exact Hr]
           | exists (Raise e); split; [exact E |];
             destruct Hr; split; [assumption | right; assumption]]).
    rewrite raise_run. eexists. split; [reflexivity |].
    split; [reflexivity | left; right; exact Ed].
Qed.

(** X27: [BaseAgent.execute] never raises and restores
    [current_tasks] and the semaphore.  It waits at the semaphore (the result [None]
    of the model) exactly when no slot is free, and then changes nothing; otherwise it
    raises exactly one of [total_completed] and [total_failed] by one, in
    agreement with the status returned.  With no inputs, or an input
    without type or data, the result is a failure of type [ValueError] and
    the clock has not advanced: [process] was not run. *)
Theorem execute_keeps_the_counts
    (process : list BaseAgent.AgentInput -> json -> Q -> BaseAgent.process_reply)
    (task_id : string) (inputs : list BaseAgent.AgentInput) (parameters : json)
    (a : BaseAgent.t) :
  exists (r : option json) (a' : BaseAgent.t),
    BaseAgent.execute process task_id inputs parameters a = (Ok r, a') /\
    BaseAgent.current_tasks a' = BaseAgent.current_tasks a /\
    BaseAgent._task_semaphore a' = BaseAgent._task_semaphore a /\
    match r with
    | None => BaseAgent._task_semaphore a <= 0 /\ a' = a
    | Some v =>
        0 < BaseAgent._task_semaphore a /\
        ((json_get_default "status" JNull v = JStr "completed" /\
          BaseAgent.total_completed a' = BaseAgent.total_completed a + 1 /\
          BaseAgent.total_failed a' = BaseAgent.total_failed a) \/
         (json_get_default "status" JNull v = JStr "failed" /\
          json_get_default "output" JNull v = JNull /\
          BaseAgent.total_completed a' = BaseAgent.total_completed a /\
          BaseAgent.total_failed a' = BaseAgent.total_failed a + 1)) /\
        ((inputs = [] \/
          Exists (fun inp => BaseAgent.input_type inp = "" \/ BaseAgent.data inp = JNull)
                 inputs) ->
         json_get_default "status" JNull v = JStr "failed" /\
         json_get_default "type" JNull (json_get_default "error" JNull v) = JStr "ValueError" /\
         BaseAgent.clock a' = BaseAgent.clock a)
    end.
Proof.
  unfold BaseAgent.execute. rewrite bind_run, gets_run, bind_run, gets_run.
  destruct (BaseAgent._task_semaphore a <=? 0)%Z eqn:Es.
  { apply Z.leb_le in Es. rewrite ret_run. exists None, a. repeat split. exact Es. }
  apply Z.leb_gt in Es.
  rewrite bind_run, modify_run, bind_run, try_finally_run.
  unfold BaseAgent.execute_admitted.
  rewrite bind_run, modify_run, try_finally_run, try_except_run, bind_run.
  set (a1 := BaseAgent.with_current_tasks _ (BaseAgent.with_semaphore _ a)).
  destruct (validate_inputs_result inputs a1) as (rv & Ev & Hv). rewrite Ev.
  destruct rv as [[] | e].
  - unfold BaseAgent.await_process. run.
    destruct (BaseAgent.process_result (process inputs parameters (BaseAgent.clock a1)))
      as [out | e] eqn:Ep; unfold reraise; run.
    + eexists _, _. split; [reflexivity |]. simpl.
      split; [lia |]. split; [lia |]. split; [exact Es |]. split.
      * left. repeat split.
      * intros Hbad. exfalso. destruct Hv as [Hne Hall].
        destruct Hbad as [-> | Hex]; [congruence |].
        apply Exists_exists in Hex as (x & Hx & Hbad).
        rewrite Forall_forall in Hall. destruct (Hall x Hx) as [H1 H2].
        destruct Hbad; contradiction.
    + eexists _, _. split; [reflexivity |]. simpl.
      split; [lia |]. split; [lia |]. split; [exact Es |]. split.
      * right. repeat split.
      * intros Hbad. exfalso. destruct Hv as [Hne Hall].
        destruct Hbad as [-> | Hex]; [congruence |].
        apply Exists_exists in Hex as (x & Hx & Hbad).
        rewrite Forall_forall in Hall. destruct (Hall x Hx) as [H1 H2].
        destruct Hbad; contradiction.
  - run. eexists _, _. split; [reflexivity |]. simpl.
    split; [lia |]. split; [lia |]. split; [exact Es |]. split.
    + right. repeat split.
    + intros _. destruct Hv as [Hc _]. rewrite Hc. repeat split.
Qed.

(** ** API caller: the circuit breaker *)

Section Breaker.

Variable api_call : string -> json -> json -> json -> Q -> rpc_reply.
Variables (endpoint : string) (method headers payload : json).

Lemma guarded_call_below_threshold (a : APICallerAgent.t) :
  failure_count a endpoint < APICallerAgent.circuit_breaker_threshold a ->
  let reply := api_call endpoint method headers payload (APICallerAgent.clock a) in
  let a1 := APICallerAgent.with_clock (fun c => (c + reply_elapsed reply)%Q) a in
  APICallerAgent.guarded_call api_call endpoint method headers payload a =
  match reply_result reply with
  | Ok response =>
      (Ok response, APICallerAgent.with_failed_endpoints (delete endpoint) a1)
  | Raise e =>
      (Ok (JDict [("status", JStr "error"); ("endpoint", JStr endpoint);
                  ("error", JStr (str_of_exn e))]),
       APICallerAgent.with_failed_endpoints
         (insert endpoint
            (APICallerAgent.mkFailure (failure_count a endpoint + 1) (APICallerAgent.clock a1)))
         a1)
  end.
Proof.
  intros Hlt. cbv zeta.
  unfold APICallerAgent.guarded_call, APICallerAgent._is_circuit_open, failure_count in *.
  rewrite bind_run, bind_run, gets_run.
  destruct (APICallerAgent.failed_endpoints a !! endpoint) as [d |] eqn:L.
  - rewrite bind_run, gets_run.
    assert ((APICallerAgent.circuit_breaker_threshold a <=? APICallerAgent.count d)%Z = false)
      as -> by (apply Z.leb_gt; exact Hlt).
    run. destruct (reply_result _) as [response | e]; run.
    + unfold APICallerAgent._record_success. run. reflexivity.
    + unfold APICallerAgent._record_failure. run.
      cbn [APICallerAgent.failed_endpoints APICallerAgent.with_clock]. rewrite L. run.
      unfold APICallerAgent.with_failed_endpoints.
      cbn [APICallerAgent.failed_endpoints APICallerAgent.with_clock].
      rewrite L. reflexivity.
  - run. destruct (reply_result _) as [response | e]; run.
    + unfold APICallerAgent._record_success. run. reflexivity.
    + unfold APICallerAgent._record_failure. run.
      cbn [APICallerAgent.failed_endpoints APICallerAgent.with_clock]. rewrite L. run.
      unfold APICallerAgent.with_failed_endpoints.
      cbn [APICallerAgent.failed_endpoints APICallerAgent.with_clock
           APICallerAgent.circuit_breaker_threshold APICallerAgent.circuit_breaker_timeout
           APICallerAgent.clock].
      rewrite lookup_insert_eq, insert_insert_eq. reflexivity.
Qed.

Lemma guarded_call_open (a : APICallerAgent.t) (d : APICallerAgent.failure_data) :
  APICallerAgent.failed_endpoints a !! endpoint = Some d ->
  APICallerAgent.circuit_breaker_threshold a <= APICallerAgent.count d ->
  Qltb (APICallerAgent.circuit_breaker_timeout a)
       (APICallerAgent.clock a - APICallerAgent.last_failure d)%Q = false ->
  APICallerAgent.guarded_call api_call endpoint method headers payload a =
  (Ok (circuit_open_entry endpoint), a).
Proof.
  intros L Hc Ht.
  unfold APICallerAgent.guarded_call, APICallerAgent._is_circuit_open.
  rewrite bind_run, bind_run, gets_run, L, bind_run, gets_run.
  assert ((APICallerAgent.circuit_breaker_threshold a <=? APICallerAgent.count d)%Z = true)
    as -> by (apply Z.leb_le; exact Hc).
  run. rewrite Ht. run. reflexivity.
Qed.

Lemma guarded_call_half_open (a : APICallerAgent.t) (d : APICallerAgent.failure_data) :
  APICallerAgent.failed_endpoints a !! endpoint = Some d ->
  0 < APICallerAgent.circuit_breaker_threshold a <= APICallerAgent.count d ->
  Qltb (APICallerAgent.circuit_breaker_timeout a)
       (APICallerAgent.clock a - APICallerAgent.last_failure d)%Q = true ->
  APICallerAgent.guarded_call api_call endpoint method headers payload a =
  APICallerAgent.guarded_call api_call endpoint method headers payload
    (APICallerAgent.with_failed_endpoints
       (insert endpoint (APICallerAgent.mkFailure 0 0)) a).
Proof.
  intros L Hc Ht.
  unfold APICallerAgent.guarded_call, APICallerAgent._is_circuit_open.
  assert ((APICallerAgent.circuit_breaker_threshold a <=? APICallerAgent.count d)%Z = true)
    as Hge by (apply Z.leb_le; lia).
  assert ((APICallerAgent.circuit_breaker_threshold a <=? 0)%Z = false)
    as Hlt by (apply Z.leb_gt; lia).
  rewrite !bind_run, !gets_run, L.
  cbn [APICallerAgent.failed_endpoints APICallerAgent.with_failed_endpoints].
  rewrite lookup_insert_eq. run.
  cbn [APICallerAgent.circuit_breaker_threshold APICallerAgent.count
       APICallerAgent.with_failed_endpoints].
  rewrite Hge, Hlt. run. rewrite Ht. run. reflexivity.
Qed.

Hypothesis api_fails :
  forall t, exists e, reply_result (api_call endpoint method headers payload t) = Raise e.

Lemma guarded_calls_failing (k : nat) (a : APICallerAgent.t) :
  failure_count a endpoint + Z.of_nat k <= APICallerAgent.circuit_breaker_threshold a ->
  exists (results : list json) (a' : APICallerAgent.t),
    guarded_calls api_call k endpoint method headers payload a = (Ok results, a') /\
    length results = k /\
    Forall (fun r => json_get_default "status" JNull r = JStr "error") results /\
    failure_count a' endpoint = failure_count a endpoint + Z.of_nat k /\
    APICallerAgent.circuit_breaker_threshold a' = APICallerAgent.circuit_breaker_threshold a /\
    APICallerAgent.circuit_breaker_timeout a' = APICallerAgent.circuit_breaker_timeout a /\
    ((0 < k)%nat ->
     exists d, APICallerAgent.failed_endpoints a' !! endpoint = Some d /\
               APICallerAgent.last_failure d = APICallerAgent.clock a').
Proof.
  revert a. induction k as [| k IH]; intros a Hk.
  - exists [], a. split; [reflexivity |]. split; [reflexivity |]. split; [constructor |].
    split; [lia |]. split; [reflexivity |]. split; [reflexivity |]. intros H. lia.
  - cbn [guarded_calls]. rewrite bind_run.
    rewrite guarded_call_below_threshold by lia. cbv zeta.
    destruct (api_fails (APICallerAgent.clock a)) as [e Ee]. rewrite Ee.
    set (a1 := APICallerAgent.with_failed_endpoints _ _).
    assert (failure_count a1 endpoint = failure_count a endpoint + 1) as Hc1.
    { unfold failure_count at 1, a1. simpl. rewrite lookup_insert_eq. reflexivity. }
    destruct (IH a1) as (results & a' & E & Hlen & Hall & Hc & Hth & Hto & Hlast).
    { rewrite Hc1. change (APICallerAgent.circuit_breaker_threshold a1)
        with (APICallerAgent.circuit_breaker_threshold a). lia. }
    rewrite bind_run, E, ret_run. eexists _, a'. split; [reflexivity |].
    split; [simpl; lia |]. split; [constructor; [reflexivity | exact Hall] |].
    split; [rewrite Hc, Hc1; lia |]. split; [exact Hth |]. split; [exact Hto |].
    intros _. destruct k as [| k'].
    + cbn [guarded_calls] in E. rewrite ret_run in E. injection E as _ <-.
      eexists. split; [unfold a1; simpl; apply lookup_insert_eq | reflexivity].
    + apply Hlast. lia.
Qed.

End Breaker.

(** X28: the circuit breaker of the API caller.  Starting from an
    endpoint with no recorded failure, as many failing calls as the
    threshold all reach the API and are reported as errors; then the circuit
    is open: a call to the endpoint made right away, or at any time up to
    [circuit_breaker_timeout] after the last failure, is answered with
    [circuit_open] without any change of state, whatever the API would do;
    after the timeout the next call reaches the API again, and if it fails
    the failure count is 1, not the threshold. *)
Theorem circuit_opens_after_threshold_failures
    (api_call : string -> json -> json -> json -> Q -> rpc_reply)
    (endpoint : string) (method headers payload : json) (a : APICallerAgent.t) :
  (forall t, exists e, reply_result (api_call endpoint method headers payload t) = Raise e) ->
  APICallerAgent.failed_endpoints a !! endpoint = None ->
  0 <= APICallerAgent.circuit_breaker_threshold a ->
  (0 <= APICallerAgent.circuit_breaker_timeout a)%Q ->
  exists (results : list json) (a' : APICallerAgent.t),
    guarded_calls api_call (Z.to_nat (APICallerAgent.circuit_breaker_threshold a))
      endpoint method headers payload a = (Ok results, a') /\
    Z.of_nat (length results) = APICallerAgent.circuit_breaker_threshold a /\
    Forall (fun r => json_get_default "status" JNull r = JStr "error") results /\
    failure_count a' endpoint = APICallerAgent.circuit_breaker_threshold a /\
    (0 < APICallerAgent.circuit_breaker_threshold a ->
     (forall other_call m h pl,
         APICallerAgent.guarded_call other_call endpoint m h pl a'
         = (Ok (circuit_open_entry endpoint), a')) /\
     (forall (wait : Q) other_call m h pl,
         (wait <= APICallerAgent.circuit_breaker_timeout a)%Q ->
         let later := APICallerAgent.with_clock (fun c => (c + wait)%Q) a' in
         APICallerAgent.guarded_call other_call endpoint m h pl later
         = (Ok (circuit_open_entry endpoint), later)) /\
     (forall wait : Q,
         (APICallerAgent.circuit_breaker_timeout a < wait)%Q ->
         exists r a'',
           APICallerAgent.guarded_call api_call endpoint method headers payload
             (APICallerAgent.with_clock (fun c => (c + wait)%Q) a') = (Ok r, a'') /\
           json_get_default "status" JNull r = JStr "error" /\
           failure_count a'' endpoint = 1)).
Proof.
  intros Hfail Hnone Hth Hto.
  assert (failure_count a endpoint = 0) as Hc0 by (unfold failure_count; rewrite Hnone; reflexivity).
  destruct (guarded_calls_failing api_call endpoint method headers payload Hfail
              (Z.to_nat (APICallerAgent.circuit_breaker_threshold a)) a)
    as (results & a' & E & Hlen & Hall & Hc & Hth' & Hto' & Hlast).
  { rewrite Hc0. lia. }
  exists results, a'. split; [exact E |]. split; [lia |]. split; [exact Hall |].
  split; [rewrite Hc, Hc0; lia |].
  intros Hpos.
  destruct Hlast as (d & L & Hd); [lia |].
  assert (APICallerAgent.count d = APICallerAgent.circuit_breaker_threshold a) as Hcd.
  { rewrite Hc0 in Hc. unfold failure_count in Hc. rewrite L in Hc. lia. }
  split.
  - intros other_call m h pl.
    apply (guarded_call_open other_call endpoint m h pl a' d L).
    + rewrite Hth', Hcd. lia.
    + rewrite Hd, Hto'. unfold Qltb. apply negb_false_iff, Qle_bool_iff.
      ring_simplify. exact Hto.
  - split.
    { intros wait other_call m h pl Hwait. cbv zeta.
      apply (guarded_call_open other_call endpoint m h pl
               (APICallerAgent.with_clock (fun c => (c + wait)%Q) a') d L).
      + change (APICallerAgent.circuit_breaker_threshold
                  (APICallerAgent.with_clock (fun c => (c + wait)%Q) a'))
          with (APICallerAgent.circuit_breaker_threshold a').
        rewrite Hth', Hcd. lia.
      + change (APICallerAgent.circuit_breaker_timeout
                  (APICallerAgent.with_clock (fun c => (c + wait)%Q) a'))
          with (APICallerAgent.circuit_breaker_timeout a').
        change (APICallerAgent.clock (APICallerAgent.with_clock (fun c => (c + wait)%Q) a'))
          with (APICallerAgent.clock a' + wait)%Q.
        rewrite Hd, Hto'. unfold Qltb. apply negb_false_iff, Qle_bool_iff.
        ring_simplify. exact Hwait. }
    intros wait Hwait.
    set (a1 := APICallerAgent.with_clock (fun c => (c + wait)%Q) a').
    rewrite (guarded_call_half_open api_call endpoint method headers payload a1 d L).
    + rewrite guarded_call_below_threshold.
      2: { unfold failure_count. simpl. rewrite lookup_insert_eq. simpl. rewrite Hth'. lia. }
      cbv zeta. destruct (Hfail (APICallerAgent.clock
                                   (APICallerAgent.with_failed_endpoints
                                      (insert endpoint (APICallerAgent.mkFailure 0 0)) a1)))
        as [e Ee].
      rewrite Ee. eexists _, _. split; [reflexivity |]. split; [reflexivity |].
      unfold failure_count. simpl. rewrite !lookup_insert_eq. reflexivity.
    + change (APICallerAgent.circuit_breaker_threshold a1)
        with (APICallerAgent.circuit_breaker_threshold a'). rewrite Hth', Hcd. lia.
    + change (APICallerAgent.circuit_breaker_timeout a1)
        with (APICallerAgent.circuit_breaker_timeout a').
      change (APICallerAgent.clock a1) with (APICallerAgent.clock a' + wait)%Q.
      rewrite Hd, Hto'. unfold Qltb. apply negb_true_iff.
      destruct (Qle_bool _ _) eqn:Eb; [| reflexivity].
      apply Qle_bool_iff in Eb. exfalso. ring_simplify in Eb. lra.
Qed.

Lemma circuit_opens_after_threshold_failures_witness :
  exists (results : list json) (a' : APICallerAgent.t),
    guarded_calls failing_api 5 "https://example.org/api" (JStr "GET") (JDict []) JNull
      (APICallerAgent.init 0) = (Ok results, a') /\
    failure_count a' "https://example.org/api" = 5.
Proof.
  destruct (circuit_opens_after_threshold_failures failing_api "https://example.org/api"
              (JStr "GET") (JDict []) JNull (APICallerAgent.init 0)
              (fun t => ex_intro _ _ eq_refl) (lookup_empty _)
              ltac:(simpl; lia) ltac:(discriminate))
    as (results & a' & E & _ & _ & Hc & _).
  exists results, a'. split; assumption.
Defined.

(** ** Alerting: deduplication *)

Lemma Qltb_lt (x y : Q) : Qltb x y = true <-> (x < y)%Q.
Proof.
  unfold Qltb. rewrite negb_true_iff. split.
  - intros H. apply Qnot_le_lt. intros Hle. apply Qle_bool_iff in Hle. congruence.
  - intros H. destruct (Qle_bool y x) eqn:E; [| reflexivity].
    apply Qle_bool_iff in E. exfalso. lra.
Qed.

Lemma dedup_loop_spec (t : Q) (alerts acc : list AlertingAgent.alert) (a : AlertingAgent.t) :
  (0 < AlertingAgent.alert_cooldown a)%Q ->
  exists (new : list AlertingAgent.alert) (a' : AlertingAgent.t),
    AlertingAgent.dedup_loop t alerts acc a = ((acc ++ new)%list, a') /\
    sublist new alerts /\
    NoDup (map AlertingAgent.alert_id new) /\
    (forall al, al ∈ new -> suppressed t a (AlertingAgent.alert_id al) = false) /\
    (forall id,
        AlertingAgent.alert_cache a' !! id =
        if bool_decide (id ∈ map AlertingAgent.alert_id new) then Some t
        else AlertingAgent.alert_cache a !! id) /\
    (forall al, al ∈ alerts ->
        AlertingAgent.alert_id al ∈ map AlertingAgent.alert_id new \/
        suppressed t a (AlertingAgent.alert_id al) = true) /\
    AlertingAgent.alert_cooldown a' = AlertingAgent.alert_cooldown a /\
    AlertingAgent.clock a' = AlertingAgent.clock a.
Proof.
  revert acc a. induction alerts as [| al alerts IH]; intros acc a Hcd.
  - exists [], a. rewrite app_nil_r. split; [reflexivity |]. split; [constructor |].
    split; [constructor |]. split; [intros al H; apply elem_of_nil in H; contradiction |].
    split; [intros id; reflexivity |].
    split; [intros al H; apply elem_of_nil in H; contradiction |]. split; reflexivity.
  - cbn [AlertingAgent.dedup_loop]. fold (suppressed t a (AlertingAgent.alert_id al)).
    destruct (suppressed t a (AlertingAgent.alert_id al)) eqn:Es.
    + destruct (IH acc a Hcd) as (new & a' & E & Hsub & Hnd & Hns & Hc & Hcov & Hcd' & Hck).
      exists new, a'. split; [exact E |]. split; [apply sublist_cons; exact Hsub |].
      split; [exact Hnd |]. split; [exact Hns |]. split; [exact Hc |].
      split; [| split; assumption].
      intros x Hx. apply elem_of_cons in Hx as [-> | Hx]; [right; exact Es | apply Hcov, Hx].
    + set (a1 := AlertingAgent.with_alert_cache (insert (AlertingAgent.alert_id al) t) a).
      destruct (IH (acc ++ [al])%list a1 Hcd)
        as (new & a' & E & Hsub & Hnd & Hns & Hc & Hcov & Hcd' & Hck).
      assert (forall id, id <> AlertingAgent.alert_id al ->
                         suppressed t a1 id = suppressed t a id) as Hother.
      { intros id Hne. unfold suppressed, a1. simpl.
        rewrite lookup_insert_ne by congruence. reflexivity. }
      assert (suppressed t a1 (AlertingAgent.alert_id al) = true) as Hself.
      { unfold suppressed, a1. simpl. rewrite lookup_insert_eq.
        apply Qltb_lt. ring_simplify. exact Hcd. }
      assert (AlertingAgent.alert_id al ∉ map AlertingAgent.alert_id new) as Hfresh.
      { intros Hin. apply list_elem_of_fmap in Hin as (x & Hx & Hin).
        apply Hns in Hin. rewrite <- Hx in Hin. congruence. }
      exists (al :: new), a'. rewrite E, <- app_assoc.
      split; [reflexivity |]. split; [apply sublist_skip; exact Hsub |].
      split; [simpl; constructor; assumption |].
      split.
      { intros x Hx. apply elem_of_cons in Hx as [-> | Hx]; [exact Es |].
        rewrite <- Hother; [apply Hns, Hx |].
        intros Heq. apply Hfresh. rewrite <- Heq. apply list_elem_of_fmap. eauto. }
      split.
      { intros id. rewrite Hc. unfold a1. simpl.
        destruct (decide (id = AlertingAgent.alert_id al)) as [-> | Hne].
        - rewrite (bool_decide_eq_false_2 _ Hfresh), lookup_insert_eq.
          rewrite bool_decide_eq_true_2 by left. reflexivity.
        - rewrite lookup_insert_ne by congruence.
          rewrite (bool_decide_ext (id ∈ AlertingAgent.alert_id al
                                          :: map AlertingAgent.alert_id new)
                     (id ∈ map AlertingAgent.alert_id new)); [reflexivity |].
          rewrite elem_of_cons. tauto. }
      split; [| split; assumption].
      intros x Hx. apply elem_of_cons in Hx as [-> | Hx]; [left; left |].
      destruct (decide (AlertingAgent.alert_id x = AlertingAgent.alert_id al)) as [Heq | Hne].
      * left. rewrite Heq. left.
      * destruct (Hcov x Hx) as [Hin | Hsup]; [left; right; exact Hin |].
        right. rewrite <- Hother; assumption.
Qed.

Lemma dedup_loop_all_suppressed (t : Q) (alerts acc : list AlertingAgent.alert)
    (a : AlertingAgent.t) :
  (forall al, al ∈ alerts -> suppressed t a (AlertingAgent.alert_id al) = true) ->
  AlertingAgent.dedup_loop t alerts acc a = (acc, a).
Proof.
  induction alerts as [| al alerts IH]; intros Hall; [reflexivity |].
  cbn [AlertingAgent.dedup_loop]. fold (suppressed t a (AlertingAgent.alert_id al)).
  rewrite (Hall al) by left. apply IH. intros x Hx. apply Hall. right. exact Hx.
Qed.

Lemma foldl_delete_lookup (ids : list string) (c : gmap string Q) (id : string) :
  foldl (fun c id => delete id c) c ids !! id =
  if bool_decide (id ∈ ids) then None else c !! id.
Proof.
  revert c. induction ids as [| x ids IH]; intros c; [reflexivity |].
  cbn [foldl]. rewrite IH. destruct (decide (id = x)) as [-> | Hne].
  - rewrite (bool_decide_eq_true_2 (x ∈ x :: ids)) by left.
    rewrite lookup_delete_eq. destruct (bool_decide _); reflexivity.
  - rewrite lookup_delete_ne by congruence.
    rewrite (bool_decide_ext (id ∈ x :: ids) (id ∈ ids)); [reflexivity |].
    rewrite elem_of_cons. tauto.
Qed.

Lemma cleanup_cache_lookup (t : Q) (a : AlertingAgent.t) (id : string) :
  AlertingAgent.alert_cache (AlertingAgent._cleanup_cache t a) !! id =
  match AlertingAgent.alert_cache a !! id with
  | Some sent =>
      if Qltb (AlertingAgent.alert_cooldown a * 2) (t - sent)%Q then None else Some sent
  | None => None
  end.
Proof.
  unfold AlertingAgent._cleanup_cache. cbv zeta.
  cbn [AlertingAgent.alert_cache AlertingAgent.with_alert_cache].
  rewrite foldl_delete_lookup.
  set (expired := fun kv : string * Q => Qltb (AlertingAgent.alert_cooldown a * 2) (t - kv.2)%Q).
  destruct (AlertingAgent.alert_cache a !! id) as [sent |] eqn:L.
  - destruct (Qltb (AlertingAgent.alert_cooldown a * 2) (t - sent)%Q) eqn:Ex.
    + rewrite bool_decide_eq_true_2; [reflexivity |].
      apply list_elem_of_fmap. exists (id, sent). split; [reflexivity |].
      apply list_elem_of_In, filter_In. split; [| exact Ex].
      apply list_elem_of_In, elem_of_map_to_list. exact L.
    + rewrite bool_decide_eq_false_2; [reflexivity |].
      intros Hin. apply list_elem_of_fmap in Hin as ([k v] & Hk & Hin). simpl in Hk. subst k.
      apply list_elem_of_In, filter_In in Hin as [Hin Hex].
      apply list_elem_of_In, elem_of_map_to_list in Hin. rewrite L in Hin.
      injection Hin as <-. unfold expired in Hex. simpl in Hex. congruence.
  - destruct (bool_decide _); reflexivity.
Qed.

(** X29: with a positive cooldown, [_deduplicate_alerts] returns a
    sublist of the alerts with pairwise different ids; every alert returned
    was not under cooldown and is cached at the current time; every alert
    left out either has the id of an alert returned or was under cooldown;
    sending the same alerts again at the same time returns none. *)
Theorem deduplicate_alerts_sends_each_id_once (alerts : list AlertingAgent.alert)
    (a : AlertingAgent.t) :
  (0 < AlertingAgent.alert_cooldown a)%Q ->
  exists (unique : list AlertingAgent.alert) (a' : AlertingAgent.t),
    AlertingAgent._deduplicate_alerts alerts a = (unique, a') /\
    sublist unique alerts /\
    NoDup (map AlertingAgent.alert_id unique) /\
    (forall al, al ∈ unique ->
       suppressed (AlertingAgent.clock a) a (AlertingAgent.alert_id al) = false /\
       AlertingAgent.alert_cache a' !! AlertingAgent.alert_id al
         = Some (AlertingAgent.clock a)) /\
    (forall al, al ∈ alerts ->
       AlertingAgent.alert_id al ∈ map AlertingAgent.alert_id unique \/
       suppressed (AlertingAgent.clock a) a (AlertingAgent.alert_id al) = true) /\
    fst (AlertingAgent._deduplicate_alerts alerts a') = [].
Proof.
  intros Hcd. unfold AlertingAgent._deduplicate_alerts. cbv zeta.
  set (t := AlertingAgent.clock a).
  destruct (dedup_loop_spec t alerts [] a Hcd)
    as (new & a1 & E & Hsub & Hnd & Hns & Hc & Hcov & Hcd1 & Hck).
  rewrite E. cbn [app].
  set (a' := AlertingAgent._cleanup_cache t a1).
  assert (forall al, al ∈ new ->
            AlertingAgent.alert_cache a' !! AlertingAgent.alert_id al = Some t) as Hsent.
  { intros al Hal. unfold a'. rewrite cleanup_cache_lookup, Hc.
    rewrite bool_decide_eq_true_2 by (apply list_elem_of_fmap; eauto).
    assert (Qltb (AlertingAgent.alert_cooldown a1 * 2) (t - t)%Q = false) as ->; [| reflexivity].
    destruct (Qltb _ _) eqn:Ex; [| reflexivity].
    apply Qltb_lt in Ex. rewrite Hcd1 in Ex. exfalso. ring_simplify in Ex. lra. }
  exists new, a'. split; [reflexivity |]. split; [exact Hsub |]. split; [exact Hnd |].
  split; [intros al Hal; split; [apply Hns, Hal | apply Hsent, Hal] |].
  split; [exact Hcov |].
  assert (AlertingAgent.clock a' = t) as -> by exact Hck.
  rewrite dedup_loop_all_suppressed; [reflexivity |].
  intros al Hal. unfold suppressed.
  assert (AlertingAgent.alert_cooldown a' = AlertingAgent.alert_cooldown a) as Hcd' by exact Hcd1.
  rewrite Hcd'.
  destruct (Hcov al Hal) as [Hin | Hsup].
  - apply list_elem_of_fmap in Hin as (x & Hx & Hin). rewrite Hx, (Hsent x Hin).
    apply Qltb_lt. ring_simplify. exact Hcd.
  - unfold a'. rewrite cleanup_cache_lookup, Hc.
    destruct (bool_decide _).
    + assert (Qltb (AlertingAgent.alert_cooldown a1 * 2) (t - t)%Q = false) as ->.
      { destruct (Qltb _ _) eqn:Ex; [| reflexivity].
        apply Qltb_lt in Ex. rewrite Hcd1 in Ex. exfalso. ring_simplify in Ex. lra. }
      apply Qltb_lt. ring_simplify. exact Hcd.
    + unfold suppressed in Hsup.
      destruct (AlertingAgent.alert_cache a !! AlertingAgent.alert_id al) as [sent |];
        [| discriminate].
      apply Qltb_lt in Hsup.
      assert (Qltb (AlertingAgent.alert_cooldown a1 * 2) (t - sent)%Q = false) as ->.
      { destruct (Qltb _ _) eqn:Ex; [| reflexivity].
        apply Qltb_lt in Ex. rewrite Hcd1 in Ex. exfalso. lra. }
      apply Qltb_lt. exact Hsup.
Qed.

Lemma deduplicate_alerts_sends_each_id_once_witness :
  exists (unique : list AlertingAgent.alert) (a' : AlertingAgent.t),
    AlertingAgent._deduplicate_alerts three_alerts (AlertingAgent.init 0) = (unique, a') /\
    NoDup (map AlertingAgent.alert_id unique).
Proof.
  destruct (deduplicate_alerts_sends_each_id_once three_alerts (AlertingAgent.init 0)
              eq_refl) as (unique & a' & E & _ & Hnd & _).
  exists unique, a'. split; assumption.
Defined.

(** ** Alerting: priorities *)

Lemma insert_sorted_stable {A} (key : A -> Z) (r : Z) (x : A) (l : list A) :
  List.filter (fun y => (key y =? r)%Z)
    (insert_sorted (fun a b => (key a <=? key b)%Z) x l)
  = List.filter (fun y => (key y =? r)%Z) (x :: l).
Proof.
  induction l as [| y l IH]; [reflexivity |].
  cbn [insert_sorted]. destruct (key x <=? key y)%Z eqn:E; [reflexivity |].
  apply Z.leb_gt in E. cbn [List.filter] in *. rewrite IH.
  destruct (key y =? r)%Z eqn:Ey, (key x =? r)%Z eqn:Ex; try reflexivity.
  apply Z.eqb_eq in Ey, Ex. lia.
Qed.

Lemma sorted_by_stable {A} (key : A -> Z) (r : Z) (l : list A) :
  List.filter (fun y => (key y =? r)%Z) (sorted_by (fun a b => (key a <=? key b)%Z) l)
  = List.filter (fun y => (key y =? r)%Z) l.
Proof.
  induction l as [| x l IH]; [reflexivity |].
  change (sorted_by (fun a b => (key a <=? key b)%Z) (x :: l))
    with (insert_sorted (fun a b => (key a <=? key b)%Z) x
            (sorted_by (fun a b => (key a <=? key b)%Z) l)).
  rewrite insert_sorted_stable. cbn [List.filter]. rewrite IH. reflexivity.
Qed.

(** X30: [_prioritize_alerts] is a stable sort by severity rank: the
    result is a permutation of the alerts, sorted by rank, the alerts of
    each rank keep their order, and an alert that is not critical comes
    first only if no alert is critical. *)
Theorem prioritize_alerts_is_a_stable_sort (alerts : list AlertingAgent.alert) :
  let rank := fun al => AlertingAgent.severity_rank (AlertingAgent.severity al) in
  AlertingAgent._prioritize_alerts alerts ≡ₚ alerts /\
  StronglySorted (fun x y => rank x <= rank y) (AlertingAgent._prioritize_alerts alerts) /\
  (forall r,
      List.filter (fun al => (rank al =? r)%Z) (AlertingAgent._prioritize_alerts alerts)
      = List.filter (fun al => (rank al =? r)%Z) alerts) /\
  (forall x y rest,
      AlertingAgent._prioritize_alerts alerts = x :: rest -> y ∈ alerts ->
      AlertingAgent.severity x <> "critical" -> AlertingAgent.severity y <> "critical").
Proof.
  intros rank.
  set (leb := fun x y : AlertingAgent.alert => (rank x <=? rank y)%Z).
  change (AlertingAgent._prioritize_alerts alerts) with (sorted_by leb alerts).
  assert (StronglySorted (fun x y => rank x <= rank y) (sorted_by leb alerts)) as Hsorted.
  { assert (StronglySorted (fun x y => leb x y = true) (sorted_by leb alerts)) as H.
    { apply (sorted_by_sorted leb).
      - intros x y. unfold leb. rewrite !Z.leb_le. lia.
      - intros x y z. unfold leb. rewrite !Z.leb_le. lia. }
    induction H as [| x l _ IH Hall]; constructor; [exact IH |].
    eapply Forall_impl; [exact Hall |]. intros y Hy. apply Z.leb_le. exact Hy. }
  split; [apply sorted_by_perm |]. split; [exact Hsorted |].
  split; [intros r; apply (sorted_by_stable rank r alerts) |].
  intros x y rest E Hy Hx Hc.
  rewrite E in Hsorted. apply StronglySorted_inv in Hsorted as [_ Hall].
  assert (y ∈ x :: rest) as Hin by (rewrite <- E, (sorted_by_perm leb); exact Hy).
  assert (rank x <= rank y) as Hle.
  { apply elem_of_cons in Hin as [-> | Hin]; [lia |].
    rewrite Forall_forall in Hall. apply Hall, Hin. }
  unfold rank in Hle. rewrite Hc in Hle.
  change (AlertingAgent.severity_rank "critical") with 0 in Hle.
  unfold AlertingAgent.severity_rank in Hle.
  destruct (String.eqb_spec (AlertingAgent.severity x) "critical") as [| _]; [contradiction |].
  destruct (String.eqb (AlertingAgent.severity x) "high"); [lia |].
  destruct (String.eqb (AlertingAgent.severity x) "medium"); [lia |].
  destruct (String.eqb (AlertingAgent.severity x) "low"); lia.
Qed.
